(** * Finale_Script.py: data-quality assessment, KPI derivation and cleaning

    A shallow embedding of [Finale_Script.py] (the pandas pipeline of
    GBP_DataSource) and the properties its specification states.

    Data model.  A [DataFrame] is a list of column labels and a list of rows;
    a row is a list of cells aligned with the labels.  A pandas column has one
    dtype, and so the cells of one column are of one kind: [Int] (int64),
    [Float] (float64, whose NaN is the missing marker), [Str] (object column
    of str, with [NA] for a missing entry) or [Timestamp] (datetime64, with
    [NA] for NaT).  The dtype of a column is read off its cells.  Row labels
    (the index) are not modelled: nothing but the layout of report tables
    depends on them.  Strings are Python strs whose code points are below
    256.  float64 arithmetic is IEEE 754 binary64 as specified by
    [SpecFloat]. *)

From Stdlib Require Import ZArith List String Ascii Bool Lia.
From Stdlib Require Import Permutation Sorted DecimalString OrderedTypeEx.
From Stdlib Require Import SpecFloat.
From stdpp Require Import gmap strings.
Import ListNotations.

Open Scope Z_scope.
Open Scope string_scope.
Open Scope list_scope.

(** ** float64 *)

Module Float64.

Definition prec : Z := 53.
Definition emax : Z := 1024.

(** Conversion of an int64 to float64 (round to nearest, ties to even). *)
Definition of_Z (z : Z) : spec_float := binary_normalize prec emax z 0 false.

Definition zero : spec_float := S754_zero false.
Definition nan : spec_float := S754_nan.

Definition add : spec_float -> spec_float -> spec_float := SFadd prec emax.
Definition div : spec_float -> spec_float -> spec_float := SFdiv prec emax.

Definition is_nan (f : spec_float) : bool :=
  match f with S754_nan => true | _ => false end.

Definition is_inf (f : spec_float) : bool :=
  match f with S754_infinity _ => true | _ => false end.

Definition is_zero (f : spec_float) : bool :=
  match f with S754_zero _ => true | _ => false end.

(** Neither NaN nor an infinity. *)
Definition is_finite (f : spec_float) : bool := negb (is_nan f) && negb (is_inf f).

(** [==] and [<=] of IEEE 754: 0.0 == -0.0, NaN compares with nothing. *)
Definition eqb : spec_float -> spec_float -> bool := SFeqb.
Definition leb : spec_float -> spec_float -> bool := SFleb.

End Float64.

(** ** Cells, rows and frames *)

Inductive cell : Type :=
| NA                        (* NaN or None in an object column, NaT *)
| Int (z : Z)               (* int64 *)
| Float (f : spec_float)    (* float64 *)
| Str (s : string)          (* str *)
| Timestamp (t : Z).        (* datetime64[ns] *)

Definition row : Type := list cell.

Record DataFrame : Type := mkDataFrame { columns : list string; rows : list row }.

(** [pd.isna] on a scalar. *)
Definition isna (c : cell) : bool :=
  match c with
  | NA => true
  | Float f => Float64.is_nan f
  | _ => false
  end.

(** Equality of two values as pandas' hash tables see it ([duplicated],
    [nunique], [groupby]): [==], with all missing markers alike. *)
Definition cell_eqb (a b : cell) : bool :=
  match a, b with
  | NA, NA => true
  | NA, Float f | Float f, NA => Float64.is_nan f
  | Int x, Int y => (x =? y)%Z
  | Float x, Float y => Float64.eqb x y || (Float64.is_nan x && Float64.is_nan y)
  | Str x, Str y => String.eqb x y
  | Timestamp x, Timestamp y => (x =? y)%Z
  | _, _ => false
  end.

Fixpoint row_eqb (r1 r2 : row) : bool :=
  match r1, r2 with
  | [], [] => true
  | a :: r1', b :: r2' => cell_eqb a b && row_eqb r1' r2'
  | _, _ => false
  end.

(** The dtype a value belongs to; 4 stands for a missing marker. *)
Definition kind (c : cell) : nat :=
  match c with
  | Int _ => 0
  | Float f => if Float64.is_nan f then 4 else 1
  | Str _ => 2
  | Timestamp _ => 3
  | NA => 4
  end%nat.

(** [<=] on sort keys.  Missing keys go last ([na_position='last']); keys of
    one kind compare as Python compares them; keys of different kinds are
    ranked by kind only to keep the function total, [sort_values] refuses
    them before any comparison is made. *)
Definition cell_leb (a b : cell) : bool :=
  if isna b then true
  else if isna a then false
  else match a, b with
       | Int x, Int y => (x <=? y)%Z
       | Float x, Float y => Float64.leb x y
       | Str x, Str y => String.leb x y
       | Timestamp x, Timestamp y => (x <=? y)%Z
       | _, _ => (kind a <=? kind b)%nat
       end.

Definition cell_at (j : nat) (r : row) : cell := nth j r NA.

Definition column_values (j : nat) (df : DataFrame) : list cell :=
  map (cell_at j) (rows df).

(** ** Failure *)

Notation "'do' x <- m ; k" := (match m with Some x => k | None => None end)
  (at level 10, x name, m at level 100, k at level 200, only parsing).

Fixpoint traverse {A B : Type} (f : A -> option B) (l : list A) : option (list B) :=
  match l with
  | [] => Some []
  | a :: l' => do b <- f a; do bs <- traverse f l'; Some (b :: bs)
  end.

(** ** Column labels *)

Fixpoint index_of (name : string) (cols : list string) : option nat :=
  match cols with
  | [] => None
  | c :: cols' =>
      if String.eqb c name then Some O
      else match index_of name cols' with Some i => Some (S i) | None => None end
  end.

Definition label_in (name : string) (cols : list string) : bool :=
  existsb (String.eqb name) cols.

(** [df.columns.get_loc(name)] where one position is expected: [None] stands
    for the KeyError of an absent label.  A label that occurs more than once
    is refused as well: pandas then hands back all the columns of that name,
    on which [groupby], [sort_values], [to_datetime] and the truth test of
    the imputation loop raise. *)
Definition get_loc (cols : list string) (name : string) : option nat :=
  if (count_occ string_dec cols name =? 1)%nat then index_of name cols else None.

(** [set(names).issubset(df.columns)] *)
Definition issubset (names cols : list string) : bool :=
  forallb (fun n => label_in n cols) names.

(** ** DataFrame operations used by the script *)

(** [df.copy()] *)
Definition copy (df : DataFrame) : DataFrame :=
  mkDataFrame (columns df) (rows df).

(** [df.dropna(subset=subset)] *)
Definition dropna (df : DataFrame) (subset : list string) : option DataFrame :=
  do js <- traverse (get_loc (columns df)) subset;
  Some (mkDataFrame (columns df)
          (List.filter (fun r => forallb (fun j => negb (isna (cell_at j r))) js) (rows df))).

(** [df[names]] for a list of labels *)
Definition getitem_cols (df : DataFrame) (names : list string) : option DataFrame :=
  do js <- traverse (get_loc (columns df)) names;
  Some (mkDataFrame names (map (fun r => map (fun j => cell_at j r) js) (rows df))).

(** [df.duplicated()]: a row is flagged when an earlier row equals it. *)
Fixpoint duplicated_from (seen : list row) (l : list row) : list bool :=
  match l with
  | [] => []
  | r :: l' => existsb (row_eqb r) seen :: duplicated_from (r :: seen) l'
  end.

Definition duplicated (df : DataFrame) : list bool := duplicated_from [] (rows df).

(** [Series.sum()] of a boolean series *)
Definition sum_bool (l : list bool) : nat := length (List.filter (fun b => b) l).

(** [df.drop_duplicates()] is [df[~df.duplicated()]]. *)
Definition drop_duplicates (df : DataFrame) : DataFrame :=
  mkDataFrame (columns df)
    (map fst (List.filter (fun p => negb (snd p)) (combine (rows df) (duplicated df)))).

(** The values in order of first appearance, those equal to a value met
    before left out. *)
Fixpoint first_occurrences {A : Type} (eqb : A -> A -> bool) (seen l : list A) : list A :=
  match l with
  | [] => []
  | a :: l' =>
      if existsb (eqb a) seen then first_occurrences eqb seen l'
      else a :: first_occurrences eqb (a :: seen) l'
  end.

(** [Series.unique()] and [Series.nunique()]: the distinct values and their
    number, missing ones left out of the count. *)
Definition unique (l : list cell) : list cell := first_occurrences cell_eqb [] l.

Definition nunique (l : list cell) : nat :=
  length (unique (List.filter (fun c => negb (isna c)) l)).

(** [df.groupby(by).filter(func)]: the rows whose group satisfies [func], in
    their original order; rows with a missing key belong to no group. *)
Fixpoint filter_rows (p : row -> option bool) (l : list row) : option (list row) :=
  match l with
  | [] => Some []
  | r :: l' =>
      do b <- p r; do t <- filter_rows p l'; Some (if b : bool then r :: t else t)
  end.

Definition group_of (j : nat) (df : DataFrame) (key : cell) : DataFrame :=
  mkDataFrame (columns df)
    (List.filter (fun r => cell_eqb (cell_at j r) key) (rows df)).

Definition groupby_filter (df : DataFrame) (by_ : string)
    (func : DataFrame -> option bool) : option DataFrame :=
  do j <- get_loc (columns df) by_;
  do kept <- filter_rows
            (fun r => if isna (cell_at j r) then Some false
                      else func (group_of j df (cell_at j r)))
            (rows df);
  Some (mkDataFrame (columns df) kept).

(** [df.sort_values(by=by_)].  Sorting compares the keys that are not
    missing, and Python raises TypeError on keys of different kinds.  numpy's
    default sort is insertion sort on short arrays; on long ones the order
    among equal keys is not fixed by pandas. *)
Fixpoint insert_row (j : nat) (r : row) (l : list row) : list row :=
  match l with
  | [] => [r]
  | x :: l' =>
      if cell_leb (cell_at j r) (cell_at j x) then r :: l else x :: insert_row j r l'
  end.

Definition sort_rows (j : nat) (l : list row) : list row :=
  fold_right (insert_row j) [] l.

Definition comparable (keys : list cell) : bool :=
  match List.filter (fun c => negb (isna c)) keys with
  | [] => true
  | k :: ks => forallb (fun c => (kind c =? kind k)%nat) ks
  end.

Definition sort_values (df : DataFrame) (by_ : string) : option DataFrame :=
  do j <- get_loc (columns df) by_;
  if comparable (column_values j df)
  then Some (mkDataFrame (columns df) (sort_rows j (rows df)))
  else None.

(** ** 3. Core analysis logic *)

(** The [Union[str, List[str]]] argument of [detect_inconsistencies]. *)
Inductive col_arg : Type :=
| OneCol (name : string)
| ManyCols (names : list string).

Definition as_list (col2 : col_arg) : list string :=
  match col2 with
  | OneCol name => [name]
  | ManyCols names => names
  end.

(** [lambda x: x[col2].nunique().gt(1).any()] *)
Definition more_than_one_value (col2 : list string) (x : DataFrame) : option bool :=
  do sub <- getitem_cols x col2;
  Some (existsb (fun j => (1 <? nunique (column_values j sub))%nat)
          (seq 0 (length col2))).

Definition detect_inconsistencies (df : DataFrame) (col1 : string) (col2 : col_arg)
  : option DataFrame :=
  let df_temp := copy df in
  let col2 := as_list col2 in
  let check_cols := col1 :: col2 in
  do df_temp <- dropna df_temp check_cols;
  do inconsistent <- groupby_filter df_temp col1 (more_than_one_value col2);
  do projected <- getitem_cols inconsistent check_cols;
  sort_values (drop_duplicates projected) col1.

(** ** Python strings *)

Definition code (c : ascii) : nat := nat_of_ascii c.

(** [str.isspace] on a code point below 256. *)
Definition is_space (c : ascii) : bool :=
  let n := code c in
  ((9 <=? n) && (n <=? 13) || (28 <=? n) && (n <=? 32) || (n =? 133) || (n =? 160))%nat.

(** [str.lower] on a code point below 256. *)
Definition lower_char (c : ascii) : ascii :=
  let n := code c in
  if ((65 <=? n) && (n <=? 90) || (192 <=? n) && (n <=? 222) && negb (n =? 215))%nat
  then ascii_of_nat (n + 32) else c.

(** [str.upper] on a code point below 256 whose capital is below 256 too;
    the section titles it is applied to are ASCII literals. *)
Definition upper_char (c : ascii) : ascii :=
  let n := code c in
  if ((97 <=? n) && (n <=? 122) || (224 <=? n) && (n <=? 254) && negb (n =? 247))%nat
  then ascii_of_nat (n - 32) else c.

Fixpoint str_map (f : ascii -> ascii) (s : string) : string :=
  match s with
  | EmptyString => EmptyString
  | String c s' => String (f c) (str_map f s')
  end.

Definition str_lower : string -> string := str_map lower_char.
Definition str_upper : string -> string := str_map upper_char.

(** [s.replace(old, new)] for one-character [old] and [new]. *)
Definition str_replace (old new : ascii) : string -> string :=
  str_map (fun c => if Ascii.eqb c old then new else c).

Fixpoint str_lstrip (s : string) : string :=
  match s with
  | EmptyString => EmptyString
  | String c s' => if is_space c then str_lstrip s' else s
  end.

Fixpoint str_rstrip (s : string) : string :=
  match s with
  | EmptyString => EmptyString
  | String c s' =>
      match str_rstrip s' with
      | EmptyString => if is_space c then EmptyString else String c EmptyString
      | t => String c t
      end
  end.

(** [s.strip()] *)
Definition str_strip (s : string) : string := str_rstrip (str_lstrip s).

Fixpoint str_repeat (s : string) (n : nat) : string :=
  match n with
  | O => EmptyString
  | S n' => s +:+ str_repeat s n'
  end.

(** [str(n)] for an int *)
Definition str_nat (n : nat) : string := NilZero.string_of_uint (Nat.to_uint n).
Definition str_Z (z : Z) : string := NilZero.string_of_int (Z.to_int z).

(** ** 1. Configuration and constants *)

Definition RAW_DATA_PATH : string := "GBP_DataSource_Pr.csv".
Definition CLEAN_DATA_PATH : string := "GBP_DataSource_clean.csv".
Definition LOG_PATH : string := "GBP_DataSource_data_quality_log.txt".
Definition REPORT_PATH : string := "GBP_DataSource_Analysis_Report.docx".

Definition PRIMARY_KEY_COLS : list string := ["Order ID"; "Row ID"].
Definition DATE_COLS : list string := ["Order Date"; "Ship Date"].
Definition NUMERIC_COLS : list string := ["Sales"; "Quantity"; "Discount"; "Profit"].

(** ** Column-wise operations of the pipeline *)

(** [df[name] = vals]: overwrites the column when the label exists, appends
    a new last column otherwise. *)
Definition setitem (df : DataFrame) (name : string) (vals : list cell) : DataFrame :=
  if label_in name (columns df)
  then mkDataFrame (columns df)
         (map (fun rv : row * cell =>
                 map (fun cx : string * cell =>
                        if String.eqb (fst cx) name then snd rv else snd cx)
                     (combine (columns df) (fst rv)))
              (combine (rows df) vals))
  else mkDataFrame (columns df ++ [name])
         (map (fun rv : row * cell => fst rv ++ [snd rv]) (combine (rows df) vals)).

(** Operand of float64 arithmetic: int64 converts, a missing entry is NaN,
    a str or a timestamp makes [/] raise TypeError. *)
Definition to_float64 (c : cell) : option spec_float :=
  match c with
  | Int z => Some (Float64.of_Z z)
  | Float f => Some f
  | NA => Some Float64.nan
  | Str _ | Timestamp _ => None
  end.

(** [.replace([np.inf, -np.inf], 0)] on one value *)
Definition replace_inf (f : spec_float) : spec_float :=
  if Float64.is_inf f then Float64.zero else f.

(** One value of [(df['Profit'] / df['Sales']).replace([np.inf, -np.inf], 0)] *)
Definition profit_margin (profit sales : cell) : option cell :=
  do p <- to_float64 profit;
  do s <- to_float64 sales;
  Some (Float (replace_inf (Float64.div p s))).

Definition add_profit_margin (df : DataFrame) : option DataFrame :=
  do jp <- get_loc (columns df) "Profit";
  do js <- get_loc (columns df) "Sales";
  do vals <- traverse (fun r => profit_margin (cell_at jp r) (cell_at js r)) (rows df);
  Some (setitem df "Profit_Margin" vals).

(** [df.columns.str.strip().str.replace(' ', '_').str.lower()] on one label *)
Definition standardize (name : string) : string :=
  str_lower (str_replace " " "_" (str_strip name)).

Definition standardize_columns (df : DataFrame) : DataFrame :=
  mkDataFrame (map standardize (columns df)) (rows df).

(** [[c.lower().replace(' ', '_') for c in DATE_COLS]] *)
Definition date_labels : list string :=
  map (fun c => str_replace " " "_" (str_lower c)) DATE_COLS.

(** [df.select_dtypes(include=[np.number]).columns]: the labels of the int64
    and float64 columns.  A frame without rows has no cells to read a dtype
    off: every column then counts, and the imputation loop does nothing. *)
Definition is_int (c : cell) : bool := match c with Int _ => true | _ => false end.
Definition is_float (c : cell) : bool := match c with Float _ => true | _ => false end.

Definition is_number_dtype (vals : list cell) : bool :=
  forallb is_int vals || forallb is_float vals.

Definition select_number_columns (df : DataFrame) : list string :=
  map fst
    (List.filter (fun cj : string * nat => is_number_dtype (column_values (snd cj) df))
       (combine (columns df) (seq 0 (length (columns df))))).

(** [Series.median()]: NaN is skipped; the middle of the sorted values, or
    the mean of the two middle ones; NaN when nothing is left. *)
Fixpoint insert_float (x : spec_float) (l : list spec_float) : list spec_float :=
  match l with
  | [] => [x]
  | y :: l' => if Float64.leb x y then x :: l else y :: insert_float x l'
  end.

Definition sort_floats (l : list spec_float) : list spec_float :=
  fold_right insert_float [] l.

Definition float_values (vals : list cell) : list spec_float :=
  flat_map (fun c => match to_float64 c with
                     | Some f => if Float64.is_nan f then [] else [f]
                     | None => []
                     end) vals.

Definition median (vals : list cell) : spec_float :=
  let xs := sort_floats (float_values vals) in
  let n := length xs in
  if (n =? 0)%nat then Float64.nan
  else if Nat.odd n then nth (n / 2) xs Float64.nan
  else Float64.div
         (Float64.add (nth (n / 2 - 1) xs Float64.nan) (nth (n / 2) xs Float64.nan))
         (Float64.of_Z 2).

(** [Series.fillna(value)] *)
Definition fillna (value : spec_float) (vals : list cell) : list cell :=
  map (fun c => if isna c then Float value else c) vals.

(** [df.isna().sum()] restricted to the columns where it is positive, as the
    frame [missing[missing['Missing Count'] > 0]]: one row per such column. *)
Definition count_missing (df : DataFrame) : list (string * nat) :=
  List.filter (fun cn : string * nat => (0 <? snd cn)%nat)
    (map (fun cj : string * nat =>
            (fst cj, length (List.filter isna (column_values (snd cj) df))))
       (combine (columns df) (seq 0 (length (columns df))))).

Definition missing_summary (df : DataFrame) : DataFrame :=
  mkDataFrame ["Missing Count"]
    (map (fun cn : string * nat => [Int (Z.of_nat (snd cn))]) (count_missing df)).

(** [df.head(n)], [df.empty] *)
Definition head (df : DataFrame) (n : nat) : DataFrame :=
  mkDataFrame (columns df) (firstn n (rows df)).

Definition empty (df : DataFrame) : bool :=
  match rows df, columns df with
  | [], _ | _, [] => true
  | _, _ => false
  end.

(** ** The world the script runs in *)

(** An element of the python-docx document under construction.  A table
    block records the frame that is displayed; the text of its cells (str of
    each value, two decimals for a float, the index column that
    [reset_index] prepends) is presentation. *)
Inductive block : Type :=
| Heading (level : nat) (text : string)
| Paragraph (text : string)
| TableGrid (shown : DataFrame).

(** Files by path, the lines printed so far, the number of clock readings
    taken, and the document held by the logger ([self.doc]). *)
Record state : Type := mkState {
  fs : gmap string string;
  stdout : list string;
  clock : nat;
  doc : list block
}.

(** What the script takes from its libraries and from the operating system. *)
Class Platform : Type := {
  (** [str(datetime.now())] at the n-th reading of the clock *)
  now_str : nat -> string;
  (** [datetime.now().strftime('%H:%M:%S')] at the n-th reading *)
  now_hms : nat -> string;
  (** [pd.read_csv(..., delimiter=';', decimal=',', encoding='utf-8-sig')] on
      the content of a file; [None] when the parser raises *)
  read_csv : string -> option DataFrame;
  (** [df.to_csv(path, index=False)]: the text written *)
  to_csv : DataFrame -> string;
  (** [Document.save]: the bytes written *)
  docx_bytes : list block -> string;
  (** [str] of a float and of a timestamp *)
  str_float : spec_float -> string;
  str_timestamp : Z -> string;
  (** [pd.to_datetime(series, errors='coerce')] on one value of the series:
      the instant it denotes, if it parses in the format pandas settles on
      for the series *)
  parse_datetime : list cell -> cell -> option Z
}.

Inductive outcome (A : Type) : Type :=
| Returned (a : A)
| Raised.

Arguments Returned {A} a.
Arguments Raised {A}.

(** Computations that read and write a state of type [S] and may raise. *)
Definition Eff (S A : Type) : Type := S -> outcome A * S.

Definition ret {S A : Type} (a : A) : Eff S A := fun st => (Returned a, st).

Definition bind {S A B : Type} (m : Eff S A) (k : A -> Eff S B) : Eff S B :=
  fun st =>
    match m st with
    | (Returned a, st') => k a st'
    | (Raised, st') => (Raised, st')
    end.

Notation "'run' x <- m ; k" := (bind m (fun x => k))
  (at level 10, x name, m at level 100, k at level 200, only parsing).

Definition lift {S A : Type} (o : option A) : Eff S A :=
  fun st => match o with Some a => (Returned a, st) | None => (Raised, st) end.

(** The script proper runs in the world. *)
Abbreviation M := (Eff state).

Definition nl : string := String (ascii_of_nat 10) EmptyString.

(** [print(line)] *)
Definition print (line : string) : M unit :=
  fun st => (Returned tt, mkState (fs st) (stdout st ++ [line]) (clock st) (doc st)).

(** [with open(path, "w") as f: f.write(text)] *)
Definition write_file (path text : string) : M unit :=
  fun st => (Returned tt, mkState (<[path := text]> (fs st)) (stdout st) (clock st) (doc st)).

(** [with open(path, "a") as f: f.write(text)] *)
Definition append_file (path text : string) : M unit :=
  fun st =>
    (Returned tt,
     mkState (<[path := default EmptyString (fs st !! path) +:+ text]> (fs st))
       (stdout st) (clock st) (doc st)).

(** [os.path.exists(path)] *)
Definition path_exists (path : string) : M bool :=
  fun st => (Returned (bool_decide (is_Some (fs st !! path))), st).

Definition read_file (path : string) : M string :=
  fun st => lift (fs st !! path) st.

(** One reading of [datetime.now()] *)
Definition tick : M nat :=
  fun st => (Returned (clock st), mkState (fs st) (stdout st) (S (clock st)) (doc st)).

Definition add_block (b : block) : M unit :=
  fun st => (Returned tt, mkState (fs st) (stdout st) (clock st) (doc st ++ [b])).

Definition get_doc : M (list block) := fun st => (Returned (doc st), st).

Definition new_document : M unit :=
  fun st => (Returned tt, mkState (fs st) (stdout st) (clock st) []).

(** ** 2. Logging engine *)

Record AnalysisLogger : Type := mkLogger { txt_path : string; doc_path : string }.

Section Pipeline.

Context {P : Platform}.

(** [AnalysisLogger.__init__] *)
Definition new_logger (txt doc_ : string) : M AnalysisLogger :=
  run _ <- new_document;
  run _ <- add_block (Heading 0 "Technical Data Analysis Report");
  run t <- tick;
  run _ <- write_file txt
             ("DATA ANALYSIS LOG | Generated: " +:+ now_str t +:+ nl
              +:+ str_repeat "=" 80 +:+ nl);
  ret (mkLogger txt doc_).

Definition log_section (self : AnalysisLogger) (title : string) (level : nat) : M unit :=
  run _ <- print (nl +:+ "--- " +:+ str_upper title +:+ " ---");
  run _ <- append_file (txt_path self)
             (nl +:+ nl +:+ "SECTION: " +:+ title +:+ nl +:+ str_repeat "-" 40 +:+ nl);
  add_block (Heading level title).

Definition log_message (self : AnalysisLogger) (message : string) : M unit :=
  run _ <- print message;
  run t <- tick;
  run _ <- append_file (txt_path self) (now_hms t +:+ " | " +:+ message +:+ nl);
  add_block (Paragraph message).

Definition log_table (self : AnalysisLogger) (df : DataFrame) (title : option string)
    (max_rows : nat) : M unit :=
  run _ <- match title with
           | Some (String c t) => log_message self (String c t)
           | _ => ret tt
           end;
  if empty df then add_block (Paragraph "No issues/data found for this metric.")
  else
    run _ <- add_block (TableGrid (if (max_rows =? 0)%nat then df else head df max_rows));
    run _ <- (if (max_rows <? length (rows df))%nat
              then add_block (Paragraph ("... [Truncated: "
                                         +:+ str_nat (length (rows df) - max_rows)
                                         +:+ " more rows]"))
              else ret tt);
    add_block (Paragraph EmptyString).

Definition save_report (self : AnalysisLogger) : M unit :=
  run d <- get_doc;
  write_file (doc_path self) (docx_bytes d).

(** ** The stages of [run_pipeline] *)

(** [Series.astype(str)] on one value.  A missing entry gives the text
    "nan", as an object column of pandas 2 has it; under the string dtype of
    pandas 3 the entry stays missing. *)
Definition astype_str (c : cell) : string :=
  match c with
  | NA => "nan"
  | Int z => str_Z z
  | Float f => str_float f
  | Str s => s
  | Timestamp t => str_timestamp t
  end.

Definition add_product_full_name (df : DataFrame) : option DataFrame :=
  do ji <- get_loc (columns df) "Product ID";
  do jn <- get_loc (columns df) "Product Name";
  Some (setitem df "Product_Full_Name"
          (map (fun r => Str (astype_str (cell_at ji r) +:+ " | "
                              +:+ astype_str (cell_at jn r)))
             (rows df))).

(** [pd.to_datetime(series, errors='coerce')] *)
Definition to_datetime (vals : list cell) : list cell :=
  map (fun c => match parse_datetime vals c with
                | Some t => Timestamp t
                | None => NA
                end) vals.

(** 2. Assessment: completeness and duplicates *)
Definition assess_quality (logger : AnalysisLogger) (df : DataFrame) : M unit :=
  run _ <- log_section logger "1. Data Quality Assessment" 1;
  run _ <- log_message logger
             ("Initial Shape: " +:+ str_nat (length (rows df)) +:+ " rows, "
              +:+ str_nat (length (columns df)) +:+ " columns.");
  run _ <- log_table logger (missing_summary df) (Some "Missing Values Summary") 15;
  let full_dups := sum_bool (duplicated df) in
  log_message logger ("Fully Duplicated Rows: " +:+ str_nat full_dups).

(** 3. Assessment: relational inconsistencies *)
Definition check_mapping (logger : AnalysisLogger) (df : DataFrame)
    (col1 col2 title : string) : M unit :=
  if issubset [col1; col2] (columns df)
  then run inc <- lift (detect_inconsistencies df col1 (OneCol col2));
       log_table logger inc (Some title) 15
  else ret tt.

Definition check_inconsistencies (logger : AnalysisLogger) (df : DataFrame) : M unit :=
  run _ <- log_section logger "2. Logical Inconsistency Check" 2;
  run _ <- check_mapping logger df "Postal Code" "City"
             "Inconsistent Mapping: One Postal Code to Many Cities";
  check_mapping logger df "Product ID" "Product Name"
    "Inconsistent Mapping: One Product ID to Many Names".

(** 4. KPI and attribute definition *)
Definition enrich (logger : AnalysisLogger) (df : DataFrame) : M DataFrame :=
  run _ <- log_section logger "3. Calculations & KPI Enrichment" 1;
  run df <- (if issubset ["Profit"; "Sales"] (columns df)
             then run df' <- lift (add_profit_margin df);
                  run _ <- log_message logger "Added KPI: Profit_Margin (Profit / Sales)";
                  ret df'
             else ret df);
  if issubset ["Product ID"; "Product Name"] (columns df)
  then run df' <- lift (add_product_full_name df);
       run _ <- log_message logger "Added Attribute: Product_Full_Name";
       ret df'
  else ret df.

(** 5. Data cleaning: duplicates *)
Definition remove_duplicates (logger : AnalysisLogger) (df : DataFrame) : M DataFrame :=
  let initial_count := length (rows df) in
  let df := drop_duplicates df in
  run _ <- log_message logger
             ("Dropped " +:+ str_Z (Z.of_nat initial_count - Z.of_nat (length (rows df)))
              +:+ " duplicate rows.");
  ret df.

(** 5. Data cleaning: dates *)
Fixpoint handle_dates (logger : AnalysisLogger) (cols : list string) (df : DataFrame)
  : M DataFrame :=
  match cols with
  | [] => ret df
  | col :: cols' =>
      if label_in col (columns df)
      then run j <- lift (get_loc (columns df) col);
           let df := setitem df col (to_datetime (column_values j df)) in
           run _ <- log_message logger ("Converted '" +:+ col +:+ "' to datetime.");
           handle_dates logger cols' df
      else handle_dates logger cols' df
  end.

(** 5. Data cleaning: imputation of missing numeric values *)
Fixpoint impute (logger : AnalysisLogger) (cols : list string) (df : DataFrame)
  : M DataFrame :=
  match cols with
  | [] => ret df
  | col :: cols' =>
      run j <- lift (get_loc (columns df) col);
      if existsb isna (column_values j df)
      then let median_val := median (column_values j df) in
           let df := setitem df col (fillna median_val (column_values j df)) in
           run _ <- log_message logger
                      ("Imputed missing values in '" +:+ col +:+ "' with median: "
                       +:+ str_float median_val);
           impute logger cols' df
      else impute logger cols' df
  end.

Definition clean (logger : AnalysisLogger) (df : DataFrame) : M DataFrame :=
  run _ <- log_section logger "4. Data Cleaning & Transformation Log" 1;
  let df := standardize_columns df in
  run _ <- log_message logger "Standardized column names to lowercase snake_case.";
  run df <- remove_duplicates logger df;
  run df <- handle_dates logger date_labels df;
  let num_cols_actual := select_number_columns df in
  impute logger num_cols_actual df.

(** 6. Finalization *)
Definition finalize (logger : AnalysisLogger) (df : DataFrame) : M unit :=
  run _ <- log_section logger "5. Final Dataset Summary" 1;
  run _ <- log_message logger ("Final Row Count: " +:+ str_nat (length (rows df)));
  run _ <- write_file CLEAN_DATA_PATH (to_csv df);
  run _ <- log_message logger ("Cleaned dataset exported to: " +:+ CLEAN_DATA_PATH);
  run _ <- save_report logger;
  print (nl +:+ "Process Complete. See '" +:+ REPORT_PATH +:+ "' for the full analysis.").

Definition run_pipeline : M unit :=
  run logger <- new_logger LOG_PATH REPORT_PATH;
  run found <- path_exists RAW_DATA_PATH;
  if negb found
  then log_message logger ("CRITICAL: " +:+ RAW_DATA_PATH +:+ " not found.")
  else
    run text <- read_file RAW_DATA_PATH;
    run df <- lift (read_csv text);
    run _ <- assess_quality logger df;
    run _ <- check_inconsistencies logger df;
    run df <- enrich logger df;
    run df <- clean logger df;
    finalize logger df.

End Pipeline.

(** ** Frames as objects

    [detect_inconsistencies] receives a reference to the caller's frame.
    Objects live in a store, and each pandas call of the function returns a
    new object. *)

Definition new_frame (v : DataFrame) : Eff (gmap nat DataFrame) nat :=
  fun h => let l := fresh (dom h) in (Returned l, <[l := v]> h).

Definition load (l : nat) : Eff (gmap nat DataFrame) DataFrame :=
  fun h => lift (h !! l) h.

Definition detect_inconsistencies_obj (df : nat) (col1 : string) (col2 : col_arg)
  : Eff (gmap nat DataFrame) nat :=
  run v <- load df;
  run df_temp <- new_frame (copy v);
  let col2 := as_list col2 in
  let check_cols := col1 :: col2 in
  run v <- load df_temp;
  run v <- lift (dropna v check_cols);
  run df_temp <- new_frame v;
  run v <- load df_temp;
  run v <- lift (groupby_filter v col1 (more_than_one_value col2));
  run inconsistent <- new_frame v;
  run v <- load inconsistent;
  run v <- lift (getitem_cols v check_cols);
  run projected <- new_frame v;
  run v <- load projected;
  run deduplicated <- new_frame (drop_duplicates v);
  run v <- load deduplicated;
  run v <- lift (sort_values v col1);
  new_frame v.

(** ** Vocabulary of the statements *)

(** A representative of the values that [cell_eqb] identifies: all missing
    markers are one value, and so are 0.0 and -0.0. *)
Definition canon (c : cell) : cell :=
  match c with
  | Float S754_nan => NA
  | Float (S754_zero _) => Float (S754_zero false)
  | _ => c
  end.

(** The number of values of [l] equal to [y]. *)
Definition occurrences {A : Type} (eqb : A -> A -> bool) (y : A) (l : list A) : nat :=
  length (List.filter (eqb y) l).

(** Rows ordered by the key in column [j]. *)
Definition key_le (j : nat) (a b : row) : Prop :=
  cell_leb (cell_at j a) (cell_at j b) = true.

(** No missing value in the columns [js] of the row. *)
Definition complete (js : list nat) (r : row) : bool :=
  forallb (fun j => negb (isna (cell_at j r))) js.

(** The (key, dependent...) tuple of a row. *)
Definition tuple (js : list nat) (r : row) : row :=
  map (fun j => cell_at j r) js.

(** Among the complete rows, [key] comes with two different values in one of
    the dependent columns [ds]. *)
Definition violates (df : DataFrame) (k : nat) (ds : list nat) (key : cell) : Prop :=
  exists d r1 r2,
    In d ds /\ In r1 (rows df) /\ In r2 (rows df) /\
    complete (k :: ds) r1 = true /\ complete (k :: ds) r2 = true /\
    cell_eqb (cell_at k r1) key = true /\ cell_eqb (cell_at k r2) key = true /\
    cell_eqb (cell_at d r1) (cell_at d r2) = false.

(** Every object of the store [h] is in [h'], unchanged. *)
Definition extends (h h' : gmap nat DataFrame) : Prop :=
  forall l w, h !! l = Some w -> h' !! l = Some w.

(** What [standardize] does to one character of the stripped label. *)
Definition fold_char (c : ascii) : ascii :=
  lower_char (if Ascii.eqb c " " then "_"%char else c).

(** Every row has one cell for each column. *)
Definition rectangular (df : DataFrame) : Prop :=
  Forall (fun r : row => length r = length (columns df)) (rows df).

(** The columns "Profit" and "Sales" hold numbers (int64 or float64). *)
Definition numeric_at (j : nat) (df : DataFrame) : Prop :=
  Forall (fun r : row => to_float64 (cell_at j r) <> None) (rows df).

(** A stand-in for the libraries, to evaluate the stages on examples: a
    clock that stands still, a parser that knows one date. *)
Definition sample_platform : Platform := {|
  now_str := fun _ => "2026-01-01 00:00:00.000000";
  now_hms := fun _ => "00:00:00";
  read_csv := fun _ => None;
  to_csv := fun _ => EmptyString;
  docx_bytes := fun _ => EmptyString;
  str_float := fun _ => "3.0";
  str_timestamp := fun _ => "2026-01-01 00:00:00";
  parse_datetime := fun _ c =>
    match c with
    | Str s => if String.eqb s "2026-01-01" then Some 1767225600000000000 else None
    | _ => None
    end
|}.

Definition sample_logger : AnalysisLogger := mkLogger LOG_PATH REPORT_PATH.

Definition empty_state : state := mkState ∅ [] 0 [].


(** ** Vocabulary of the further properties *)

(** Every run of [m] relates the state it starts from to the state it leaves. *)
Definition preserves {A : Type} (R : state -> state -> Prop) (m : M A) : Prop :=
  forall st, R st (snd (m st)).

(** No file outside [paths] differs between the two states. *)
Definition touches_only (paths : list string) (st st' : state) : Prop :=
  forall p, ~ In p paths -> fs st' !! p = fs st !! p.

(** From [st] to [st'] the three sinks of the logger only grew: the text
    log at [path] by text at its end, the document by blocks at its end, the
    console by lines; no other file changed. *)
Definition log_extended (path : string) (st st' : state) : Prop :=
  (forall p, p <> path -> fs st' !! p = fs st !! p) /\
  (exists text,
     default EmptyString (fs st' !! path) = default EmptyString (fs st !! path) +:+ text) /\
  (exists blocks, doc st' = doc st ++ blocks) /\
  (exists lines, stdout st' = stdout st ++ lines).

(** Every character of the string satisfies [p]. *)
Fixpoint str_forall (p : ascii -> bool) (s : string) : bool :=
  match s with
  | EmptyString => true
  | String c s' => p c && str_forall p s'
  end.

(** A label in the form [standardize] produces: no white space at either
    end, no space inside, no capital letter. *)
Definition snake_case (s : string) : Prop :=
  str_strip s = s /\
  str_forall (fun c => negb (Ascii.eqb c " ") && Ascii.eqb (lower_char c) c) s = true.

(** From [st] to [st'] a run of the pipeline wrote to its three output
    files at most, and the text log, the document and the console only
    grew. *)
Definition pipeline_extended (st st' : state) : Prop :=
  touches_only [LOG_PATH; CLEAN_DATA_PATH; REPORT_PATH] st st' /\
  (exists text,
     default EmptyString (fs st' !! LOG_PATH)
     = default EmptyString (fs st !! LOG_PATH) +:+ text) /\
  (exists blocks, doc st' = doc st ++ blocks) /\
  (exists lines, stdout st' = stdout st ++ lines).

(** A stand-in for the libraries whose CSV reader yields [df]. *)
Definition parsing_platform (df : DataFrame) : Platform := {|
  now_str := fun _ => "2026-01-01 00:00:00.000000";
  now_hms := fun _ => "00:00:00";
  read_csv := fun _ => Some df;
  to_csv := fun _ => "csv";
  docx_bytes := fun _ => "docx";
  str_float := fun _ => "3.0";
  str_timestamp := fun _ => "2026-01-01 00:00:00";
  parse_datetime := fun _ _ => None
|}.

(** [m] returns a value from every state. *)
Definition never_raises {A : Type} (m : M A) : Prop :=
  forall st, exists a st', m st = (Returned a, st').

(** * Properties *)

(** ** Equality of cells and rows *)

Lemma SFeqb_finite s1 m1 e1 s2 m2 e2 :
  SFeqb (S754_finite s1 m1 e1) (S754_finite s2 m2 e2) = true <->
  s1 = s2 /\ m1 = m2 /\ e1 = e2.
Proof.
  unfold SFeqb, SFcompare.
  change (Pos.compare_cont Eq m1 m2) with (Pos.compare m1 m2).
  destruct s1, s2; destruct (Z.compare_spec e1 e2); destruct (Pos.compare_spec m1 m2);
    simpl; split; intros H'; try discriminate; try (destruct H' as (? & ? & ?));
    subst; try lia; try discriminate; auto.
Qed.

Lemma cell_eqb_canon a b : cell_eqb a b = true <-> canon a = canon b.
Proof.
  destruct a as [|x|x|x|x], b as [|y|y|y|y]; simpl;
    try (split; intros; discriminate);
    try (rewrite Z.eqb_eq; split; congruence);
    try (rewrite String.eqb_eq; split; congruence);
    try tauto.
  - destruct y as [[]|[]| |[] ? ?]; simpl; split; congruence.
  - destruct y as [[]|[]| |[] ? ?]; simpl; split; congruence.
  - destruct x as [[]|[]| |[] ? ?]; simpl; split; congruence.
  - destruct x as [[]|[]| |[] ? ?]; simpl; split; congruence.
  - destruct x as [sx|sx| |sx mx ex], y as [sy|sy| |sy my ey];
      try (destruct sx); try (destruct sy); try (simpl; split; congruence).
    all: unfold Float64.eqb; rewrite orb_false_r, SFeqb_finite; simpl;
      (split; [intros (? & -> & ->); congruence | intros [=]; auto]).
  - destruct x as [[]|[]| |[] ? ?]; simpl; split; congruence.
  - destruct x as [[]|[]| |[] ? ?]; simpl; split; congruence.
  - destruct y as [[]|[]| |[] ? ?]; simpl; split; congruence.
  - destruct y as [[]|[]| |[] ? ?]; simpl; split; congruence.
Qed.

Lemma row_eqb_canon r1 r2 : row_eqb r1 r2 = true <-> map canon r1 = map canon r2.
Proof.
  revert r2. induction r1 as [|a r1 IH]; intros [|b r2]; simpl;
    try (split; intros; discriminate); try tauto.
  rewrite andb_true_iff, cell_eqb_canon, IH. split.
  - intros [-> ->]. reflexivity.
  - intros [=]. auto.
Qed.

Lemma row_eqb_refl r : row_eqb r r = true.
Proof. apply row_eqb_canon. reflexivity. Qed.

Lemma cell_eqb_refl c : cell_eqb c c = true.
Proof. apply cell_eqb_canon. reflexivity. Qed.

(** ** First occurrences *)

Section FirstOccurrences.

Context {A K : Type}.
Variable eqb : A -> A -> bool.
Variable key : A -> K.
Hypothesis eqb_key : forall a b, eqb a b = true <-> key a = key b.

Lemma eqb_false_key a b : eqb a b = false <-> key a <> key b.
Proof.
  rewrite <- eqb_key. destruct (eqb a b); split; congruence.
Qed.

Lemma seen_key a seen :
  existsb (eqb a) seen = true <-> In (key a) (map key seen).
Proof.
  rewrite existsb_exists, in_map_iff. split.
  - intros (x & Hx & He). exists x. apply eqb_key in He. auto.
  - intros (x & He & Hx). exists x. split; [assumption|]. apply eqb_key. auto.
Qed.

Lemma seen_key_false a seen :
  existsb (eqb a) seen = false <-> ~ In (key a) (map key seen).
Proof.
  rewrite <- seen_key. destruct (existsb (eqb a) seen); split; congruence.
Qed.

Lemma first_occurrences_in seen l x :
  In x (first_occurrences eqb seen l) ->
  In x l /\ existsb (eqb x) seen = false.
Proof.
  revert seen. induction l as [|a l IH]; intros seen; simpl; [tauto|].
  destruct (existsb (eqb a) seen) eqn:Ha.
  - intros H. apply IH in H. tauto.
  - intros [<- | H]; [auto|].
    apply IH in H. destruct H as [H1 H2]. simpl in H2.
    apply orb_false_iff in H2. tauto.
Qed.

Lemma first_occurrences_cover seen l x :
  In x l ->
  existsb (eqb x) seen = true \/
  exists y, In y (first_occurrences eqb seen l) /\ eqb x y = true.
Proof.
  revert seen. induction l as [|a l IH]; intros seen; simpl; [tauto|].
  intros [-> | Hx].
  - destruct (existsb (eqb x) seen) eqn:Ha; [auto|].
    right. exists x. split; [left; reflexivity|]. apply eqb_key. reflexivity.
  - destruct (existsb (eqb a) seen) eqn:Ha.
    + apply IH. assumption.
    + destruct (IH (a :: seen) Hx) as [H | (y & Hy & He)].
      * simpl in H. apply orb_true_iff in H. destruct H as [H | H]; [|auto].
        right. exists a. split; [left; reflexivity | assumption].
      * right. exists y. split; [right; assumption | assumption].
Qed.

Lemma first_occurrences_ext seen1 seen2 l :
  (forall x, existsb (eqb x) seen1 = existsb (eqb x) seen2) ->
  first_occurrences eqb seen1 l = first_occurrences eqb seen2 l.
Proof.
  revert seen1 seen2. induction l as [|a l IH]; intros seen1 seen2 H; simpl;
    [reflexivity|].
  rewrite <- (H a). destruct (existsb (eqb a) seen1); [apply IH; assumption|].
  f_equal. apply IH. intros x. simpl. rewrite H. reflexivity.
Qed.

Lemma first_occurrences_seen_again a seen l :
  existsb (eqb a) seen = true ->
  first_occurrences eqb (a :: seen) l = first_occurrences eqb seen l.
Proof.
  intros Ha. apply first_occurrences_ext. intros x. simpl.
  destruct (eqb x a) eqn:Hxa; [|reflexivity]. simpl. symmetry.
  apply seen_key. apply seen_key in Ha. apply eqb_key in Hxa. congruence.
Qed.

Lemma occurrences_fresh seen l y :
  In y (first_occurrences eqb seen l) ->
  forall s, In s seen -> eqb y s = false.
Proof.
  intros Hy s Hs. apply first_occurrences_in in Hy. destruct Hy as [_ Hy].
  destruct (eqb y s) eqn:He; [|reflexivity].
  assert (existsb (eqb y) seen = true) by (apply existsb_exists; eauto).
  congruence.
Qed.

Lemma occurrences_split a seen l :
  existsb (eqb a) seen = false ->
  length (List.filter (fun x => negb (existsb (eqb x) seen)) l) =
  (occurrences eqb a l
   + length (List.filter (fun x => negb (existsb (eqb x) (a :: seen))) l))%nat.
Proof.
  intros Ha. unfold occurrences. induction l as [|x l IH]; simpl; [reflexivity|].
  destruct (eqb a x) eqn:Hax.
  - assert (Hxa : eqb x a = true) by (apply eqb_key; apply eqb_key in Hax; congruence).
    rewrite Hxa. simpl.
    assert (Hx : existsb (eqb x) seen = false).
    { apply seen_key_false. apply seen_key_false in Ha. apply eqb_key in Hax.
      congruence. }
    rewrite Hx. simpl. rewrite IH. simpl. reflexivity.
  - assert (Hxa : eqb x a = false).
    { apply eqb_false_key. apply eqb_false_key in Hax. congruence. }
    rewrite Hxa. simpl. destruct (existsb (eqb x) seen); simpl; rewrite IH; simpl; lia.
Qed.

Lemma sum_occurrences seen l :
  list_sum (map (fun y => occurrences eqb y l) (first_occurrences eqb seen l)) =
  length (List.filter (fun x => negb (existsb (eqb x) seen)) l).
Proof.
  revert seen. induction l as [|a l IH]; intros seen; simpl; [reflexivity|].
  assert (Hext : forall seen',
    (forall y, In y (first_occurrences eqb seen' l) -> eqb y a = false) ->
    map (fun y => occurrences eqb y (a :: l)) (first_occurrences eqb seen' l) =
    map (fun y => occurrences eqb y l) (first_occurrences eqb seen' l)).
  { intros seen' H. apply map_ext_in. intros y Hy. unfold occurrences. simpl.
    rewrite (H y Hy). reflexivity. }
  destruct (existsb (eqb a) seen) eqn:Ha; simpl.
  - rewrite Hext; [apply IH|].
    intros y Hy. apply first_occurrences_in in Hy. destruct Hy as [_ Hy].
    apply eqb_false_key. apply seen_key in Ha. apply seen_key_false in Hy.
    congruence.
  - rewrite Hext.
    + rewrite IH. unfold occurrences at 1. simpl.
      assert (eqb a a = true) as -> by (apply eqb_key; reflexivity).
      simpl. rewrite (occurrences_split a seen l Ha). reflexivity.
    + intros y Hy. apply (occurrences_fresh _ _ _ Hy). left. reflexivity.
Qed.

End FirstOccurrences.

(** ** The order on sort keys *)

Ltac compare_cases :=
  repeat match goal with
         | |- context [Z.compare ?a ?b] => destruct (Z.compare_spec a b)
         | |- context [Pos.compare ?a ?b] => destruct (Pos.compare_spec a b)
         | H : context [Z.compare ?a ?b] |- _ => destruct (Z.compare_spec a b)
         | H : context [Pos.compare ?a ?b] |- _ => destruct (Pos.compare_spec a b)
         end.

Lemma SFleb_total x y :
  Float64.is_nan x = false -> Float64.is_nan y = false ->
  SFleb x y = true \/ SFleb y x = true.
Proof.
  unfold SFleb, SFcompare.
  destruct x as [[]|[]| |[] mx ex], y as [[]|[]| |[] my ey]; simpl;
    try discriminate; auto; intros _ _;
    change (Pos.compare_cont Eq mx my) with (Pos.compare mx my);
    change (Pos.compare_cont Eq my mx) with (Pos.compare my mx);
    compare_cases; simpl; auto; subst; lia.
Qed.

Lemma SFleb_trans x y z :
  SFleb x y = true -> SFleb y z = true -> SFleb x z = true.
Proof.
  unfold SFleb, SFcompare.
  destruct x as [[]|[]| |[] mx ex], y as [[]|[]| |[] my ey], z as [[]|[]| |[] mz ez];
    simpl; try discriminate; auto;
    change (Pos.compare_cont Eq mx my) with (Pos.compare mx my);
    change (Pos.compare_cont Eq my mz) with (Pos.compare my mz);
    change (Pos.compare_cont Eq mx mz) with (Pos.compare mx mz);
    intros H1 H2; compare_cases; simpl in *; subst; try discriminate; auto; lia.
Qed.

Lemma string_leb_trans x y z :
  String.leb x y = true -> String.leb y z = true -> String.leb x z = true.
Proof.
  unfold String.leb.
  destruct (String.compare x y) eqn:Hxy; try discriminate;
    destruct (String.compare y z) eqn:Hyz; try discriminate; intros _ _.
  - apply String_as_OT.cmp_eq in Hxy, Hyz. subst.
    change String.compare with String_as_OT.cmp.
    rewrite (proj2 (String_as_OT.cmp_eq z z) eq_refl). reflexivity.
  - apply String_as_OT.cmp_eq in Hxy. subst. rewrite Hyz. reflexivity.
  - apply String_as_OT.cmp_eq in Hyz. subst. rewrite Hxy. reflexivity.
  - apply String_as_OT.cmp_lt in Hxy, Hyz.
    pose proof (String_as_OT.lt_trans _ _ _ Hxy Hyz) as H.
    apply String_as_OT.cmp_lt in H. unfold String_as_OT.cmp in H. rewrite H. reflexivity.
Qed.

Lemma cell_leb_total a b : cell_leb a b = true \/ cell_leb b a = true.
Proof.
  unfold cell_leb.
  destruct (isna b) eqn:Hb; [auto|]. destruct (isna a) eqn:Ha; [auto|].
  destruct a as [|x|x|x|x], b as [|y|y|y|y]; simpl in *; try discriminate;
    rewrite ?Ha, ?Hb; simpl; auto.
  - lia.
  - apply SFleb_total; assumption.
  - apply String.leb_total.
  - lia.
Qed.

Lemma cell_leb_trans a b c :
  cell_leb a b = true -> cell_leb b c = true -> cell_leb a c = true.
Proof.
  unfold cell_leb.
  destruct (isna c) eqn:Hc; [auto|].
  destruct (isna b) eqn:Hb; [discriminate|].
  destruct (isna a) eqn:Ha; [discriminate|].
  destruct a as [|x|x|x|x], b as [|y|y|y|y], c as [|z|z|z|z]; simpl in *;
    try discriminate; rewrite ?Ha, ?Hb, ?Hc; simpl; auto; try lia.
  - apply SFleb_trans.
  - apply string_leb_trans.
Qed.

Lemma cell_leb_refl a : cell_leb a a = true.
Proof. destruct (cell_leb_total a a); assumption. Qed.

(** ** Sorting *)

Lemma insert_row_perm j r l : Permutation (insert_row j r l) (r :: l).
Proof.
  induction l as [|x l IH]; simpl; [reflexivity|].
  destruct (cell_leb (cell_at j r) (cell_at j x)); [reflexivity|].
  rewrite IH. apply perm_swap.
Qed.

Lemma sort_rows_perm j l : Permutation (sort_rows j l) l.
Proof.
  induction l as [|x l IH]; simpl; [reflexivity|].
  rewrite insert_row_perm, IH. reflexivity.
Qed.

Lemma insert_row_sorted j r l :
  StronglySorted (key_le j) l -> StronglySorted (key_le j) (insert_row j r l).
Proof.
  induction 1 as [|x l Hs IH Hx]; simpl.
  - constructor; constructor.
  - destruct (cell_leb (cell_at j r) (cell_at j x)) eqn:Hrx.
    + constructor; [constructor; assumption|].
      constructor; [assumption|].
      eapply List.Forall_impl; [|exact Hx].
      intros y Hy. unfold key_le in *. eapply cell_leb_trans; eassumption.
    + constructor; [assumption|].
      eapply Permutation_Forall; [symmetry; apply insert_row_perm|].
      constructor; [|assumption].
      unfold key_le. destruct (cell_leb_total (cell_at j r) (cell_at j x)); congruence.
Qed.

Lemma sort_rows_sorted j l : StronglySorted (key_le j) (sort_rows j l).
Proof.
  induction l as [|x l IH]; simpl; [constructor|].
  apply insert_row_sorted. assumption.
Qed.

Lemma StronglySorted_nth_error {A : Type} (R : A -> A -> Prop) (l : list A) :
  StronglySorted R l ->
  forall i j a b, (i < j)%nat ->
    nth_error l i = Some a -> nth_error l j = Some b -> R a b.
Proof.
  induction 1 as [|x l Hs IH Hx]; intros i j a b Hij Hi Hj.
  - destruct i; discriminate.
  - destruct j as [|j]; [lia|]. simpl in Hj. destruct i as [|i]; simpl in Hi.
    + injection Hi as <-. apply nth_error_In in Hj.
      rewrite List.Forall_forall in Hx. auto.
    + apply (IH i j); [lia | assumption | assumption].
Qed.

Lemma sort_rows_ascending j l i1 i2 r1 r2 :
  (i1 <= i2)%nat ->
  nth_error (sort_rows j l) i1 = Some r1 ->
  nth_error (sort_rows j l) i2 = Some r2 ->
  cell_leb (cell_at j r1) (cell_at j r2) = true.
Proof.
  intros Hle H1 H2. destruct (Nat.eq_dec i1 i2) as [->|Hne].
  - assert (r1 = r2) by congruence. subst. apply cell_leb_refl.
  - apply (StronglySorted_nth_error _ _ (sort_rows_sorted j l) i1 i2); [lia|assumption..].
Qed.

(** ** Kinds of keys *)

Lemma comparable_spec keys :
  comparable keys = true <->
  forall x y, In x keys -> In y keys -> isna x = false -> isna y = false ->
              kind x = kind y.
Proof.
  unfold comparable.
  assert (Hf : forall x, In x (List.filter (fun c => negb (isna c)) keys) <->
                         In x keys /\ isna x = false).
  { intros x. rewrite filter_In, negb_true_iff. reflexivity. }
  destruct (List.filter (fun c => negb (isna c)) keys) as [|k ks].
  - split; [|reflexivity]. intros _ x y Hx _ Hnx _.
    destruct (proj2 (Hf x) (conj Hx Hnx)).
  - rewrite forallb_forall. split.
    + intros H x y Hx Hy Hnx Hny.
      assert (Hk : forall z, In z keys -> isna z = false -> kind z = kind k).
      { intros z Hz Hnz. destruct (proj2 (Hf z) (conj Hz Hnz)) as [<- | Hin];
          [reflexivity|]. apply Nat.eqb_eq. apply H. assumption. }
      rewrite (Hk x), (Hk y); auto.
    + intros H c Hc. apply Nat.eqb_eq.
      destruct (proj1 (Hf c) (or_intror Hc)) as [Hc1 Hc2].
      destruct (proj1 (Hf k) (or_introl eq_refl)) as [Hk1 Hk2].
      apply H; assumption.
Qed.

(** ** Rows without repetition *)

Section Distinct.

Context {A K : Type}.
Variable eqb : A -> A -> bool.
Variable key : A -> K.
Hypothesis eqb_key : forall a b, eqb a b = true <-> key a = key b.

Lemma first_occurrences_NoDup seen l :
  List.NoDup (map key (first_occurrences eqb seen l)).
Proof.
  revert seen. induction l as [|a l IH]; intros seen; simpl; [constructor|].
  destruct (existsb (eqb a) seen) eqn:Ha; [apply IH|].
  simpl. constructor; [|apply IH].
  rewrite in_map_iff. intros (y & Hk & Hy).
  apply (first_occurrences_in eqb) in Hy. destruct Hy as [_ Hy]. simpl in Hy.
  apply orb_false_iff in Hy. destruct Hy as [Hy _].
  apply (eqb_false_key eqb key eqb_key) in Hy. congruence.
Qed.

Lemma NoDup_keys_distinct l i j a b :
  List.NoDup (map key l) -> i <> j ->
  nth_error l i = Some a -> nth_error l j = Some b -> eqb a b = false.
Proof.
  intros Hnd Hij Ha Hb. apply (eqb_false_key eqb key eqb_key). intros Hk.
  apply Hij. rewrite List.NoDup_nth_error in Hnd. apply Hnd.
  - rewrite length_map. apply nth_error_Some. congruence.
  - rewrite !nth_error_map, Ha, Hb. simpl. congruence.
Qed.

End Distinct.

(** ** [duplicated] and [drop_duplicates] *)

Lemma duplicated_from_length seen l : length (duplicated_from seen l) = length l.
Proof.
  revert seen. induction l as [|r l IH]; intros seen; simpl; [reflexivity|].
  rewrite IH. reflexivity.
Qed.

Lemma kept_first_occurrences seen l :
  map fst (List.filter (fun p : row * bool => negb (snd p))
             (combine l (duplicated_from seen l))) =
  first_occurrences row_eqb seen l.
Proof.
  revert seen. induction l as [|r l IH]; intros seen; simpl; [reflexivity|].
  destruct (existsb (row_eqb r) seen) eqn:Hr; simpl; rewrite IH; [|reflexivity].
  apply (first_occurrences_seen_again row_eqb (map canon) row_eqb_canon).
  assumption.
Qed.

Lemma drop_duplicates_rows df :
  rows (drop_duplicates df) = first_occurrences row_eqb [] (rows df).
Proof. apply kept_first_occurrences. Qed.

Lemma duplicated_count seen l :
  (sum_bool (duplicated_from seen l) + length (first_occurrences row_eqb seen l)
   = length l)%nat.
Proof.
  unfold sum_bool. revert seen. induction l as [|r l IH]; intros seen; simpl;
    [reflexivity|].
  destruct (existsb (row_eqb r) seen) eqn:Hr; simpl.
  - specialize (IH (r :: seen)).
    rewrite (first_occurrences_seen_again row_eqb (map canon) row_eqb_canon) in IH
      by assumption.
    lia.
  - specialize (IH (r :: seen)). lia.
Qed.

Lemma duplicated_from_flag seen l i r :
  nth_error l i = Some r ->
  (nth_error (duplicated_from seen l) i = Some true <->
   existsb (row_eqb r) seen = true \/
   exists j r', (j < i)%nat /\ nth_error l j = Some r' /\ row_eqb r r' = true).
Proof.
  revert seen i. induction l as [|a l IH]; intros seen i Hi.
  - destruct i; discriminate.
  - destruct i as [|i]; simpl in *.
    + injection Hi as ->. split.
      * intros [=]. auto.
      * intros [H | (j & _ & Hj & _)]; [congruence | lia].
    + rewrite (IH (a :: seen) i Hi). simpl. rewrite orb_true_iff. split.
      * intros [[H | H] | (j & r' & Hj & Hr' & He)]; [| auto |].
        -- right. exists O, a. split; [lia|]. auto.
        -- right. exists (S j), r'. split; [lia|]. auto.
      * intros [H | (j & r' & Hj & Hr' & He)]; [auto|].
        destruct j as [|j]; simpl in Hr'.
        -- injection Hr' as ->. auto.
        -- right. exists j, r'. split; [lia|]. auto.
Qed.

Lemma list_sum_pred {A : Type} (f : A -> nat) (l : list A) :
  (forall y, In y l -> (1 <= f y)%nat) ->
  (list_sum (map (fun y => f y - 1) l) + length l = list_sum (map f l))%nat.
Proof.
  induction l as [|a l IH]; simpl; intros H; [reflexivity|].
  assert (1 <= f a)%nat by (apply H; auto).
  assert (list_sum (map (fun y => f y - 1) l) + length l = list_sum (map f l))%nat
    by (apply IH; auto).
  lia.
Qed.

Lemma occurrences_pos l y :
  In y l -> (1 <= occurrences row_eqb y l)%nat.
Proof.
  intros Hy. unfold occurrences.
  assert (In y (List.filter (row_eqb y) l)).
  { apply filter_In. split; [assumption | apply row_eqb_refl]. }
  destruct (List.filter (row_eqb y) l); simpl; [contradiction | lia].
Qed.

(** [duplicated] flags exactly the rows that equal an earlier row; the
    number of flags set is the sum, over the distinct rows, of their number
    of occurrences less one. *)
Lemma duplicated_spec (df : DataFrame) :
  let full_dups := sum_bool (duplicated df) in
  length (duplicated df) = length (rows df) /\
  (forall i r, nth_error (rows df) i = Some r ->
     (nth_error (duplicated df) i = Some true <->
      exists j r', (j < i)%nat /\ nth_error (rows df) j = Some r' /\
                   row_eqb r r' = true)) /\
  full_dups =
    list_sum (map (fun y => (occurrences row_eqb y (rows df) - 1)%nat)
                (rows (drop_duplicates df))) /\
  (full_dups + length (rows (drop_duplicates df)) = length (rows df))%nat.
Proof.
  cbv zeta. unfold duplicated. rewrite drop_duplicates_rows.
  split; [apply duplicated_from_length|].
  split.
  { intros i r Hi. rewrite (duplicated_from_flag [] _ i r Hi). simpl.
    split; [intros [H | H]; [discriminate | assumption] | auto]. }
  pose proof (duplicated_count [] (rows df)) as Hc.
  split; [|exact Hc].
  pose proof (sum_occurrences row_eqb (map canon) row_eqb_canon [] (rows df)) as Hs.
  assert (Hall : forall f : row -> bool, (forall x, f x = true) ->
                                  List.filter f (rows df) = rows df).
  { clear. intros f Hf. induction (rows df) as [|a l IH]; simpl; [reflexivity|].
    rewrite Hf, IH. reflexivity. }
  rewrite Hall in Hs by reflexivity.
  pose proof (list_sum_pred (fun y => occurrences row_eqb y (rows df))
                (first_occurrences row_eqb [] (rows df))) as Hp.
  simpl in Hp. rewrite Hs in Hp.
  assert (Hpos : forall y, In y (first_occurrences row_eqb [] (rows df)) ->
                           (1 <= occurrences row_eqb y (rows df))%nat).
  { intros y Hy. apply occurrences_pos.
    apply (first_occurrences_in row_eqb) in Hy. tauto. }
  specialize (Hp Hpos). lia.
Qed.

(** ** Label lookup *)

Lemma traverse_Forall2 {A B : Type} (f : A -> option B) l js :
  traverse f l = Some js -> Forall2 (fun a j => f a = Some j) l js.
Proof.
  revert js. induction l as [|a l IH]; simpl; intros js H.
  - injection H as <-. constructor.
  - destruct (f a) as [j|] eqn:Ha; [|discriminate].
    destruct (traverse f l) as [js'|]; [|discriminate].
    injection H as <-. constructor; auto.
Qed.

Lemma traverse_length {A B : Type} (f : A -> option B) l js :
  traverse f l = Some js -> length js = length l.
Proof.
  intros H. apply traverse_Forall2 in H. symmetry.
  induction H; simpl; congruence.
Qed.

Lemma get_loc_head name cols :
  ~ In name cols -> get_loc (name :: cols) name = Some O.
Proof.
  intros H. unfold get_loc. simpl.
  destruct (string_dec name name) as [_|n]; [|congruence].
  rewrite (proj1 (count_occ_not_In string_dec cols name) H). simpl.
  rewrite String.eqb_refl. reflexivity.
Qed.

(** ** [nunique] *)

Lemma nunique_more_than_one l :
  (1 <? nunique l)%nat = true <->
  exists x y, In x l /\ In y l /\ isna x = false /\ isna y = false /\
              cell_eqb x y = false.
Proof.
  unfold nunique, unique.
  set (l' := List.filter (fun c => negb (isna c)) l).
  assert (Hl' : forall x, In x l' <-> In x l /\ isna x = false).
  { intros x. unfold l'. rewrite filter_In, negb_true_iff. reflexivity. }
  pose proof (first_occurrences_NoDup cell_eqb canon cell_eqb_canon [] l') as Hnd.
  rewrite Nat.ltb_lt. split.
  - intros Hlen.
    destruct (first_occurrences cell_eqb [] l') as [|a [|b u]] eqn:Hu;
      simpl in Hlen; try lia.
    assert (Ha : In a l').
    { apply (first_occurrences_in cell_eqb [] l'). rewrite Hu. simpl. auto. }
    assert (Hb : In b l').
    { apply (first_occurrences_in cell_eqb [] l'). rewrite Hu. simpl. auto. }
    apply Hl' in Ha, Hb. exists a, b. repeat split; try tauto.
    apply (eqb_false_key cell_eqb canon cell_eqb_canon).
    simpl in Hnd. inversion Hnd as [|? ? Hnotin _]. subst.
    intros E. apply Hnotin. left. congruence.
  - intros (x & y & Hx & Hy & Hnx & Hny & Hxy).
    assert (Hx' : In x l') by (apply Hl'; auto).
    assert (Hy' : In y l') by (apply Hl'; auto).
    destruct (first_occurrences_cover cell_eqb canon cell_eqb_canon [] l' x Hx')
      as [H | (x' & Hx1 & Hx2)]; [discriminate|].
    destruct (first_occurrences_cover cell_eqb canon cell_eqb_canon [] l' y Hy')
      as [H | (y' & Hy1 & Hy2)]; [discriminate|].
    destruct (first_occurrences cell_eqb [] l') as [|a [|b u]]; simpl in *;
      [contradiction | | lia].
    destruct Hx1 as [<- | []]. destruct Hy1 as [<- | []].
    apply cell_eqb_canon in Hx2, Hy2.
    apply (eqb_false_key cell_eqb canon cell_eqb_canon) in Hxy. congruence.
Qed.

(** ** The stages of [detect_inconsistencies] *)

Lemma filter_rows_pure (p : row -> option bool) (q : row -> bool) l :
  (forall r, In r l -> p r = Some (q r)) ->
  filter_rows p l = Some (List.filter q l).
Proof.
  induction l as [|r l IH]; simpl; intros H; [reflexivity|].
  rewrite (H r) by auto. rewrite IH by auto.
  destruct (q r); reflexivity.
Qed.

Lemma cell_at_tuple js r j :
  (j < length js)%nat -> cell_at j (tuple js r) = cell_at (nth j js O) r.
Proof.
  intros Hj. unfold cell_at, tuple.
  rewrite (nth_indep _ NA (nth O r NA)) by (rewrite length_map; assumption).
  change (nth O r NA) with ((fun j => nth j r NA) O).
  rewrite map_nth. reflexivity.
Qed.

Lemma existsb_positions {A : Type} (g : nat -> bool) (ds : list nat) :
  existsb (fun j => g (nth j ds O)) (seq 0 (length ds)) = existsb g ds.
Proof.
  apply eq_true_iff_eq. rewrite !existsb_exists. split.
  - intros (j & Hj & Hg). apply in_seq in Hj. exists (nth j ds O).
    split; [apply nth_In; lia | assumption].
  - intros (d & Hd & Hg). destruct (In_nth ds d O Hd) as (j & Hj & Hn).
    exists j. split; [apply in_seq; lia | rewrite Hn; assumption].
Qed.

Lemma more_than_one_value_eval cols col2 ds (x : DataFrame) :
  columns x = cols ->
  traverse (get_loc cols) col2 = Some ds ->
  more_than_one_value col2 x =
  Some (existsb (fun d => (1 <? nunique (map (cell_at d) (rows x)))%nat) ds).
Proof.
  intros Hc Ht. unfold more_than_one_value, getitem_cols. rewrite Hc, Ht.
  f_equal. rewrite <- (traverse_length _ _ _ Ht).
  rewrite <- (existsb_positions (A := nat)
                (fun d => (1 <? nunique (map (cell_at d) (rows x)))%nat) ds).
  assert (Hcol : forall j, (j < length ds)%nat ->
    column_values j (mkDataFrame col2 (map (fun r => map (fun j => cell_at j r) ds) (rows x)))
    = map (cell_at (nth j ds O)) (rows x)).
  { intros j Hj. unfold column_values. simpl. rewrite map_map.
    apply map_ext. intros r. apply (cell_at_tuple ds r j Hj). }
  apply eq_true_iff_eq. rewrite !existsb_exists.
  split; intros (j & Hj & H); exists j; (split; [assumption|]);
    apply in_seq in Hj; [rewrite <- Hcol by lia | rewrite Hcol by lia]; assumption.
Qed.

Lemma cell_eqb_sym a b : cell_eqb a b = cell_eqb b a.
Proof.
  apply eq_true_iff_eq. rewrite !cell_eqb_canon. split; congruence.
Qed.

Lemma cell_eqb_trans a b c :
  cell_eqb a b = true -> cell_eqb b c = true -> cell_eqb a c = true.
Proof. rewrite !cell_eqb_canon. congruence. Qed.

Lemma row_eqb_sym a b : row_eqb a b = row_eqb b a.
Proof.
  apply eq_true_iff_eq. rewrite !row_eqb_canon. split; congruence.
Qed.

Lemma complete_in js r j :
  complete js r = true -> In j js -> isna (cell_at j r) = false.
Proof.
  unfold complete. rewrite forallb_forall. intros H Hj.
  apply negb_true_iff. apply H. assumption.
Qed.

(** Whether the group of [r] has a dependent column with two values, in
    terms of the rows of the frame. *)
Lemma group_flagged (df : DataFrame) k ds r :
  In r (rows df) -> complete (k :: ds) r = true ->
  (existsb (fun d => (1 <? nunique
      (map (cell_at d)
         (List.filter (fun r' => cell_eqb (cell_at k r') (cell_at k r))
            (List.filter (complete (k :: ds)) (rows df)))))%nat) ds = true
   <-> violates df k ds (cell_at k r)).
Proof.
  intros Hr Hc. rewrite existsb_exists. unfold violates. split.
  - intros (d & Hd & Hn). apply nunique_more_than_one in Hn.
    destruct Hn as (x & y & Hx & Hy & _ & _ & Hxy).
    apply in_map_iff in Hx, Hy.
    destruct Hx as (r1 & <- & Hr1). destruct Hy as (r2 & <- & Hr2).
    apply filter_In in Hr1, Hr2.
    destruct Hr1 as [Hr1 Hk1]. destruct Hr2 as [Hr2 Hk2].
    apply filter_In in Hr1, Hr2.
    exists d, r1, r2. tauto.
  - intros (d & r1 & r2 & Hd & Hr1 & Hr2 & Hc1 & Hc2 & Hk1 & Hk2 & Hne).
    exists d. split; [assumption|]. apply nunique_more_than_one.
    exists (cell_at d r1), (cell_at d r2).
    assert (Hin : forall r', In r' (rows df) -> complete (k :: ds) r' = true ->
                cell_eqb (cell_at k r') (cell_at k r) = true ->
                In (cell_at d r')
                  (map (cell_at d)
                     (List.filter (fun r' => cell_eqb (cell_at k r') (cell_at k r))
                        (List.filter (complete (k :: ds)) (rows df))))).
    { intros r' H1 H2 H3. apply in_map. apply filter_In. split; [|assumption].
      apply filter_In. auto. }
    repeat split; auto.
    + apply (complete_in (k :: ds)); [assumption | right; assumption].
    + apply (complete_in (k :: ds)); [assumption | right; assumption].
Qed.

(** The frame that [detect_inconsistencies] hands to [sort_values]. *)
Lemma detect_inconsistencies_stages (df : DataFrame) col1 col2 k ds :
  get_loc (columns df) col1 = Some k ->
  traverse (get_loc (columns df)) (as_list col2) = Some ds ->
  exists kept,
    (forall r, In r kept <->
       In r (rows df) /\ complete (k :: ds) r = true /\ violates df k ds (cell_at k r)) /\
    detect_inconsistencies df col1 col2 =
    sort_values
      (mkDataFrame (col1 :: as_list col2)
         (first_occurrences row_eqb [] (map (tuple (k :: ds)) kept)))
      col1.
Proof.
  intros Hk Hds. destruct df as [cols rws]. simpl in *.
  set (rows1 := List.filter (complete (k :: ds)) rws).
  set (q := fun r : row =>
    negb (isna (cell_at k r)) &&
    existsb (fun d => (1 <? nunique
       (map (cell_at d)
          (List.filter (fun r' => cell_eqb (cell_at k r') (cell_at k r)) rows1)))%nat) ds).
  exists (List.filter q rows1). split.
  - intros r. unfold rows1. rewrite !filter_In. unfold q.
    rewrite andb_true_iff, negb_true_iff. split.
    + intros [[Hr Hc] [_ Hv]]. repeat split; try assumption.
      apply (group_flagged (mkDataFrame cols rws) k ds r Hr Hc). exact Hv.
    + intros (Hr & Hc & Hv). repeat split; try assumption.
      * apply (complete_in (k :: ds)); [assumption | left; reflexivity].
      * apply (group_flagged (mkDataFrame cols rws) k ds r Hr Hc). exact Hv.
  - unfold detect_inconsistencies, copy, dropna. simpl.
    rewrite Hk, Hds. fold (complete (k :: ds)). fold rows1.
    unfold groupby_filter. simpl. rewrite Hk.
    rewrite (filter_rows_pure _ q).
    + unfold getitem_cols. simpl. rewrite Hk, Hds.
      f_equal. unfold drop_duplicates. simpl. f_equal.
      unfold duplicated. simpl. apply kept_first_occurrences.
    + intros r Hr. unfold q. destruct (isna (cell_at k r)); [reflexivity|]. simpl.
      apply (more_than_one_value_eval cols); [reflexivity | assumption].
Qed.

Lemma sort_values_empty cols col1 j :
  get_loc cols col1 = Some j ->
  sort_values (mkDataFrame cols []) col1 = Some (mkDataFrame cols []).
Proof. intros H. unfold sort_values. simpl. rewrite H. reflexivity. Qed.

Lemma tuple_eqb_in ds r1 r2 d :
  row_eqb (tuple ds r1) (tuple ds r2) = true -> In d ds ->
  cell_eqb (cell_at d r1) (cell_at d r2) = true.
Proof.
  induction ds as [|a ds IH]; simpl; [tauto|].
  rewrite andb_true_iff. intros [Ha Hds] [<- | Hd]; auto.
Qed.

(** C1: on a frame that has the key column and the dependent columns, the
    key not being one of the dependents and the key column holding values of
    one kind, [detect_inconsistencies] returns a frame of the (key,
    dependent...) columns whose rows are exactly the tuples of the rows that
    miss no value in these columns and whose key comes, among such rows, with
    two different values in one dependent column; no two rows of the result
    are equal, and the rows are in ascending order of the key. *)
Theorem detect_inconsistencies_spec (df : DataFrame) col1 col2 k ds :
  get_loc (columns df) col1 = Some k ->
  traverse (get_loc (columns df)) (as_list col2) = Some ds ->
  ~ In col1 (as_list col2) ->
  comparable (column_values k df) = true ->
  exists res,
    detect_inconsistencies df col1 col2 = Some res /\
    columns res = col1 :: as_list col2 /\
    (forall t, In t (rows res) ->
       exists r, In r (rows df) /\ complete (k :: ds) r = true /\
                 violates df k ds (cell_at k r) /\ t = tuple (k :: ds) r) /\
    (forall r, In r (rows df) -> complete (k :: ds) r = true ->
       violates df k ds (cell_at k r) ->
       exists t, In t (rows res) /\ row_eqb t (tuple (k :: ds) r) = true) /\
    (forall i j t1 t2, i <> j ->
       nth_error (rows res) i = Some t1 -> nth_error (rows res) j = Some t2 ->
       row_eqb t1 t2 = false) /\
    (forall i j t1 t2, (i <= j)%nat ->
       nth_error (rows res) i = Some t1 -> nth_error (rows res) j = Some t2 ->
       cell_leb (cell_at 0 t1) (cell_at 0 t2) = true).
Proof.
  intros Hk Hds Hnotin Hcmp.
  destruct (detect_inconsistencies_stages df col1 col2 k ds Hk Hds)
    as (kept & Hkept & Heq).
  set (found := first_occurrences row_eqb [] (map (tuple (k :: ds)) kept)) in *.
  assert (Hfound : forall t, In t found ->
            exists r, In r kept /\ t = tuple (k :: ds) r).
  { intros t Ht. apply (first_occurrences_in row_eqb) in Ht. destruct Ht as [Ht _].
    apply in_map_iff in Ht. destruct Ht as (r & <- & Hr). eauto. }
  exists (mkDataFrame (col1 :: as_list col2) (sort_rows 0 found)).
  split.
  { rewrite Heq. unfold sort_values. simpl columns.
    rewrite (get_loc_head col1 (as_list col2) Hnotin).
    assert (Hc : comparable (column_values 0 (mkDataFrame (col1 :: as_list col2) found))
                 = true).
    { apply comparable_spec. rewrite comparable_spec in Hcmp.
      assert (Hkey : forall x, In x (column_values 0 (mkDataFrame (col1 :: as_list col2) found))
                     -> In x (column_values k df)).
      { intros x Hx. unfold column_values in *. simpl in Hx.
        apply in_map_iff in Hx. destruct Hx as (t & <- & Ht).
        destruct (Hfound t Ht) as (r & Hr & ->).
        apply Hkept in Hr. apply in_map_iff. exists r. split; [reflexivity | tauto]. }
      intros x y Hx Hy. apply Hcmp; auto. }
    rewrite Hc. reflexivity. }
  split; [reflexivity|]. simpl rows.
  split.
  { intros t Ht. apply (Permutation_in _ (sort_rows_perm 0 found)) in Ht.
    destruct (Hfound t Ht) as (r & Hr & ->). apply Hkept in Hr.
    exists r. tauto. }
  split.
  { intros r Hr Hc Hv.
    assert (Hin : In (tuple (k :: ds) r) (map (tuple (k :: ds)) kept)).
    { apply in_map. apply Hkept. auto. }
    destruct (first_occurrences_cover row_eqb (map canon) row_eqb_canon [] _ _ Hin)
      as [H | (t & Ht & He)]; [discriminate|].
    exists t. split.
    - apply (Permutation_in _ (Permutation_sym (sort_rows_perm 0 found))). exact Ht.
    - rewrite row_eqb_sym. exact He. }
  split.
  { intros i j t1 t2 Hij H1 H2.
    apply (NoDup_keys_distinct row_eqb (map canon) row_eqb_canon (sort_rows 0 found) i j);
      try assumption.
    apply (Permutation_NoDup (l := map (map canon) found)).
    - apply Permutation_map. symmetry. apply sort_rows_perm.
    - apply first_occurrences_NoDup. apply row_eqb_canon. }
  intros i j t1 t2 Hij H1 H2. apply (sort_rows_ascending 0 found i j); assumption.
Qed.

(** A frame on which the key 10001 comes with two cities. *)
Lemma detect_inconsistencies_spec_witness :
  exists res,
    detect_inconsistencies
      (mkDataFrame ["Postal Code"; "City"]
         [[Int 10001; Str "Los Angeles"]; [Int 10001; Str "San Francisco"]])
      "Postal Code" (OneCol "City") = Some res /\
    rows res = [[Int 10001; Str "Los Angeles"]; [Int 10001; Str "San Francisco"]].
Proof.
  destruct (detect_inconsistencies_spec
              (mkDataFrame ["Postal Code"; "City"]
                 [[Int 10001; Str "Los Angeles"]; [Int 10001; Str "San Francisco"]])
              "Postal Code" (OneCol "City") 0%nat [1%nat])
    as (res & Hres & _).
  - reflexivity.
  - reflexivity.
  - simpl. intros [H | []]. discriminate.
  - reflexivity.
  - exists res. split; [exact Hres|].
    vm_compute in Hres. injection Hres as <-. reflexivity.
Defined.

(** C7: when, among the rows that miss no key or dependent value, rows with
    equal keys have equal dependent tuples, [detect_inconsistencies] returns
    normally and the frame it returns has no row. *)
Theorem detect_inconsistencies_consistent (df : DataFrame) col1 col2 k ds :
  get_loc (columns df) col1 = Some k ->
  traverse (get_loc (columns df)) (as_list col2) = Some ds ->
  ~ In col1 (as_list col2) ->
  (forall r1 r2, In r1 (rows df) -> In r2 (rows df) ->
     complete (k :: ds) r1 = true -> complete (k :: ds) r2 = true ->
     cell_eqb (cell_at k r1) (cell_at k r2) = true ->
     row_eqb (tuple ds r1) (tuple ds r2) = true) ->
  detect_inconsistencies df col1 col2 = Some (mkDataFrame (col1 :: as_list col2) []).
Proof.
  intros Hk Hds Hnotin Hfd.
  destruct (detect_inconsistencies_stages df col1 col2 k ds Hk Hds)
    as (kept & Hkept & ->).
  assert (Hnone : kept = []).
  { destruct kept as [|r kept']; [reflexivity|]. exfalso.
    destruct (proj1 (Hkept r) (or_introl eq_refl))
      as (_ & _ & d & r1 & r2 & Hd & Hr1 & Hr2 & Hc1 & Hc2 & Hk1 & Hk2 & Hne).
    assert (He : cell_eqb (cell_at k r1) (cell_at k r2) = true).
    { apply (cell_eqb_trans _ (cell_at k r)); [assumption|].
      rewrite cell_eqb_sym. assumption. }
    pose proof (tuple_eqb_in ds r1 r2 d (Hfd r1 r2 Hr1 Hr2 Hc1 Hc2 He) Hd).
    congruence. }
  rewrite Hnone. simpl.
  apply (sort_values_empty _ _ O). apply get_loc_head. assumption.
Qed.

Lemma detect_inconsistencies_consistent_witness :
  detect_inconsistencies
    (mkDataFrame ["Postal Code"; "City"]
       [[Int 10001; Str "Los Angeles"]; [Int 90001; Str "San Francisco"];
        [Int 10001; Str "Los Angeles"]; [Int 10001; NA]])
    "Postal Code" (OneCol "City")
  = Some (mkDataFrame ["Postal Code"; "City"] []).
Proof.
  refine (detect_inconsistencies_consistent
            (mkDataFrame ["Postal Code"; "City"]
               [[Int 10001; Str "Los Angeles"]; [Int 90001; Str "San Francisco"];
                [Int 10001; Str "Los Angeles"]; [Int 10001; NA]])
            "Postal Code" (OneCol "City") 0%nat [1%nat] _ _ _ _).
  - reflexivity.
  - reflexivity.
  - simpl. intros [H | []]. discriminate.
  - intros r1 r2 H1 H2. simpl in H1, H2.
    repeat match goal with
           | H : _ \/ _ |- _ => destruct H as [<- | H]
           | H : False |- _ => destruct H
           end; intros; try reflexivity; discriminate.
Defined.

(** ** The caller's frame *)

Lemma extends_refl h : extends h h.
Proof. intros l w H. exact H. Qed.

Lemma extends_trans h1 h2 h3 : extends h1 h2 -> extends h2 h3 -> extends h1 h3.
Proof. intros H1 H2 l w H. auto. Qed.

Lemma extends_insert h l v : h !! l = None -> extends h (<[l := v]> h).
Proof.
  intros Hl l' w H. destruct (decide (l = l')) as [->|Hne]; [congruence|].
  rewrite lookup_insert_ne by assumption. exact H.
Qed.

(** C10: [detect_inconsistencies], called on a reference to the caller's
    frame, leaves every object that existed before the call as it was, the
    caller's frame among them, whether it returns or raises; what it returns
    is a new object holding the frame computed from the caller's. *)
Theorem detect_inconsistencies_frame (h : gmap nat DataFrame) (df : nat)
    (v : DataFrame) col1 col2 :
  h !! df = Some v ->
  exists o h',
    detect_inconsistencies_obj df col1 col2 h = (o, h') /\
    h' !! df = Some v /\
    (forall l w, h !! l = Some w -> h' !! l = Some w) /\
    match o with
    | Returned res => h !! res = None /\
                      h' !! res = detect_inconsistencies v col1 col2 /\
                      is_Some (h' !! res)
    | Raised => detect_inconsistencies v col1 col2 = None
    end.
Proof.
  intros Hdf.
  assert (Hgoal : exists o h',
    detect_inconsistencies_obj df col1 col2 h = (o, h') /\
    extends h h' /\
    match o with
    | Returned res => h !! res = None /\
                      h' !! res = detect_inconsistencies v col1 col2 /\
                      is_Some (h' !! res)
    | Raised => detect_inconsistencies v col1 col2 = None
    end).
  2:{ destruct Hgoal as (o & h' & H1 & H2 & H3). exists o, h'. auto. }
  unfold detect_inconsistencies_obj, detect_inconsistencies, bind, load, lift, new_frame.
  cbv beta zeta. rewrite Hdf.
  assert (Hnew : forall (h0 : gmap nat DataFrame) a,
            extends h h0 -> extends h (<[fresh (dom h0) := a]> h0)).
  { intros h0 a E. apply (extends_trans _ h0); [assumption|].
    apply extends_insert. apply not_elem_of_dom. apply is_fresh. }
  pose proof (extends_refl h) as E0.
  rewrite lookup_insert_eq.
  apply (Hnew _ (copy v)) in E0. set (h1 := <[fresh (dom h) := copy v]> h) in *.
  destruct (dropna (copy v) (col1 :: as_list col2)) as [v2|];
    [|exists Raised, h1; auto].
  rewrite lookup_insert_eq.
  apply (Hnew _ v2) in E0. set (h2 := <[fresh (dom h1) := v2]> h1) in *.
  destruct (groupby_filter v2 col1 (more_than_one_value (as_list col2))) as [v3|];
    [|exists Raised, h2; auto].
  rewrite lookup_insert_eq.
  apply (Hnew _ v3) in E0. set (h3 := <[fresh (dom h2) := v3]> h2) in *.
  destruct (getitem_cols v3 (col1 :: as_list col2)) as [v4|];
    [|exists Raised, h3; auto].
  rewrite lookup_insert_eq.
  apply (Hnew _ v4) in E0. set (h4 := <[fresh (dom h3) := v4]> h3) in *.
  rewrite lookup_insert_eq.
  apply (Hnew _ (drop_duplicates v4)) in E0.
  set (h5 := <[fresh (dom h4) := drop_duplicates v4]> h4) in *.
  destruct (sort_values (drop_duplicates v4) col1) as [v6|];
    [|exists Raised, h5; auto].
  assert (H6 : h5 !! fresh (dom h5) = None) by (apply not_elem_of_dom; apply is_fresh).
  exists (Returned (fresh (dom h5))), (<[fresh (dom h5) := v6]> h5).
  split; [reflexivity|]. split; [apply Hnew; assumption|].
  rewrite lookup_insert_eq. split; [|split; [reflexivity | eexists; reflexivity]].
  destruct (h !! fresh (dom h5)) as [w|] eqn:Hw; [|reflexivity].
  apply E0 in Hw. congruence.
Qed.

Lemma detect_inconsistencies_frame_witness :
  let t := mkDataFrame ["Postal Code"; "City"]
             [[Int 10001; Str "Los Angeles"]; [Int 10001; Str "San Francisco"]] in
  exists o h',
    detect_inconsistencies_obj 0 "Postal Code" (OneCol "City") {[0%nat := t]} = (o, h') /\
    h' !! 0%nat = Some t.
Proof.
  intros t.
  destruct (detect_inconsistencies_frame {[0%nat := t]} 0 t "Postal Code" (OneCol "City"))
    as (o & h' & H1 & H2 & _).
  - reflexivity.
  - exists o, h'. split; assumption.
Defined.

(** ** Column labels *)

Lemma forall_ascii (P : ascii -> bool) :
  forallb P (map ascii_of_nat (seq 0 256)) = true -> forall c, P c = true.
Proof.
  intros H c. rewrite forallb_forall in H. apply H.
  rewrite <- (ascii_nat_embedding c). apply in_map. apply in_seq.
  pose proof (nat_ascii_bounded c). lia.
Qed.

Lemma fold_char_idem c : fold_char (fold_char c) = fold_char c.
Proof.
  apply Ascii.eqb_eq. revert c.
  apply (forall_ascii (fun c => Ascii.eqb (fold_char (fold_char c)) (fold_char c))).
  vm_compute. reflexivity.
Qed.

Lemma fold_char_not_space c : is_space c = false -> is_space (fold_char c) = false.
Proof.
  intros H. apply negb_true_iff.
  assert (Hc : is_space c || negb (is_space (fold_char c)) = true).
  { revert c H. intros c _. revert c.
    apply (forall_ascii (fun c => is_space c || negb (is_space (fold_char c)))).
    vm_compute. reflexivity. }
  rewrite H in Hc. exact Hc.
Qed.

Lemma str_map_map f g s : str_map f (str_map g s) = str_map (fun c => f (g c)) s.
Proof. induction s as [|c s IH]; simpl; [reflexivity | rewrite IH; reflexivity]. Qed.

Lemma str_map_ext f g s : (forall c, f c = g c) -> str_map f s = str_map g s.
Proof.
  intros H. induction s as [|c s IH]; simpl; [reflexivity | rewrite H, IH; reflexivity].
Qed.

Lemma standardize_fold s : standardize s = str_map fold_char (str_strip s).
Proof. unfold standardize, str_lower, str_replace. rewrite str_map_map. reflexivity. Qed.

Lemma str_lstrip_length s : (String.length (str_lstrip s) <= String.length s)%nat.
Proof.
  induction s as [|c s IH]; simpl; [lia|].
  destruct (is_space c); simpl; lia.
Qed.

(** A string that [lstrip] leaves alone is empty or starts with a character
    that is not white space. *)
Lemma str_lstrip_fixed s :
  str_lstrip s = s <->
  match s with EmptyString => True | String c _ => is_space c = false end.
Proof.
  destruct s as [|c s]; simpl; [tauto|].
  destruct (is_space c) eqn:Hc; split; intros H; try reflexivity; try discriminate.
  pose proof (str_lstrip_length s) as Hl. rewrite H in Hl. simpl in Hl. lia.
Qed.

Lemma str_lstrip_idem s : str_lstrip (str_lstrip s) = str_lstrip s.
Proof.
  induction s as [|c s IH]; simpl; [reflexivity|].
  destruct (is_space c) eqn:Hc; [assumption|]. simpl. rewrite Hc. reflexivity.
Qed.

Lemma str_rstrip_idem s : str_rstrip (str_rstrip s) = str_rstrip s.
Proof.
  induction s as [|c s IH]; simpl; [reflexivity|].
  destruct (str_rstrip s) as [|d t] eqn:Hs.
  - destruct (is_space c) eqn:Hc; simpl; [reflexivity|]. rewrite Hc. reflexivity.
  - simpl in *. rewrite IH. reflexivity.
Qed.

Lemma str_rstrip_head s :
  match s with
  | EmptyString => True
  | String c _ => is_space c = false ->
                  exists t, str_rstrip s = String c t
  end.
Proof.
  destruct s as [|c s]; simpl; [exact I|]. intros Hc.
  destruct (str_rstrip s); [rewrite Hc|]; eexists; reflexivity.
Qed.

Lemma str_strip_lstrip s : str_lstrip (str_strip s) = str_strip s.
Proof.
  unfold str_strip. pose proof (str_lstrip_idem s) as H.
  apply str_lstrip_fixed in H. apply str_lstrip_fixed.
  destruct (str_lstrip s) as [|c t] eqn:Hs; simpl; [exact I|].
  pose proof (str_rstrip_head (String c t)) as Hh. simpl in Hh.
  destruct (Hh H) as (u & Hu). simpl. rewrite Hu. exact H.
Qed.

Lemma str_strip_rstrip s : str_rstrip (str_strip s) = str_strip s.
Proof. apply str_rstrip_idem. Qed.

Lemma str_lstrip_fold s :
  str_lstrip s = s -> str_lstrip (str_map fold_char s) = str_map fold_char s.
Proof.
  intros H. apply str_lstrip_fixed in H. apply str_lstrip_fixed.
  destruct s as [|c s]; simpl; [exact I|]. apply fold_char_not_space. exact H.
Qed.

Lemma str_rstrip_fold s :
  str_rstrip s = s -> str_rstrip (str_map fold_char s) = str_map fold_char s.
Proof.
  induction s as [|c s IH]; simpl; [reflexivity|].
  destruct (str_rstrip s) as [|d t] eqn:Hs.
  - destruct (is_space c) eqn:Hc; [discriminate|]. intros [= <-]. simpl.
    rewrite (fold_char_not_space c Hc). reflexivity.
  - intros [= <-]. rewrite IH by reflexivity. reflexivity.
Qed.

Lemma standardize_idem s : standardize (standardize s) = standardize s.
Proof.
  rewrite !standardize_fold.
  assert (Hs : str_strip (str_map fold_char (str_strip s)) = str_map fold_char (str_strip s)).
  { unfold str_strip at 1.
    rewrite (str_lstrip_fold _ (str_strip_lstrip s)).
    apply str_rstrip_fold. apply str_strip_rstrip. }
  rewrite Hs, str_map_map. apply str_map_ext. apply fold_char_idem.
Qed.

(** C6: normalising the column labels of a frame twice gives the labels
    that normalising them once gives. *)
Theorem standardize_columns_idempotent (names : list string) (df : DataFrame) :
  map standardize (map standardize names) = map standardize names /\
  standardize_columns (standardize_columns df) = standardize_columns df.
Proof.
  assert (H : forall l, map standardize (map standardize l) = map standardize l).
  { intros l. rewrite map_map. apply map_ext. apply standardize_idem. }
  split; [apply H|]. unfold standardize_columns. simpl. rewrite H. reflexivity.
Qed.

(** ** Assignment to a column *)

Lemma nth_error_combine {A B : Type} (l1 : list A) (l2 : list B) i a b :
  nth_error l1 i = Some a -> nth_error l2 i = Some b ->
  nth_error (combine l1 l2) i = Some (a, b).
Proof.
  revert l2 i. induction l1 as [|x l1 IH]; intros [|y l2] [|i]; simpl;
    try discriminate; [congruence | apply IH].
Qed.

Lemma label_in_spec name cols : label_in name cols = true <-> In name cols.
Proof.
  unfold label_in. rewrite existsb_exists. split.
  - intros (c & Hc & He). apply String.eqb_eq in He. subst. assumption.
  - intros H. exists name. split; [assumption | apply String.eqb_refl].
Qed.

Lemma setitem_length df name vals :
  length vals = length (rows df) ->
  length (rows (setitem df name vals)) = length (rows df).
Proof.
  intros H. unfold setitem.
  destruct (label_in name (columns df)); simpl;
    rewrite length_map, length_combine; lia.
Qed.

Lemma setitem_cell df name vals i r v j c :
  length r = length (columns df) ->
  nth_error (rows df) i = Some r ->
  nth_error vals i = Some v ->
  nth_error (columns (setitem df name vals)) j = Some c ->
  exists r',
    nth_error (rows (setitem df name vals)) i = Some r' /\
    length r' = length (columns (setitem df name vals)) /\
    cell_at j r' = if String.eqb c name then v else cell_at j r.
Proof.
  intros Hlen Hr Hv Hc. unfold setitem in *.
  pose proof (@nth_error_combine row cell _ _ i r v Hr Hv) as Hrv.
  destruct (label_in name (columns df)) eqn:Hin; simpl in *.
  - eexists. split; [rewrite nth_error_map, Hrv; reflexivity|]. simpl.
    split; [rewrite length_map, length_combine; lia|].
    assert (Hj : (j < length r)%nat).
    { rewrite Hlen. apply nth_error_Some. congruence. }
    destruct (nth_error r j) as [x|] eqn:Hx; [|apply nth_error_None in Hx; lia].
    unfold cell_at. rewrite (nth_error_nth r j NA Hx).
    apply nth_error_nth.
    rewrite nth_error_map, (nth_error_combine _ _ j c x Hc Hx). reflexivity.
  - eexists. split; [rewrite nth_error_map, Hrv; reflexivity|]. simpl.
    split; [rewrite !length_app, Hlen; reflexivity|].
    assert (Hnot : ~ In name (columns df)).
    { rewrite <- label_in_spec. congruence. }
    unfold cell_at.
    destruct (Nat.lt_ge_cases j (length (columns df))) as [Hj | Hj].
    + rewrite nth_error_app1 in Hc by assumption.
      rewrite app_nth1 by lia.
      destruct (String.eqb_spec c name) as [-> | _]; [|reflexivity].
      exfalso. apply Hnot. eapply nth_error_In. eassumption.
    + rewrite nth_error_app2 in Hc by assumption.
      destruct (j - length (columns df))%nat as [|n] eqn:Hn; simpl in Hc;
        [|destruct n; discriminate].
      injection Hc as <-. rewrite String.eqb_refl.
      rewrite app_nth2 by lia. replace (j - length r)%nat with O by lia. reflexivity.
Qed.

(** ** float64 facts *)

Lemma shr_1_nonneg mrs : 0 <= shr_m mrs -> 0 <= shr_m (shr_1 mrs).
Proof.
  destruct mrs as [m r s]. simpl. destruct m as [|[p|p|]|[p|p|]]; simpl; lia.
Qed.

Lemma iter_shr_1_nonneg p mrs :
  0 <= shr_m mrs -> 0 <= shr_m (SpecFloat.iter_pos shr_1 p mrs).
Proof.
  revert mrs. induction p as [p IH|p IH|]; intros mrs H; simpl.
  - apply IH, IH, shr_1_nonneg, H.
  - apply IH, IH, H.
  - apply shr_1_nonneg, H.
Qed.

Lemma shr_fexp_nonneg prec emax m e l :
  0 <= m -> 0 <= shr_m (fst (shr_fexp prec emax m e l)).
Proof.
  intros H. unfold shr_fexp, shr.
  assert (H0 : 0 <= shr_m (shr_record_of_loc m l)).
  { destruct l as [|[]]; simpl; assumption. }
  destruct (fexp prec emax (Zdigits2 m + e) - e); simpl; try assumption.
  apply iter_shr_1_nonneg. assumption.
Qed.

Lemma round_nearest_even_nonneg m l : 0 <= m -> 0 <= round_nearest_even m l.
Proof.
  intros H. unfold round_nearest_even.
  destruct l as [|[]]; try assumption; [destruct (Z.even m)|]; lia.
Qed.

Lemma binary_round_aux_not_nan prec emax s m e l :
  0 <= m -> Float64.is_nan (binary_round_aux prec emax s m e l) = false.
Proof.
  intros H. unfold binary_round_aux.
  pose proof (shr_fexp_nonneg prec emax m e l H) as H1.
  destruct (shr_fexp prec emax m e l) as [mrs' e']. simpl in H1.
  pose proof (shr_fexp_nonneg prec emax
                (round_nearest_even (shr_m mrs') (loc_of_shr_record mrs')) e' loc_Exact
                (round_nearest_even_nonneg _ _ H1)) as H2.
  destruct (shr_fexp prec emax _ e' loc_Exact) as [mrs'' e'']. simpl in H2.
  destruct (shr_m mrs'') as [|q|q]; [reflexivity | | lia].
  destruct (e'' <=? emax - prec)%Z; reflexivity.
Qed.

Lemma div_finite_not_nan p s :
  Float64.is_finite p = true -> Float64.is_finite s = true ->
  Float64.is_zero p && Float64.is_zero s = false ->
  Float64.is_nan (Float64.div p s) = false.
Proof.
  destruct p as [sp|sp| |sp mp ep], s as [ss|ss| |ss ms es]; simpl;
    try discriminate; try reflexivity; intros _ _ _.
  unfold Float64.div, SFdiv.
  destruct (SFdiv_core_binary Float64.prec Float64.emax (Z.pos mp) ep (Z.pos ms) es)
    as [[mz ez] lz] eqn:Hd.
  apply binary_round_aux_not_nan.
  unfold SFdiv_core_binary in Hd.
  set (m' := match _ - _ - _ with Z0 => Z.pos mp | Z.pos _ => _ | Z.neg _ => 0 end) in Hd.
  assert (Hm : 0 <= m').
  { unfold m'. destruct (ep - es - _); try lia. apply Z.shiftl_nonneg. lia. }
  pose proof (Z.div_pos m' (Z.pos ms) Hm ltac:(lia)) as Hq.
  unfold Z.div in Hq. destruct (Z.div_eucl m' (Z.pos ms)) as [q r].
  injection Hd as <- _ _. exact Hq.
Qed.

(** The value of the KPI for one row. *)
Lemma replace_inf_div p s :
  let m := replace_inf (Float64.div p s) in
  Float64.is_inf m = false /\
  (Float64.is_inf (Float64.div p s) = false -> m = Float64.div p s) /\
  (Float64.is_zero s = true -> Float64.is_nan p = false -> Float64.is_zero p = false ->
   m = Float64.zero) /\
  (Float64.is_finite p = true -> Float64.is_finite s = true ->
   Float64.is_zero p && Float64.is_zero s = false ->
   Float64.is_finite m = true) /\
  (Float64.is_nan p || Float64.is_nan s = true -> Float64.is_nan m = true).
Proof.
  cbv zeta. unfold replace_inf. split; [|split; [|split; [|split]]].
  - destruct (Float64.is_inf (Float64.div p s)) eqn:H; [reflexivity | assumption].
  - intros ->. reflexivity.
  - destruct p as [sp|sp| |sp mp ep], s as [ss|ss| |ss ms es]; simpl;
      try discriminate; reflexivity.
  - intros Hp Hs Hz. pose proof (div_finite_not_nan p s Hp Hs Hz) as Hn.
    unfold Float64.is_finite.
    destruct (Float64.is_inf (Float64.div p s)) eqn:H; [reflexivity|].
    rewrite Hn, H. reflexivity.
  - destruct p as [sp|sp| |sp mp ep], s as [ss|ss| |ss ms es]; simpl;
      try discriminate; reflexivity.
Qed.

Lemma Forall2_nth_error {A B : Type} (R : A -> B -> Prop) l l' i a :
  Forall2 R l l' -> nth_error l i = Some a ->
  exists b, nth_error l' i = Some b /\ R a b.
Proof.
  intros H. revert i. induction H as [|x y l l' Hxy _ IH]; intros [|i]; simpl;
    try discriminate.
  - intros [= <-]. eauto.
  - apply IH.
Qed.

Lemma traverse_total {A B : Type} (f : A -> option B) l :
  (forall a, In a l -> f a <> None) -> exists bs, traverse f l = Some bs.
Proof.
  induction l as [|a l IH]; simpl; intros H; [eauto|].
  destruct (f a) as [b|] eqn:Ha; [|exfalso; apply (H a); auto].
  destruct IH as (bs & ->); [auto|]. eauto.
Qed.

Lemma profit_margin_total profit sales :
  to_float64 profit <> None -> to_float64 sales <> None ->
  profit_margin profit sales <> None.
Proof.
  unfold profit_margin. destruct (to_float64 profit), (to_float64 sales); congruence.
Qed.

(** C2, as the script has it: on a frame with numeric Profit and Sales
    columns the KPI step adds a Profit_Margin column, one value per row,
    which is the float64 quotient profit / sales with an infinite quotient
    replaced by 0.  No value is infinite; the value is the quotient itself
    whenever the quotient is not infinite; it is 0 on a row whose sales are 0
    and whose profit is neither missing nor 0; it is finite when profit and
    sales are finite and not both 0; and it is missing when profit or sales
    is missing. *)
Theorem profit_margin_spec (df : DataFrame) jp js :
  get_loc (columns df) "Profit" = Some jp ->
  get_loc (columns df) "Sales" = Some js ->
  numeric_at jp df -> numeric_at js df -> rectangular df ->
  exists df',
    add_profit_margin df = Some df' /\
    length (rows df') = length (rows df) /\
    In "Profit_Margin" (columns df') /\
    forall jm i r,
      nth_error (columns df') jm = Some "Profit_Margin" ->
      nth_error (rows df) i = Some r ->
      exists r' p s,
        nth_error (rows df') i = Some r' /\
        to_float64 (cell_at jp r) = Some p /\
        to_float64 (cell_at js r) = Some s /\
        let m := replace_inf (Float64.div p s) in
        cell_at jm r' = Float m /\
        Float64.is_inf m = false /\
        (Float64.is_inf (Float64.div p s) = false -> m = Float64.div p s) /\
        (Float64.is_zero s = true -> Float64.is_nan p = false ->
         Float64.is_zero p = false -> m = Float64.zero) /\
        (Float64.is_finite p = true -> Float64.is_finite s = true ->
         Float64.is_zero p && Float64.is_zero s = false ->
         Float64.is_finite m = true) /\
        (Float64.is_nan p || Float64.is_nan s = true -> Float64.is_nan m = true).
Proof.
  intros Hp Hs Hnp Hns Hrect. unfold add_profit_margin. rewrite Hp, Hs.
  unfold numeric_at, rectangular in *. rewrite List.Forall_forall in Hnp, Hns, Hrect.
  destruct (traverse_total
              (fun r => profit_margin (cell_at jp r) (cell_at js r)) (rows df))
    as (vals & Hvals).
  { intros r Hr. apply profit_margin_total; auto. }
  rewrite Hvals. eexists. split; [reflexivity|].
  pose proof (traverse_length _ _ _ Hvals) as Hlen.
  split; [apply setitem_length; assumption|].
  split.
  { unfold setitem. destruct (label_in "Profit_Margin" (columns df)) eqn:Hin; simpl.
    - apply label_in_spec. assumption.
    - apply in_or_app. right. left. reflexivity. }
  intros jm i r Hjm Hr.
  destruct (Forall2_nth_error _ _ _ i r (traverse_Forall2 _ _ _ Hvals) Hr)
    as (v & Hv & Hrv).
  unfold profit_margin in Hrv.
  destruct (to_float64 (cell_at jp r)) as [p|] eqn:Ep; [|discriminate].
  destruct (to_float64 (cell_at js r)) as [s|] eqn:Es; [|discriminate].
  injection Hrv as <-.
  destruct (setitem_cell df "Profit_Margin" vals i r _ jm "Profit_Margin"
              (Hrect r (nth_error_In _ _ Hr)) Hr Hv Hjm) as (r' & Hr' & _ & Hcell).
  rewrite String.eqb_refl in Hcell.
  exists r', p, s. repeat split; try assumption; apply (replace_inf_div p s).
Qed.

(** The rows profit = 25, sales = 100 and profit = 5, sales = 0. *)
Lemma profit_margin_spec_witness :
  exists df',
    add_profit_margin (mkDataFrame ["Profit"; "Sales"] [[Int 25; Int 100]; [Int 5; Int 0]])
    = Some df' /\
    rows df' =
    [[Int 25; Int 100; Float (S754_finite false 4503599627370496 (-54))];
     [Int 5; Int 0; Float (S754_zero false)]].
Proof.
  destruct (profit_margin_spec
              (mkDataFrame ["Profit"; "Sales"] [[Int 25; Int 100]; [Int 5; Int 0]])
              0%nat 1%nat) as (df' & Hdf' & _).
  - reflexivity.
  - reflexivity.
  - repeat constructor; discriminate.
  - repeat constructor; discriminate.
  - repeat constructor.
  - exists df'. split; [exact Hdf'|].
    vm_compute in Hdf'. injection Hdf' as <-. reflexivity.
Defined.

(** A row whose sales are 0 and whose profit is missing: the margin is
    missing as well, it is not 0. *)
Lemma profit_margin_of_missing_profit :
  add_profit_margin
    (mkDataFrame ["Profit"; "Sales"] [[Float S754_nan; Float (S754_zero false)]])
  = Some (mkDataFrame ["Profit"; "Sales"; "Profit_Margin"]
            [[Float S754_nan; Float (S754_zero false); Float S754_nan]]) /\
  Float64.is_finite S754_nan = false /\
  Float64.eqb S754_nan Float64.zero = false.
Proof. vm_compute. auto. Qed.

(** 0 / 0 is NaN, and NaN is not among the values that are replaced. *)
Lemma profit_margin_zero_by_zero :
  profit_margin (Int 0) (Int 0) = Some (Float S754_nan) /\
  profit_margin (Float (S754_zero false)) (Float (S754_zero false)) = Some (Float S754_nan).
Proof. vm_compute. auto. Qed.

(** ** Running the stages *)

Lemma bind_returned {S A B : Type} (m : Eff S A) (k : A -> Eff S B) st a st' :
  m st = (Returned a, st') -> bind m k st = k a st'.
Proof. intros H. unfold bind. rewrite H. reflexivity. Qed.

Section Stages.

Context {P : Platform}.

Lemma log_message_returns logger message st :
  log_message logger message st =
  (Returned tt,
   mkState
     (<[txt_path logger :=
          default EmptyString (fs st !! txt_path logger)
          +:+ (now_hms (clock st) +:+ " | " +:+ message +:+ nl)]> (fs st))
     (stdout st ++ [message]) (S (clock st)) (doc st ++ [Paragraph message])).
Proof. reflexivity. Qed.

End Stages.

(** ** Positions of labels *)

Lemma index_of_nth name cols j :
  index_of name cols = Some j ->
  nth_error cols j = Some name /\
  forall j', (j' < j)%nat -> nth_error cols j' <> Some name.
Proof.
  revert j. induction cols as [|c cols IH]; simpl; intros j H; [discriminate|].
  destruct (String.eqb_spec c name) as [-> | Hne].
  - injection H as <-. split; [reflexivity | intros j' Hj'; lia].
  - destruct (index_of name cols) as [i|]; [|discriminate]. injection H as <-.
    destruct (IH i eq_refl) as [H1 H2]. split; [assumption|].
    intros [|j'] Hj'; simpl; [congruence | apply H2; lia].
Qed.

Lemma count_occ_one_unique cols name j j' :
  count_occ string_dec cols name = 1%nat ->
  nth_error cols j = Some name -> nth_error cols j' = Some name -> j = j'.
Proof.
  revert j j'. induction cols as [|c cols IH]; intros j j' Hc Hj Hj'.
  - destruct j; discriminate.
  - simpl in Hc. destruct (string_dec c name) as [-> | Hne].
    + assert (Hzero : ~ In name cols).
      { apply (count_occ_not_In string_dec). lia. }
      destruct j as [|j], j' as [|j']; simpl in *; try reflexivity;
        exfalso; apply Hzero; eapply nth_error_In; eassumption.
    + destruct j as [|j], j' as [|j']; simpl in *; try congruence.
      f_equal. apply IH; assumption.
Qed.

Lemma get_loc_spec cols name j :
  get_loc cols name = Some j ->
  nth_error cols j = Some name /\
  forall j', nth_error cols j' = Some name -> j' = j.
Proof.
  unfold get_loc. destruct (Nat.eqb_spec (count_occ string_dec cols name) 1);
    [|discriminate].
  intros H. apply index_of_nth in H. destruct H as [H _]. split; [assumption|].
  intros j' Hj'. eapply count_occ_one_unique; eassumption.
Qed.

Lemma index_of_in name cols : In name cols -> exists j, index_of name cols = Some j.
Proof.
  induction cols as [|c cols IH]; simpl; [tauto|]. intros H.
  destruct (String.eqb_spec c name) as [-> | Hne]; [eauto|].
  destruct H as [H | H]; [congruence|].
  destruct (IH H) as (j & ->). eauto.
Qed.

Lemma get_loc_NoDup cols name :
  List.NoDup cols -> In name cols -> exists j, get_loc cols name = Some j.
Proof.
  intros Hnd Hin. unfold get_loc.
  rewrite (proj1 (NoDup_count_occ' string_dec cols) Hnd name Hin). simpl.
  apply index_of_in. assumption.
Qed.

(** ** Assignment to an existing column *)

Lemma column_values_nth j df i r :
  nth_error (rows df) i = Some r ->
  nth_error (column_values j df) i = Some (cell_at j r).
Proof. intros H. unfold column_values. rewrite nth_error_map, H. reflexivity. Qed.

Lemma setitem_existing df name vals j :
  rectangular df -> length vals = length (rows df) ->
  get_loc (columns df) name = Some j ->
  columns (setitem df name vals) = columns df /\
  rectangular (setitem df name vals) /\
  length (rows (setitem df name vals)) = length (rows df) /\
  forall j' c, nth_error (columns df) j' = Some c ->
    column_values j' (setitem df name vals) =
    if String.eqb c name then vals else column_values j' df.
Proof.
  intros Hrect Hlen Hloc. apply get_loc_spec in Hloc. destruct Hloc as [Hj Huniq].
  assert (Hin : label_in name (columns df) = true).
  { apply label_in_spec. eapply nth_error_In. eassumption. }
  assert (Hcols : columns (setitem df name vals) = columns df).
  { unfold setitem. rewrite Hin. reflexivity. }
  pose proof (setitem_length df name vals Hlen) as Hlen'.
  unfold rectangular in *. rewrite List.Forall_forall in Hrect.
  assert (Hrow : forall i r', nth_error (rows (setitem df name vals)) i = Some r' ->
            exists r v, nth_error (rows df) i = Some r /\ nth_error vals i = Some v /\
                        length r = length (columns df)).
  { intros i r' Hr'.
    assert (Hi : (i < length (rows df))%nat).
    { rewrite <- Hlen'. apply nth_error_Some. congruence. }
    destruct (nth_error (rows df) i) as [r|] eqn:Hr; [|apply nth_error_None in Hr; lia].
    destruct (nth_error vals i) as [v|] eqn:Hv; [|apply nth_error_None in Hv; lia].
    exists r, v. repeat split. apply Hrect. eapply nth_error_In. eassumption. }
  split; [assumption|]. split; [|split; [assumption|]].
  - apply List.Forall_forall. intros r' Hr'. apply In_nth_error in Hr'.
    destruct Hr' as (i & Hr'). destruct (Hrow i r' Hr') as (r & v & Hr & Hv & Hl).
    destruct (setitem_cell df name vals i r v j name Hl Hr Hv) as (r2 & Hr2 & Hl2 & _).
    { rewrite Hcols. assumption. }
    congruence.
  - intros j' c Hc. apply nth_error_ext. intros i.
    destruct (nth_error (rows (setitem df name vals)) i) as [r'|] eqn:Hr'.
    + destruct (Hrow i r' Hr') as (r & v & Hr & Hv & Hl).
      destruct (setitem_cell df name vals i r v j' c Hl Hr Hv) as (r2 & Hr2 & _ & Hcell).
      { rewrite Hcols. assumption. }
      rewrite (column_values_nth _ _ _ _ Hr'). rewrite Hr' in Hr2. injection Hr2 as <-.
      rewrite Hcell. destruct (String.eqb c name); [congruence|].
      rewrite (column_values_nth _ _ _ _ Hr). reflexivity.
    + assert (Hi : (length (rows df) <= i)%nat).
      { rewrite <- Hlen'. apply nth_error_None. assumption. }
      replace (nth_error (column_values j' (setitem df name vals)) i) with (@None cell).
      2:{ symmetry. apply nth_error_None. unfold column_values. rewrite length_map. lia. }
      symmetry. apply nth_error_None.
      destruct (String.eqb c name); [lia|]. unfold column_values. rewrite length_map. lia.
Qed.

Lemma column_values_length j df : length (column_values j df) = length (rows df).
Proof. unfold column_values. apply length_map. Qed.

(** ** Imputation *)

Section Imputation.

Context {P : Platform}.

(** The loop over the numeric columns: a column of the list that has a
    missing value is filled with its median, every other column is left as
    it is. *)
Lemma impute_columns logger cols : forall df st,
  List.NoDup (columns df) -> rectangular df -> List.NoDup cols ->
  (forall c, In c cols -> In c (columns df)) ->
  exists df' st',
    impute logger cols df st = (Returned df', st') /\
    columns df' = columns df /\ rectangular df' /\
    length (rows df') = length (rows df) /\
    forall j c, nth_error (columns df) j = Some c ->
      column_values j df' =
      if label_in c cols
      then if existsb isna (column_values j df)
           then fillna (median (column_values j df)) (column_values j df)
           else column_values j df
      else column_values j df.
Proof.
  induction cols as [|col cols IH]; intros df st Hnd Hrect Hcols Hsub.
  - exists df, st. simpl. repeat split; auto.
  - inversion Hcols as [|? ? Hnotin Hcols']. subst.
    destruct (get_loc_NoDup (columns df) col Hnd (Hsub col (or_introl eq_refl)))
      as (j0 & Hloc).
    destruct (get_loc_spec _ _ _ Hloc) as [Hj0 Huniq].
    simpl. rewrite (bind_returned _ _ st j0 st) by (unfold lift; rewrite Hloc; reflexivity).
    destruct (existsb isna (column_values j0 df)) eqn:Hna.
    + set (vals := fillna (median (column_values j0 df)) (column_values j0 df)).
      assert (Hlen : length vals = length (rows df)).
      { unfold vals, fillna. rewrite length_map. apply column_values_length. }
      destruct (setitem_existing df col vals j0 Hrect Hlen Hloc)
        as (Hc1 & Hr1 & Hl1 & Hv1).
      rewrite (bind_returned _ _ _ tt _ (log_message_returns _ _ _)).
      match goal with
      | |- context [impute logger cols ?d ?s] =>
          destruct (IH d s) as (df' & st' & Hrun & Hc' & Hr' & Hl' & Hv')
      end.
      { rewrite Hc1. assumption. }
      { assumption. }
      { assumption. }
      { intros c Hc. rewrite Hc1. apply Hsub. right. assumption. }
      exists df', st'. split; [exact Hrun|].
      split; [congruence|]. split; [assumption|]. split; [congruence|].
      intros j c Hc. rewrite (Hv' j c) by (rewrite Hc1; assumption).
      rewrite (Hv1 j c Hc). simpl label_in.
      destruct (String.eqb_spec c col) as [-> | Hne]; simpl.
      * assert (j = j0) by auto. subst j.
        assert (label_in col cols = false) as ->.
        { destruct (label_in col cols) eqn:Hin; [|reflexivity].
          apply label_in_spec in Hin. contradiction. }
        rewrite Hna. reflexivity.
      * reflexivity.
    + destruct (IH df st Hnd Hrect Hcols') as (df' & st' & Hrun & Hc' & Hr' & Hl' & Hv').
      { intros c Hc. apply Hsub. right. assumption. }
      exists df', st'. split; [exact Hrun|]. repeat split; try assumption.
      intros j c Hc. rewrite (Hv' j c Hc). simpl label_in.
      destruct (String.eqb_spec c col) as [-> | Hne]; simpl; [|reflexivity].
      assert (j = j0) by auto. subst j.
      assert (label_in col cols = false) as ->.
      { destruct (label_in col cols) eqn:Hin; [|reflexivity].
        apply label_in_spec in Hin. contradiction. }
      rewrite Hna. reflexivity.
Qed.

End Imputation.

(** ** The numeric columns *)

Lemma in_combine_seq {A : Type} (l : list A) s c j :
  In (c, j) (combine l (seq s (length l))) <->
  (s <= j)%nat /\ nth_error l (j - s) = Some c.
Proof.
  revert s. induction l as [|a l IH]; intros s; simpl.
  - split; [tauto|]. intros [_ H]. destruct (j - s)%nat; discriminate.
  - rewrite IH. split.
    + intros [[= -> ->] | [Hle Hn]].
      * split; [lia|]. rewrite Nat.sub_diag. reflexivity.
      * split; [lia|]. replace (j - s)%nat with (S (j - S s)) by lia. exact Hn.
    + intros [Hle Hn]. destruct (j - s)%nat as [|n] eqn:Hjs; simpl in Hn.
      * left. injection Hn as ->. f_equal. lia.
      * right. split; [lia|]. replace (j - S s)%nat with n by lia. exact Hn.
Qed.

Lemma select_number_columns_in df c :
  In c (select_number_columns df) <->
  exists j, nth_error (columns df) j = Some c /\
            is_number_dtype (column_values j df) = true.
Proof.
  unfold select_number_columns. rewrite in_map_iff. split.
  - intros ([c' j] & <- & H). apply filter_In in H. destruct H as [H Hn].
    apply in_combine_seq in H. destruct H as [_ H]. rewrite Nat.sub_0_r in H.
    exists j. auto.
  - intros (j & Hj & Hn). exists (c, j). split; [reflexivity|].
    apply filter_In. split; [|exact Hn].
    apply in_combine_seq. rewrite Nat.sub_0_r. split; [lia | assumption].
Qed.

Lemma NoDup_map_fst_filter {A B : Type} (f : A * B -> bool) (l : list A) (l' : list B) :
  List.NoDup l -> List.NoDup (map fst (List.filter f (combine l l'))).
Proof.
  revert l'. induction l as [|a l IH]; intros l' Hnd; simpl; [constructor|].
  destruct l' as [|b l']; simpl; [constructor|].
  inversion Hnd as [|? ? Hnotin Hnd']. subst.
  destruct (f (a, b)); simpl; [|apply IH; assumption].
  constructor; [|apply IH; assumption].
  intros Hin. apply in_map_iff in Hin. destruct Hin as ([a' b'] & Ha & Hin).
  simpl in Ha. subst a'. apply filter_In in Hin. destruct Hin as [Hin _].
  apply in_combine_l in Hin. contradiction.
Qed.

(** C3, as the script has it: a numeric column that has missing values and
    whose median over the values present is a number has no missing value
    after the imputation pass; the cells that were missing hold that median,
    computed on the frame the pass receives, and the other cells are as
    before. *)
Theorem impute_spec {P : Platform} (logger : AnalysisLogger) (df : DataFrame)
    (st : state) j col :
  List.NoDup (columns df) -> rectangular df ->
  nth_error (columns df) j = Some col ->
  is_number_dtype (column_values j df) = true ->
  existsb isna (column_values j df) = true ->
  Float64.is_nan (median (column_values j df)) = false ->
  exists df' st',
    impute logger (select_number_columns df) df st = (Returned df', st') /\
    columns df' = columns df /\
    length (rows df') = length (rows df) /\
    existsb isna (column_values j df') = false /\
    forall i c, nth_error (column_values j df) i = Some c ->
      nth_error (column_values j df') i =
      Some (if isna c then Float (median (column_values j df)) else c).
Proof.
  intros Hnd Hrect Hj Hnum Hna Hmed.
  destruct (impute_columns logger (select_number_columns df) df st Hnd Hrect)
    as (df' & st' & Hrun & Hc & _ & Hl & Hv).
  { apply NoDup_map_fst_filter. assumption. }
  { intros c Hc. apply select_number_columns_in in Hc. destruct Hc as (j' & Hj' & _).
    eapply nth_error_In. eassumption. }
  exists df', st'. split; [exact Hrun|]. split; [exact Hc|]. split; [exact Hl|].
  rewrite (Hv j col Hj).
  assert (label_in col (select_number_columns df) = true) as ->.
  { apply label_in_spec. apply select_number_columns_in. eauto. }
  rewrite Hna. unfold fillna. split.
  - apply not_true_is_false. intros H. apply existsb_exists in H.
    destruct H as (x & Hx & Hxna). apply in_map_iff in Hx.
    destruct Hx as (c & <- & _). destruct (isna c) eqn:Hc'; simpl in Hxna; congruence.
  - intros i c Hi. rewrite nth_error_map, Hi. reflexivity.
Qed.

(** The column [1, 3, missing, 7]. *)
Lemma impute_spec_witness :
  let df := mkDataFrame ["x"]
              [[Float (Float64.of_Z 1)]; [Float (Float64.of_Z 3)];
               [Float Float64.nan]; [Float (Float64.of_Z 7)]] in
  exists df' st',
    impute (P := sample_platform) sample_logger (select_number_columns df) df empty_state
    = (Returned df', st') /\
    rows df' = [[Float (Float64.of_Z 1)]; [Float (Float64.of_Z 3)];
                [Float (Float64.of_Z 3)]; [Float (Float64.of_Z 7)]].
Proof.
  intros df.
  destruct (impute_spec (P := sample_platform) sample_logger df empty_state 0 "x")
    as (df' & st' & Hrun & _ & _ & _ & Hv).
  - repeat constructor. simpl. tauto.
  - repeat constructor.
  - reflexivity.
  - reflexivity.
  - reflexivity.
  - reflexivity.
  - exists df', st'. split; [exact Hrun|].
    vm_compute in Hrun. injection Hrun as <- _. reflexivity.
Defined.

(** A numeric column with no value at all: its median is NaN, and the column
    is as it was after the pass. *)
Lemma impute_all_missing :
  let df := mkDataFrame ["x"] [[Float Float64.nan]; [Float Float64.nan]] in
  is_number_dtype (column_values 0 df) = true /\
  existsb isna (column_values 0 df) = true /\
  exists df' st',
    impute (P := sample_platform) sample_logger (select_number_columns df) df empty_state
    = (Returned df', st') /\
    existsb isna (column_values 0 df') = true.
Proof.
  cbv zeta. split; [reflexivity|]. split; [reflexivity|].
  eexists. eexists. split; [vm_compute; reflexivity | reflexivity].
Qed.

(** ** Dates *)

Section Dates.

Context {P : Platform}.

Lemma to_datetime_length vals : length (to_datetime vals) = length vals.
Proof. unfold to_datetime. apply length_map. Qed.

Lemma handle_dates_columns logger cols : forall df st,
  List.NoDup (columns df) -> rectangular df -> List.NoDup cols ->
  exists df' st',
    handle_dates logger cols df st = (Returned df', st') /\
    columns df' = columns df /\ rectangular df' /\
    length (rows df') = length (rows df) /\
    forall j c, nth_error (columns df) j = Some c ->
      column_values j df' =
      if label_in c cols then to_datetime (column_values j df)
      else column_values j df.
Proof.
  induction cols as [|col cols IH]; intros df st Hnd Hrect Hcols.
  - exists df, st. simpl. repeat split; auto.
  - inversion Hcols as [|? ? Hnotin Hcols']. subst.
    assert (Hfalse : label_in col cols = false).
    { destruct (label_in col cols) eqn:Hin; [|reflexivity].
      apply label_in_spec in Hin. contradiction. }
    simpl. destruct (label_in col (columns df)) eqn:Hin.
    + apply label_in_spec in Hin.
      destruct (get_loc_NoDup (columns df) col Hnd Hin) as (j0 & Hloc).
      destruct (get_loc_spec _ _ _ Hloc) as [Hj0 Huniq].
      rewrite (bind_returned _ _ st j0 st) by (unfold lift; rewrite Hloc; reflexivity).
      set (vals := to_datetime (column_values j0 df)).
      assert (Hlen : length vals = length (rows df)).
      { unfold vals. rewrite to_datetime_length. apply column_values_length. }
      destruct (setitem_existing df col vals j0 Hrect Hlen Hloc)
        as (Hc1 & Hr1 & Hl1 & Hv1).
      rewrite (bind_returned _ _ _ tt _ (log_message_returns _ _ _)).
      match goal with
      | |- context [handle_dates logger cols ?d ?s] =>
          destruct (IH d s) as (df' & st' & Hrun & Hc' & Hr' & Hl' & Hv')
      end.
      { rewrite Hc1. assumption. }
      { assumption. }
      { assumption. }
      exists df', st'. split; [exact Hrun|].
      split; [congruence|]. split; [assumption|]. split; [congruence|].
      intros j c Hc. rewrite (Hv' j c) by (rewrite Hc1; assumption).
      rewrite (Hv1 j c Hc). simpl label_in.
      destruct (String.eqb_spec c col) as [-> | Hne]; simpl; [|reflexivity].
      assert (j = j0) by auto. subst j. rewrite Hfalse. reflexivity.
    + destruct (IH df st Hnd Hrect Hcols') as (df' & st' & Hrun & Hc' & Hr' & Hl' & Hv').
      exists df', st'. split; [exact Hrun|]. repeat split; try assumption.
      intros j c Hc. rewrite (Hv' j c Hc). simpl label_in.
      destruct (String.eqb_spec c col) as [-> | Hne]; simpl; [|reflexivity].
      exfalso. apply nth_error_In in Hc. apply label_in_spec in Hc. congruence.
Qed.

End Dates.

(** C9: the date pass returns, never raises, on a frame with distinct
    labels; it keeps the labels and the number of rows; in each column whose
    label is a configured date column, normalised like the labels, a value
    that parses becomes the timestamp it denotes and one that does not
    becomes the missing marker; every other column is left as it is. *)
Theorem handle_dates_spec {P : Platform} (logger : AnalysisLogger) (df : DataFrame)
    (st : state) :
  List.NoDup (columns df) -> rectangular df ->
  date_labels = map standardize DATE_COLS /\
  exists df' st',
    handle_dates logger date_labels df st = (Returned df', st') /\
    columns df' = columns df /\
    length (rows df') = length (rows df) /\
    forall j col, nth_error (columns df) j = Some col ->
      (label_in col date_labels = true ->
       forall i c, nth_error (column_values j df) i = Some c ->
         nth_error (column_values j df') i =
         Some (match parse_datetime (column_values j df) c with
               | Some t => Timestamp t
               | None => NA
               end)) /\
      (label_in col date_labels = false ->
       column_values j df' = column_values j df).
Proof.
  intros Hnd Hrect. split; [reflexivity|].
  destruct (handle_dates_columns logger date_labels df st Hnd Hrect)
    as (df' & st' & Hrun & Hc & _ & Hl & Hv).
  { repeat constructor; simpl; intuition discriminate. }
  exists df', st'. split; [exact Hrun|]. split; [exact Hc|]. split; [exact Hl|].
  intros j col Hj. rewrite (Hv j col Hj). split; intros ->; [|reflexivity].
  intros i c Hi. unfold to_datetime. rewrite nth_error_map, Hi. reflexivity.
Qed.

Lemma handle_dates_spec_witness :
  let df := mkDataFrame ["order_date"; "sales"]
              [[Str "2026-01-01"; Int 3]; [Str "soon"; Int 4]; [NA; Int 5]] in
  exists df' st',
    handle_dates (P := sample_platform) sample_logger date_labels df empty_state
    = (Returned df', st') /\
    rows df' = [[Timestamp 1767225600000000000; Int 3]; [NA; Int 4]; [NA; Int 5]].
Proof.
  intros df.
  destruct (handle_dates_spec (P := sample_platform) sample_logger df empty_state)
    as (_ & df' & st' & Hrun & _).
  - repeat constructor; simpl; intuition discriminate.
  - repeat constructor.
  - exists df', st'. split; [exact Hrun|].
    vm_compute in Hrun. injection Hrun as <- _. reflexivity.
Defined.

(** ** Duplicate rows *)

(** C5: the duplicate-removal step returns the frame without the rows that
    equal an earlier row: no two of its rows are equal, every row of the
    input equals one of them, and the message it logs gives the number of
    rows before less the number of rows after, which is the number of rows
    [duplicated] flags. *)
Theorem remove_duplicates_spec {P : Platform} (logger : AnalysisLogger)
    (df : DataFrame) (st : state) :
  let out := drop_duplicates df in
  let removed := (Z.of_nat (length (rows df)) - Z.of_nat (length (rows out)))%Z in
  let message := "Dropped " +:+ str_Z removed +:+ " duplicate rows." in
  (exists st',
     remove_duplicates logger df st = (Returned out, st') /\
     stdout st' = stdout st ++ [message] /\
     fs st' !! txt_path logger =
       Some (default EmptyString (fs st !! txt_path logger)
             +:+ (now_hms (clock st) +:+ " | " +:+ message +:+ nl))) /\
  (forall i j r1 r2, i <> j ->
     nth_error (rows out) i = Some r1 -> nth_error (rows out) j = Some r2 ->
     row_eqb r1 r2 = false) /\
  (forall r, In r (rows df) -> exists r', In r' (rows out) /\ row_eqb r r' = true) /\
  (forall r', In r' (rows out) -> In r' (rows df)) /\
  removed = Z.of_nat (sum_bool (duplicated df)).
Proof.
  cbv zeta. split; [|split; [|split; [|split]]].
  - eexists. unfold remove_duplicates.
    rewrite (bind_returned _ _ _ tt _ (log_message_returns _ _ _)).
    split; [reflexivity|]. simpl. split; [reflexivity|].
    apply lookup_insert_eq.
  - intros i j r1 r2 Hij H1 H2. rewrite drop_duplicates_rows in H1, H2.
    apply (NoDup_keys_distinct row_eqb (map canon) row_eqb_canon
             (first_occurrences row_eqb [] (rows df)) i j); try assumption.
    apply first_occurrences_NoDup. apply row_eqb_canon.
  - intros r Hr. rewrite drop_duplicates_rows.
    destruct (first_occurrences_cover row_eqb (map canon) row_eqb_canon [] _ r Hr)
      as [H | H]; [discriminate | exact H].
  - intros r' Hr'. rewrite drop_duplicates_rows in Hr'.
    apply (first_occurrences_in row_eqb) in Hr'. tauto.
  - pose proof (duplicated_count [] (rows df)) as H.
    rewrite drop_duplicates_rows. unfold duplicated. lia.
Qed.

(** ** A missing input file *)

Lemma append_assoc (a b c : string) : (a +:+ b) +:+ c = a +:+ (b +:+ c).
Proof.
  induction a as [|x a IH]; [reflexivity|].
  change (String x ((a +:+ b) +:+ c) = String x (a +:+ (b +:+ c))).
  rewrite IH. reflexivity.
Qed.

(** C4: when there is no file at [RAW_DATA_PATH], [run_pipeline] returns
    without raising; the text log then holds its header followed by one line
    that carries "CRITICAL: ", the path and " not found."; the log file is
    the only file written: the cleaned data set and the report are not
    created, and no other path changes. *)
Theorem run_pipeline_missing_input {P : Platform} (st : state) :
  fs st !! RAW_DATA_PATH = None ->
  let header := "DATA ANALYSIS LOG | Generated: " +:+ now_str (clock st) +:+ nl
                +:+ str_repeat "=" 80 +:+ nl in
  let message := "CRITICAL: " +:+ RAW_DATA_PATH +:+ " not found." in
  exists st',
    run_pipeline st = (Returned tt, st') /\
    fs st' = <[LOG_PATH := header +:+ (now_hms (S (clock st)) +:+ " | " +:+ message +:+ nl)]>
               (fs st) /\
    (exists before after,
       fs st' !! LOG_PATH = Some (before +:+ message +:+ after)) /\
    fs st' !! CLEAN_DATA_PATH = fs st !! CLEAN_DATA_PATH /\
    fs st' !! REPORT_PATH = fs st !! REPORT_PATH /\
    (forall path, path <> LOG_PATH -> fs st' !! path = fs st !! path).
Proof.
  intros Hraw. cbv zeta.
  set (header := "DATA ANALYSIS LOG | Generated: " +:+ now_str (clock st) +:+ nl
                 +:+ str_repeat "=" 80 +:+ nl).
  set (message := "CRITICAL: " +:+ RAW_DATA_PATH +:+ " not found.").
  set (line := now_hms (S (clock st)) +:+ " | " +:+ message +:+ nl).
  assert (Hfs : exists st',
            run_pipeline st = (Returned tt, st') /\
            fs st' = <[LOG_PATH := header +:+ line]> (fs st)).
  { unfold run_pipeline, new_logger, bind, new_document, add_block, tick, write_file,
      path_exists, ret. simpl.
    rewrite lookup_insert_ne by discriminate. rewrite Hraw.
    rewrite bool_decide_eq_false_2 by (intros [x Hx]; discriminate).
    simpl. eexists. split; [reflexivity|]. simpl.
    rewrite lookup_insert_eq. simpl. apply insert_insert_eq. }
  destruct Hfs as (st' & Hrun & Hfs). exists st'.
  split; [exact Hrun|]. split; [exact Hfs|]. rewrite Hfs.
  split; [|split; [|split]].
  - exists (header +:+ now_hms (S (clock st)) +:+ " | "), nl.
    rewrite lookup_insert_eq. f_equal. unfold line.
    rewrite !append_assoc. reflexivity.
  - apply lookup_insert_ne. discriminate.
  - apply lookup_insert_ne. discriminate.
  - intros path Hne. apply lookup_insert_ne. congruence.
Qed.

Lemma run_pipeline_missing_input_witness :
  exists st',
    run_pipeline (P := sample_platform) empty_state = (Returned tt, st') /\
    fs st' !! CLEAN_DATA_PATH = None /\ fs st' !! REPORT_PATH = None /\
    is_Some (fs st' !! LOG_PATH).
Proof.
  destruct (run_pipeline_missing_input (P := sample_platform) empty_state)
    as (st' & Hrun & Hfs & _ & Hclean & Hreport & _).
  - reflexivity.
  - exists st'. split; [exact Hrun|]. split; [exact Hclean|]. split; [exact Hreport|].
    rewrite Hfs. rewrite lookup_insert_eq. eexists. reflexivity.
Defined.

(** ** When the median is a number *)

Lemma insert_float_perm x l : Permutation (insert_float x l) (x :: l).
Proof.
  induction l as [|y l IH]; simpl; [reflexivity|].
  destruct (Float64.leb x y); [reflexivity|].
  rewrite IH. apply perm_swap.
Qed.

Lemma sort_floats_perm l : Permutation (sort_floats l) l.
Proof.
  induction l as [|x l IH]; simpl; [reflexivity|].
  rewrite insert_float_perm, IH. reflexivity.
Qed.

Lemma float_values_not_nan vals f :
  In f (float_values vals) -> Float64.is_nan f = false.
Proof.
  unfold float_values. rewrite in_flat_map. intros (c & _ & Hf).
  destruct (to_float64 c) as [g|]; [|contradiction].
  destruct (Float64.is_nan g) eqn:Hg; [contradiction|].
  destruct Hf as [<- | []]. assumption.
Qed.

Lemma binary_normalize_not_nan prec emax m e s :
  Float64.is_nan (binary_normalize prec emax m e s) = false.
Proof.
  unfold binary_normalize, binary_round.
  destruct m as [|p|p]; [reflexivity | |];
    destruct (shl_align p e _) as [mz ez]; apply binary_round_aux_not_nan; lia.
Qed.

Lemma add_finite_not_nan a b :
  Float64.is_finite a = true -> Float64.is_finite b = true ->
  Float64.is_nan (Float64.add a b) = false.
Proof.
  destruct a as [sa|sa| |sa ma ea], b as [sb|sb| |sb mb eb]; simpl;
    try discriminate; intros _ _; try reflexivity.
  - destruct sa, sb; reflexivity.
  - apply binary_normalize_not_nan.
Qed.

Lemma half_not_nan x :
  Float64.is_nan x = false -> Float64.is_nan (Float64.div x (Float64.of_Z 2)) = false.
Proof.
  intros Hx. destruct x as [sx|sx| |sx mx ex]; try discriminate; try reflexivity.
  apply div_finite_not_nan; reflexivity.
Qed.

(** A column with a value present and no infinite value has a median. *)
Lemma median_defined vals :
  float_values vals <> [] ->
  (forall f, In f (float_values vals) -> Float64.is_inf f = false) ->
  Float64.is_nan (median vals) = false.
Proof.
  intros Hne Hfin. unfold median.
  pose proof (sort_floats_perm (float_values vals)) as Hperm.
  set (xs := sort_floats (float_values vals)) in *.
  assert (Hxs : forall f, In f xs -> Float64.is_finite f = true).
  { intros f Hf. apply (Permutation_in _ Hperm) in Hf. unfold Float64.is_finite.
    rewrite (float_values_not_nan vals f Hf), (Hfin f Hf). reflexivity. }
  assert (Hlen : length xs <> O).
  { rewrite (Permutation_length Hperm). destruct (float_values vals); simpl; congruence. }
  destruct (Nat.eqb_spec (length xs) 0) as [H0 | _]; [contradiction|].
  assert (Hhalf : (length xs / 2 < length xs)%nat).
  { apply Nat.div_lt; lia. }
  destruct (Nat.odd (length xs)).
  - assert (H : Float64.is_finite (nth (length xs / 2) xs Float64.nan) = true).
    { apply Hxs. apply nth_In. assumption. }
    unfold Float64.is_finite in H. apply andb_true_iff in H. destruct H as [H _].
    apply negb_true_iff. assumption.
  - apply half_not_nan. apply add_finite_not_nan; apply Hxs; apply nth_In; lia.
Qed.

(** ** The order of the cleaning stages *)

(** The imputation pass of [clean] runs on the frame left by the renaming,
    the removal of duplicate rows and the date pass, in this order. *)
Lemma clean_order {P : Platform} (logger : AnalysisLogger) (df : DataFrame) (st : state) :
  exists st1,
    clean logger df st =
    match handle_dates logger date_labels (drop_duplicates (standardize_columns df)) st1 with
    | (Returned d, st2) => impute logger (select_number_columns d) d st2
    | (Raised, st2) => (Raised, st2)
    end.
Proof.
  eexists. unfold clean, remove_duplicates, log_section, bind at 1 2 3 4 5 6.
  simpl. reflexivity.
Qed.

(** * Further properties *)

(** ** The sinks of the logger *)

Lemma append_empty_r (s : string) : s +:+ EmptyString = s.
Proof.
  induction s as [|c s IH]; [reflexivity|].
  change (String c (s +:+ EmptyString) = String c s). rewrite IH. reflexivity.
Qed.

Lemma log_extended_refl path st : log_extended path st st.
Proof.
  repeat split.
  - exists EmptyString. rewrite append_empty_r. reflexivity.
  - exists []. rewrite app_nil_r. reflexivity.
  - exists []. rewrite app_nil_r. reflexivity.
Qed.

Lemma log_extended_trans path st1 st2 st3 :
  log_extended path st1 st2 -> log_extended path st2 st3 -> log_extended path st1 st3.
Proof.
  intros (F1 & (t1 & T1) & (b1 & B1) & (l1 & L1)) (F2 & (t2 & T2) & (b2 & B2) & (l2 & L2)).
  repeat split.
  - intros p Hp. rewrite F2, F1 by assumption. reflexivity.
  - exists (t1 +:+ t2). rewrite T2, T1. apply append_assoc.
  - exists (b1 ++ b2). rewrite B2, B1. symmetry. apply app_assoc.
  - exists (l1 ++ l2). rewrite L2, L1. symmetry. apply app_assoc.
Qed.

Lemma preserves_ret {A : Type} (R : state -> state -> Prop) (a : A) :
  (forall st, R st st) -> preserves R (ret a).
Proof. intros H st. apply H. Qed.

Lemma preserves_lift {A : Type} (R : state -> state -> Prop) (o : option A) :
  (forall st, R st st) -> preserves R (lift o).
Proof. intros H st. unfold lift. destruct o; apply H. Qed.

Lemma preserves_bind {A B : Type} (R : state -> state -> Prop)
    (m : M A) (k : A -> M B) :
  (forall st1 st2 st3, R st1 st2 -> R st2 st3 -> R st1 st3) ->
  preserves R m -> (forall a, preserves R (k a)) -> preserves R (bind m k).
Proof.
  intros Htrans Hm Hk st. unfold bind. specialize (Hm st).
  destruct (m st) as [[a|] st1]; simpl in *; [|assumption].
  apply (Htrans _ st1); [assumption | apply Hk].
Qed.

Lemma add_block_log_extended path b : preserves (log_extended path) (add_block b).
Proof.
  intros st. unfold log_extended. cbn [add_block snd fs doc stdout]. repeat split.
  - exists EmptyString. rewrite append_empty_r. reflexivity.
  - exists [b]. reflexivity.
  - exists []. rewrite app_nil_r. reflexivity.
Qed.

Section LoggerSinks.

Context {P : Platform}.

Lemma log_message_log_extended logger message :
  preserves (log_extended (txt_path logger)) (log_message logger message).
Proof.
  intros st. rewrite log_message_returns. unfold log_extended.
  cbn [snd fs doc stdout]. repeat split.
  - intros p Hp. apply lookup_insert_ne. congruence.
  - eexists. rewrite lookup_insert_eq. reflexivity.
  - eexists. reflexivity.
  - eexists. reflexivity.
Qed.

Lemma log_section_log_extended logger title level :
  preserves (log_extended (txt_path logger)) (log_section logger title level).
Proof.
  intros st. unfold log_extended.
  cbv beta iota zeta delta [log_section bind print append_file add_block snd fs doc stdout].
  repeat split.
  - intros p Hp. apply lookup_insert_ne. congruence.
  - eexists. rewrite lookup_insert_eq. reflexivity.
  - eexists. reflexivity.
  - eexists. reflexivity.
Qed.

Lemma log_table_log_extended logger df title max_rows :
  preserves (log_extended (txt_path logger)) (log_table logger df title max_rows).
Proof.
  unfold log_table.
  apply preserves_bind; [apply log_extended_trans | |].
  - destruct title as [[|c t]|];
      [apply preserves_ret, log_extended_refl | apply log_message_log_extended
      | apply preserves_ret, log_extended_refl].
  - intros _. destruct (empty df); [apply add_block_log_extended|].
    apply preserves_bind; [apply log_extended_trans | apply add_block_log_extended |].
    intros _. apply preserves_bind; [apply log_extended_trans | |].
    + destruct (max_rows <? length (rows df))%nat;
        [apply add_block_log_extended | apply preserves_ret, log_extended_refl].
    + intros _. apply add_block_log_extended.
Qed.

End LoggerSinks.

(** X1: the text log, the document and the console are append-only for the
    three logging methods: whatever they held before a call of
    [log_section], [log_message] or [log_table] is still there, in front of
    what the call added, and no file other than the text log changes. *)
Theorem logger_append_only {P : Platform} (logger : AnalysisLogger)
    (title message : string) (level max_rows : nat) (df : DataFrame)
    (caption : option string) (st : state) :
  log_extended (txt_path logger) st (snd (log_section logger title level st)) /\
  log_extended (txt_path logger) st (snd (log_message logger message st)) /\
  log_extended (txt_path logger) st (snd (log_table logger df caption max_rows st)).
Proof.
  split; [apply log_section_log_extended|].
  split; [apply log_message_log_extended | apply log_table_log_extended].
Qed.

(** ** What [log_table] puts where *)

Section LogTable.

Context {P : Platform}.

(** The part of [log_table] that logs the caption. *)
Lemma log_table_unfold logger df caption max_rows st :
  log_table logger df caption max_rows st =
  let st1 := match caption with
             | Some (String c t) => snd (log_message logger (String c t) st)
             | _ => st
             end in
  let body :=
    if empty df then [Paragraph "No issues/data found for this metric."]
    else [TableGrid (if (max_rows =? 0)%nat then df else head df max_rows)]
         ++ (if (max_rows <? length (rows df))%nat
             then [Paragraph ("... [Truncated: "
                              +:+ str_nat (length (rows df) - max_rows)
                              +:+ " more rows]")]
             else [])
         ++ [Paragraph EmptyString] in
  (Returned tt, mkState (fs st1) (stdout st1) (clock st1) (doc st1 ++ body)).
Proof.
  unfold log_table. cbv zeta.
  assert (Hcap : forall k : unit -> M unit,
    bind (match caption with
          | Some (String c t) => log_message logger (String c t)
          | _ => ret tt
          end) k st =
    k tt (match caption with
          | Some (String c t) => snd (log_message logger (String c t) st)
          | _ => st
          end)).
  { intros k. destruct caption as [[|c t]|]; try reflexivity. }
  rewrite Hcap.
  destruct (empty df); [reflexivity|].
  unfold bind, add_block, ret. cbn [fs stdout clock doc].
  destruct (max_rows <? length (rows df))%nat; cbn [fs stdout clock doc];
    rewrite <- ?app_assoc; reflexivity.
Qed.

End LogTable.

(** X2: what [log_table] adds to the document after the caption.  For a
    frame without rows or without columns it is the one sentence "No
    issues/data found for this metric." and no table.  Otherwise it is a
    table, then a notice when the frame has more than [max_rows] rows, then
    an empty paragraph; the table shows the first [max_rows] rows, or all of
    them when [max_rows] is 0; the notice gives the number of rows less
    [max_rows], so that with a positive [max_rows] the rows shown and the
    rows announced as left out add up to the rows of the frame, while with
    [max_rows] = 0 every row is shown and the notice still announces all of
    them as left out. *)
Theorem log_table_document {P : Platform} (logger : AnalysisLogger) (df : DataFrame)
    (caption : option string) (max_rows : nat) (st : state) :
  let st1 := match caption with
             | Some (String c t) => snd (log_message logger (String c t) st)
             | _ => st
             end in
  let after := doc (snd (log_table logger df caption max_rows st)) in
  let notice := Paragraph ("... [Truncated: "
                           +:+ str_nat (length (rows df) - max_rows)
                           +:+ " more rows]") in
  (empty df = true ->
   after = doc st1 ++ [Paragraph "No issues/data found for this metric."]) /\
  (empty df = false ->
   exists shown,
     columns shown = columns df /\
     rows shown = firstn (if (max_rows =? 0)%nat then length (rows df) else max_rows)
                    (rows df) /\
     (length (rows shown) <= length (rows df))%nat /\
     ((length (rows df) <= max_rows)%nat ->
      rows shown = rows df /\
      after = doc st1 ++ [TableGrid shown; Paragraph EmptyString]) /\
     ((max_rows < length (rows df))%nat ->
      after = doc st1 ++ [TableGrid shown; notice; Paragraph EmptyString] /\
      ((0 < max_rows)%nat ->
       length (rows shown) = max_rows /\
       (length (rows shown) + (length (rows df) - max_rows) = length (rows df))%nat) /\
      (max_rows = O -> rows shown = rows df))).
Proof.
  cbv zeta. rewrite log_table_unfold. cbv zeta. cbn [snd doc]. split.
  - intros ->. reflexivity.
  - intros ->. exists (if (max_rows =? 0)%nat then df else head df max_rows).
    split; [destruct (max_rows =? 0)%nat; reflexivity|].
    split.
    { destruct (max_rows =? 0)%nat; [|reflexivity]. rewrite firstn_all. reflexivity. }
    split.
    { destruct (max_rows =? 0)%nat; [lia|]. simpl. rewrite length_firstn. lia. }
    split.
    + intros Hle. split.
      * destruct (max_rows =? 0)%nat; [reflexivity|]. simpl.
        apply firstn_all2. assumption.
      * destruct (Nat.ltb_spec max_rows (length (rows df))); [lia|]. reflexivity.
    + intros Hlt. destruct (Nat.ltb_spec max_rows (length (rows df))); [|lia].
      split; [reflexivity|]. split.
      * intros Hpos. destruct (Nat.eqb_spec max_rows 0); [lia|]. simpl.
        rewrite length_firstn. lia.
      * intros ->. reflexivity.
Qed.

Lemma log_table_document_witness :
  let df := mkDataFrame ["Postal Code"; "City"]
              [[Int 1; Str "a"]; [Int 1; Str "b"]; [Int 2; Str "c"]] in
  doc (snd (log_table (P := sample_platform) sample_logger df None 2 empty_state)) =
  [TableGrid (mkDataFrame ["Postal Code"; "City"] [[Int 1; Str "a"]; [Int 1; Str "b"]]);
   Paragraph "... [Truncated: 1 more rows]"; Paragraph EmptyString] /\
  doc (snd (log_table (P := sample_platform) sample_logger
              (mkDataFrame ["Postal Code"; "City"] []) None 2 empty_state)) =
  [Paragraph "No issues/data found for this metric."].
Proof.
  intros df. split.
  - destruct (log_table_document (P := sample_platform) sample_logger df None 2 empty_state)
      as [_ H].
    destruct (H eq_refl) as (shown & Hc & Hr & _ & _ & Hlt).
    destruct (Hlt ltac:(simpl; lia)) as (Hdoc & _).
    rewrite Hdoc. destruct shown as [cs rs]. simpl in Hc, Hr. subst. reflexivity.
  - destruct (log_table_document (P := sample_platform) sample_logger
                (mkDataFrame ["Postal Code"; "City"] []) None 2 empty_state) as [H _].
    rewrite (H eq_refl). reflexivity.
Defined.

(** ** The shape of a normalised label *)

Lemma fold_char_shape c :
  negb (Ascii.eqb (fold_char c) " ") && Ascii.eqb (lower_char (fold_char c)) (fold_char c)
  = true.
Proof.
  revert c.
  apply (forall_ascii
           (fun c => negb (Ascii.eqb (fold_char c) " ")
                     && Ascii.eqb (lower_char (fold_char c)) (fold_char c))).
  vm_compute. reflexivity.
Qed.

Lemma fold_char_fixed c :
  negb (Ascii.eqb c " ") && Ascii.eqb (lower_char c) c = true -> fold_char c = c.
Proof.
  intros H. apply andb_true_iff in H. destruct H as [H1 H2].
  unfold fold_char. apply negb_true_iff in H1. rewrite H1.
  apply Ascii.eqb_eq. assumption.
Qed.

Lemma str_forall_map p f s :
  (forall c, p (f c) = true) -> str_forall p (str_map f s) = true.
Proof.
  intros H. induction s as [|c s IH]; simpl; [reflexivity|]. rewrite H, IH. reflexivity.
Qed.

Lemma str_map_fixed f p s :
  (forall c, p c = true -> f c = c) -> str_forall p s = true -> str_map f s = s.
Proof.
  intros H. induction s as [|c s IH]; simpl; [reflexivity|].
  intros Hs. apply andb_true_iff in Hs. destruct Hs as [Hc Hs].
  rewrite (H c Hc), (IH Hs). reflexivity.
Qed.

Lemma str_strip_idem s : str_strip (str_strip s) = str_strip s.
Proof.
  unfold str_strip at 1. rewrite str_strip_lstrip. apply str_strip_rstrip.
Qed.

Lemma standardize_shape name : snake_case (standardize name).
Proof.
  unfold snake_case. rewrite standardize_fold. split.
  - unfold str_strip at 1.
    rewrite (str_lstrip_fold _ (str_strip_lstrip name)).
    apply str_rstrip_fold. apply str_strip_rstrip.
  - apply str_forall_map. apply fold_char_shape.
Qed.

(** X3: the labels [standardize] produces are exactly the labels it leaves
    alone (labels of code points below 256): a normalised label has no
    white space at either end, no space and no capital letter, and a label
    is returned as it is exactly when it has that form. *)
Theorem standardize_snake_case (name : string) :
  snake_case (standardize name) /\
  (snake_case name <-> standardize name = name).
Proof.
  split; [apply standardize_shape|]. split.
  - intros [Hs Hc]. rewrite standardize_fold, Hs.
    apply (str_map_fixed _ _ _ fold_char_fixed Hc).
  - intros H. rewrite <- H. apply standardize_shape.
Qed.

(** ** The summary of missing values *)




(** ** Removing duplicates twice *)

Section FirstOccurrencesFixed.

Context {A K : Type}.
Variable eqb : A -> A -> bool.
Variable key : A -> K.
Hypothesis eqb_key : forall a b, eqb a b = true <-> key a = key b.

Lemma first_occurrences_fixed seen l :
  List.NoDup (map key l) ->
  (forall x, In x l -> existsb (eqb x) seen = false) ->
  first_occurrences eqb seen l = l.
Proof.
  revert seen. induction l as [|a l IH]; intros seen Hnd Hseen; simpl; [reflexivity|].
  rewrite (Hseen a (or_introl eq_refl)). f_equal.
  simpl in Hnd. inversion Hnd as [|? ? Hnotin Hnd']. subst.
  apply IH; [assumption|]. intros x Hx. simpl.
  rewrite (Hseen x (or_intror Hx)), orb_false_r.
  apply (eqb_false_key eqb key eqb_key). intros Hk. apply Hnotin.
  rewrite <- Hk. apply in_map. assumption.
Qed.

Lemma first_occurrences_shorter seen l :
  (length (first_occurrences eqb seen l) <= length l)%nat.
Proof.
  revert seen. induction l as [|a l IH]; intros seen; simpl; [lia|].
  destruct (existsb (eqb a) seen); simpl.
  - specialize (IH seen). lia.
  - specialize (IH (a :: seen)). lia.
Qed.

Lemma first_occurrences_full seen l :
  length (first_occurrences eqb seen l) = length l ->
  first_occurrences eqb seen l = l.
Proof.
  revert seen. induction l as [|a l IH]; intros seen; simpl; [reflexivity|].
  destruct (existsb (eqb a) seen); simpl.
  - intros H. pose proof (first_occurrences_shorter seen l). lia.
  - intros H. f_equal. apply IH. lia.
Qed.

End FirstOccurrencesFixed.

Lemma first_occurrences_twice (l : list row) :
  first_occurrences row_eqb [] (first_occurrences row_eqb [] l) =
  first_occurrences row_eqb [] l.
Proof.
  apply (first_occurrences_fixed row_eqb (map canon) row_eqb_canon).
  - apply first_occurrences_NoDup. apply row_eqb_canon.
  - reflexivity.
Qed.

Lemma frame_ext (a b : DataFrame) :
  columns a = columns b -> rows a = rows b -> a = b.
Proof. destruct a, b; simpl; congruence. Qed.

(** X5: removing duplicate rows is idempotent and leaves nothing for
    [duplicated] to flag; it keeps the labels, and it returns the rows as
    they are when no row is flagged. *)
Theorem drop_duplicates_idempotent (df : DataFrame) :
  drop_duplicates (drop_duplicates df) = drop_duplicates df /\
  sum_bool (duplicated (drop_duplicates df)) = O /\
  columns (drop_duplicates df) = columns df /\
  (sum_bool (duplicated df) = O -> rows (drop_duplicates df) = rows df).
Proof.
  assert (Hrows : rows (drop_duplicates (drop_duplicates df)) = rows (drop_duplicates df)).
  { rewrite (drop_duplicates_rows (drop_duplicates df)), drop_duplicates_rows.
    apply first_occurrences_twice. }
  split.
  { apply frame_ext; [reflexivity | exact Hrows]. }
  split.
  { pose proof (duplicated_count [] (rows (drop_duplicates df))) as H.
    rewrite <- drop_duplicates_rows, Hrows in H. unfold duplicated. lia. }
  split; [reflexivity|].
  intros H0. pose proof (duplicated_count [] (rows df)) as H.
  unfold duplicated in H0. rewrite H0 in H. rewrite drop_duplicates_rows.
  apply (first_occurrences_full row_eqb). exact H.
Qed.

(** ** The stages before the export write to the logger only *)

Ltac sinks :=
  cbv zeta;
  repeat lazymatch goal with
    | |- preserves _ (log_message _ _) => apply log_message_log_extended
    | |- preserves _ (log_section _ _ _) => apply log_section_log_extended
    | |- preserves _ (log_table _ _ _ _) => apply log_table_log_extended
    | |- preserves _ (add_block _) => apply add_block_log_extended
    | |- preserves _ (ret _) => apply preserves_ret, log_extended_refl
    | |- preserves _ (lift _) => apply preserves_lift, log_extended_refl
    | |- preserves _ (bind _ _) =>
        apply preserves_bind; [apply log_extended_trans | | intros ?]
    | |- preserves _ (if ?b then _ else _) => destruct b
    end.

Section StageSinks.

Context {P : Platform}.
Variable logger : AnalysisLogger.

Lemma assess_quality_log_extended df :
  preserves (log_extended (txt_path logger)) (assess_quality logger df).
Proof. unfold assess_quality. sinks. Qed.

Lemma check_inconsistencies_log_extended df :
  preserves (log_extended (txt_path logger)) (check_inconsistencies logger df).
Proof. unfold check_inconsistencies, check_mapping. sinks. Qed.

Lemma enrich_log_extended df :
  preserves (log_extended (txt_path logger)) (enrich logger df).
Proof. unfold enrich. sinks. Qed.

Lemma handle_dates_log_extended cols : forall df,
  preserves (log_extended (txt_path logger)) (handle_dates logger cols df).
Proof.
  induction cols as [|col cols IH]; intros df; simpl; [sinks|].
  destruct (label_in col (columns df)); [|apply IH].
  sinks. apply IH.
Qed.

Lemma impute_log_extended cols : forall df,
  preserves (log_extended (txt_path logger)) (impute logger cols df).
Proof.
  induction cols as [|col cols IH]; intros df; simpl; [sinks|].
  apply preserves_bind; [apply log_extended_trans | sinks |]. intros j.
  destruct (existsb isna (column_values j df)); [|apply IH].
  sinks. apply IH.
Qed.

Lemma clean_log_extended df :
  preserves (log_extended (txt_path logger)) (clean logger df).
Proof.
  unfold clean, remove_duplicates. sinks.
  - apply handle_dates_log_extended.
  - apply impute_log_extended.
Qed.

End StageSinks.

(** ** A run of the pipeline as a whole *)

Lemma bind_raised_inv {S A B : Type} (m : Eff S A) (k : A -> Eff S B) st st' :
  bind m k st = (Raised, st') ->
  m st = (Raised, st') \/
  exists a st1, m st = (Returned a, st1) /\ k a st1 = (Raised, st').
Proof.
  unfold bind. destruct (m st) as [[a|] st1]; intros H.
  - right. eauto.
  - left. inversion H. reflexivity.
Qed.

Lemma bind_returned_inv {S A B : Type} (m : Eff S A) (k : A -> Eff S B) st b st' :
  bind m k st = (Returned b, st') ->
  exists a st1, m st = (Returned a, st1) /\ k a st1 = (Returned b, st').
Proof.
  unfold bind. destruct (m st) as [[a|] st1]; intros H; [eauto | discriminate].
Qed.

Lemma raised_bind {A B : Type} (R : state -> state -> Prop) (m : M A) (k : A -> M B) :
  (forall st1 st2 st3, R st1 st2 -> R st2 st3 -> R st1 st3) ->
  preserves R m ->
  (forall a st st', k a st = (Raised, st') -> R st st') ->
  forall st st', bind m k st = (Raised, st') -> R st st'.
Proof.
  intros Htrans Hm Hk st st' H. apply bind_raised_inv in H.
  destruct H as [H | (a & st1 & H1 & H2)].
  - specialize (Hm st). rewrite H in Hm. exact Hm.
  - specialize (Hm st). rewrite H1 in Hm. apply (Htrans _ st1); [exact Hm|].
    apply (Hk a). exact H2.
Qed.

Lemma preserves_weaken {A : Type} (R R' : state -> state -> Prop) (m : M A) :
  (forall st st', R st st' -> R' st st') -> preserves R m -> preserves R' m.
Proof. intros H Hm st. apply H, Hm. Qed.

Lemma pipeline_extended_trans st1 st2 st3 :
  pipeline_extended st1 st2 -> pipeline_extended st2 st3 -> pipeline_extended st1 st3.
Proof.
  intros (F1 & (t1 & T1) & (b1 & B1) & (l1 & L1)) (F2 & (t2 & T2) & (b2 & B2) & (l2 & L2)).
  repeat split.
  - intros p Hp. rewrite F2, F1 by assumption. reflexivity.
  - exists (t1 +:+ t2). rewrite T2, T1. apply append_assoc.
  - exists (b1 ++ b2). rewrite B2, B1. symmetry. apply app_assoc.
  - exists (l1 ++ l2). rewrite L2, L1. symmetry. apply app_assoc.
Qed.

Lemma log_extended_pipeline st st' :
  log_extended LOG_PATH st st' -> pipeline_extended st st'.
Proof.
  intros (F & T & B & L). repeat split; try assumption.
  intros p Hp. apply F. intros ->. apply Hp. left. reflexivity.
Qed.

Section Run.

Context {P : Platform}.

Lemma new_logger_returns txt doc_ st :
  new_logger txt doc_ st =
  (Returned (mkLogger txt doc_),
   mkState (<[txt := "DATA ANALYSIS LOG | Generated: " +:+ now_str (clock st) +:+ nl
                     +:+ str_repeat "=" 80 +:+ nl]> (fs st))
     (stdout st) (S (clock st)) [Heading 0 "Technical Data Analysis Report"]).
Proof. reflexivity. Qed.

(** The export: it cannot raise, and it leaves the cleaned data set and the
    report, which holds the whole document, on disk. *)
Lemma finalize_returns df st :
  exists st',
    finalize sample_logger df st = (Returned tt, st') /\
    fs st' !! CLEAN_DATA_PATH = Some (to_csv df) /\
    fs st' !! REPORT_PATH = Some (docx_bytes (doc st')) /\
    pipeline_extended st st'.
Proof.
  destruct st as [files out time blocks].
  cbv beta iota zeta delta
    [finalize log_section log_message save_report bind print append_file write_file
     add_block tick get_doc snd fst fs doc stdout clock sample_logger txt_path doc_path].
  eexists. split; [reflexivity|].
  cbv beta iota zeta delta [pipeline_extended touches_only fs doc stdout clock].
  split; [|split; [|repeat split]].
  - rewrite lookup_insert_ne by discriminate.
    rewrite lookup_insert_ne by discriminate.
    apply lookup_insert_eq.
  - apply lookup_insert_eq.
  - intros p Hp.
    rewrite !lookup_insert_ne; [reflexivity|..]; intros <-; apply Hp; simpl; auto.
  - rewrite lookup_insert_ne by discriminate. rewrite lookup_insert_eq.
    cbn [default from_option id]. rewrite lookup_insert_ne by discriminate. rewrite lookup_insert_eq.
    cbn [default from_option id]. rewrite lookup_insert_eq. cbn [default from_option id].
    rewrite !append_assoc. eexists. reflexivity.
  - rewrite <- !app_assoc. eexists. reflexivity.
  - rewrite <- !app_assoc. eexists. reflexivity.
Qed.

Lemma run_pipeline_absent st :
  fs st !! RAW_DATA_PATH = None ->
  run_pipeline st =
  log_message sample_logger ("CRITICAL: " +:+ RAW_DATA_PATH +:+ " not found.")
    (snd (new_logger LOG_PATH REPORT_PATH st)).
Proof.
  intros Hraw. unfold run_pipeline. unfold bind at 1. rewrite new_logger_returns.
  unfold bind at 1. unfold path_exists. cbn [fs snd].
  rewrite lookup_insert_ne by discriminate. rewrite Hraw.
  rewrite bool_decide_eq_false_2 by (intros [x Hx]; discriminate).
  reflexivity.
Qed.

Lemma run_pipeline_present st text :
  fs st !! RAW_DATA_PATH = Some text ->
  run_pipeline st =
  (run df <- lift (read_csv text);
   run _ <- assess_quality sample_logger df;
   run _ <- check_inconsistencies sample_logger df;
   run df <- enrich sample_logger df;
   run df <- clean sample_logger df;
   finalize sample_logger df)
    (snd (new_logger LOG_PATH REPORT_PATH st)).
Proof.
  intros Hraw. unfold run_pipeline. unfold bind at 1. rewrite new_logger_returns.
  unfold bind at 1. unfold path_exists. cbn [fs snd].
  rewrite lookup_insert_ne by discriminate. rewrite Hraw.
  rewrite bool_decide_eq_true_2 by eauto. cbn [negb].
  unfold bind at 1. unfold read_file, lift at 1. cbn [fs].
  rewrite lookup_insert_ne by discriminate. rewrite Hraw.
  reflexivity.
Qed.

Lemma stages_pipeline_extended text :
  preserves pipeline_extended
    (run df <- lift (read_csv text);
     run _ <- assess_quality sample_logger df;
     run _ <- check_inconsistencies sample_logger df;
     run df <- enrich sample_logger df;
     run df <- clean sample_logger df;
     finalize sample_logger df).
Proof.
  assert (Hrefl : forall st, pipeline_extended st st).
  { intros st. apply log_extended_pipeline, log_extended_refl. }
  apply preserves_bind; [apply pipeline_extended_trans | apply preserves_lift, Hrefl |].
  intros df.
  apply preserves_bind; [apply pipeline_extended_trans | |].
  { apply (preserves_weaken _ _ _ log_extended_pipeline).
    apply (assess_quality_log_extended sample_logger). }
  intros _.
  apply preserves_bind; [apply pipeline_extended_trans | |].
  { apply (preserves_weaken _ _ _ log_extended_pipeline).
    apply (check_inconsistencies_log_extended sample_logger). }
  intros _.
  apply preserves_bind; [apply pipeline_extended_trans | |].
  { apply (preserves_weaken _ _ _ log_extended_pipeline).
    apply (enrich_log_extended sample_logger). }
  intros enriched.
  apply preserves_bind; [apply pipeline_extended_trans | |].
  { apply (preserves_weaken _ _ _ log_extended_pipeline).
    apply (clean_log_extended sample_logger). }
  intros cleaned st.
  destruct (finalize_returns cleaned st) as (st' & Hrun & _ & _ & H).
  rewrite Hrun. exact H.
Qed.

Lemma run_pipeline_extended st :
  pipeline_extended (snd (new_logger LOG_PATH REPORT_PATH st)) (snd (run_pipeline st)).
Proof.
  destruct (fs st !! RAW_DATA_PATH) as [text|] eqn:Hraw.
  - rewrite (run_pipeline_present st text Hraw). apply stages_pipeline_extended.
  - rewrite (run_pipeline_absent st Hraw).
    apply log_extended_pipeline.
    apply (log_message_log_extended sample_logger).
Qed.

End Run.

(** X6: a run of the pipeline writes to its three output files and to
    nothing else: every other path of the file system, the input file among
    them, holds after the run what it held before, whether the run returns
    or raises; and the console keeps the lines it had. *)
Theorem run_pipeline_writes {P : Platform} (st : state) :
  touches_only [LOG_PATH; CLEAN_DATA_PATH; REPORT_PATH] st (snd (run_pipeline st)) /\
  fs (snd (run_pipeline st)) !! RAW_DATA_PATH = fs st !! RAW_DATA_PATH /\
  exists lines, stdout (snd (run_pipeline st)) = stdout st ++ lines.
Proof.
  destruct (run_pipeline_extended st) as (F & _ & _ & L).
  rewrite new_logger_returns in F, L. cbn [snd fs stdout] in F, L.
  assert (Hout : touches_only [LOG_PATH; CLEAN_DATA_PATH; REPORT_PATH] st
                   (snd (run_pipeline st))).
  { intros p Hp. rewrite (F p Hp). apply lookup_insert_ne.
    intros <-. apply Hp. left. reflexivity. }
  split; [exact Hout|]. split; [|exact L].
  apply Hout. simpl. intros [H | [H | [H | []]]]; discriminate.
Qed.

(** X7: every run starts its report afresh: whatever the log file and the
    document held before, after the run the log file exists and begins with
    the header of this run, and the document begins with the title
    heading. *)
Theorem run_pipeline_fresh_report {P : Platform} (st : state) :
  exists text blocks,
    fs (snd (run_pipeline st)) !! LOG_PATH =
      Some (("DATA ANALYSIS LOG | Generated: " +:+ now_str (clock st) +:+ nl
             +:+ str_repeat "=" 80 +:+ nl) +:+ text) /\
    doc (snd (run_pipeline st)) = Heading 0 "Technical Data Analysis Report" :: blocks.
Proof.
  destruct (run_pipeline_extended st) as (_ & (text & T) & (blocks & B) & _).
  rewrite new_logger_returns in T, B. cbn [snd fs doc] in T, B.
  rewrite lookup_insert_eq in T. cbn [default from_option id] in T.
  exists text, blocks. split; [|exact B].
  destruct (fs (snd (run_pipeline st)) !! LOG_PATH) as [s|]; cbn [default from_option id] in T.
  - rewrite T. reflexivity.
  - discriminate T.
Qed.

(** ** What a stage that returns has kept *)

Lemma setitem_columns df name vals :
  columns (setitem df name vals) =
  columns df ++ (if label_in name (columns df) then [] else [name]).
Proof.
  unfold setitem. destruct (label_in name (columns df)); simpl;
    [rewrite app_nil_r|]; reflexivity.
Qed.

Lemma get_loc_label_in cols name j : get_loc cols name = Some j -> label_in name cols = true.
Proof.
  intros H. apply get_loc_spec in H. destruct H as [H _].
  apply label_in_spec. eapply nth_error_In. eassumption.
Qed.

Lemma lift_returned_inv {S A : Type} (o : option A) (st st' : S) a :
  lift o st = (Returned a, st') -> o = Some a /\ st' = st.
Proof. unfold lift. destruct o; intros H; inversion H; auto. Qed.

Section Shapes.

Context {P : Platform}.
Variable logger : AnalysisLogger.

Lemma handle_dates_shape cols : forall df st df' st',
  handle_dates logger cols df st = (Returned df', st') ->
  columns df' = columns df /\ length (rows df') = length (rows df).
Proof.
  induction cols as [|col cols IH]; intros df st df' st' H; simpl in H.
  - inversion H. auto.
  - destruct (label_in col (columns df)) eqn:Hin; [|eapply IH; eassumption].
    apply bind_returned_inv in H. destruct H as (j & st1 & _ & H).
    apply bind_returned_inv in H. destruct H as ([] & st2 & _ & H).
    apply IH in H. destruct H as [Hc Hl].
    rewrite Hc, Hl, setitem_columns, Hin, app_nil_r. split; [reflexivity|].
    apply setitem_length. rewrite to_datetime_length. apply column_values_length.
Qed.

Lemma impute_shape cols : forall df st df' st',
  impute logger cols df st = (Returned df', st') ->
  columns df' = columns df /\ length (rows df') = length (rows df).
Proof.
  induction cols as [|col cols IH]; intros df st df' st' H; simpl in H.
  - inversion H. auto.
  - apply bind_returned_inv in H. destruct H as (j & st1 & Hj & H).
    apply lift_returned_inv in Hj. destruct Hj as [Hj _].
    destruct (existsb isna (column_values j df)); [|eapply IH; eassumption].
    apply bind_returned_inv in H. destruct H as ([] & st2 & _ & H).
    apply IH in H. destruct H as [Hc Hl].
    rewrite Hc, Hl, setitem_columns, (get_loc_label_in _ _ _ Hj), app_nil_r.
    split; [reflexivity|].
    apply setitem_length. unfold fillna. rewrite length_map. apply column_values_length.
Qed.

Lemma clean_shape df st df' st' :
  clean logger df st = (Returned df', st') ->
  columns df' = map standardize (columns df) /\
  (length (rows df') + sum_bool (duplicated df) = length (rows df))%nat.
Proof.
  intros H. unfold clean in H.
  apply bind_returned_inv in H. destruct H as ([] & st1 & _ & H).
  apply bind_returned_inv in H. destruct H as ([] & st2 & _ & H).
  apply bind_returned_inv in H. destruct H as (d1 & st3 & H1 & H).
  apply bind_returned_inv in H. destruct H as (d2 & st4 & H2 & H).
  apply impute_shape in H. apply handle_dates_shape in H2.
  unfold remove_duplicates in H1.
  apply bind_returned_inv in H1. destruct H1 as ([] & st5 & _ & H1).
  inversion H1. subst d1.
  destruct H as [Hc Hl], H2 as [Hc2 Hl2]. rewrite Hc, Hc2, Hl, Hl2.
  split; [reflexivity|].
  rewrite drop_duplicates_rows.
  pose proof (duplicated_count [] (rows df)) as Hd.
  unfold duplicated, standardize_columns. simpl. lia.
Qed.

Lemma add_profit_margin_shape df df' :
  add_profit_margin df = Some df' ->
  length (rows df') = length (rows df) /\
  columns df' = columns df ++
    (if label_in "Profit_Margin" (columns df) then [] else ["Profit_Margin"]).
Proof.
  unfold add_profit_margin. intros H.
  destruct (get_loc (columns df) "Profit") as [jp|]; [|discriminate].
  destruct (get_loc (columns df) "Sales") as [js|]; [|discriminate].
  destruct (traverse _ (rows df)) as [vals|] eqn:Hv; [|discriminate].
  injection H as <-. split; [|apply setitem_columns].
  apply setitem_length. apply (traverse_length _ _ _ Hv).
Qed.

Lemma add_product_full_name_shape df df' :
  add_product_full_name df = Some df' ->
  length (rows df') = length (rows df) /\
  columns df' = columns df ++
    (if label_in "Product_Full_Name" (columns df) then [] else ["Product_Full_Name"]).
Proof.
  unfold add_product_full_name. intros H.
  destruct (get_loc (columns df) "Product ID") as [ji|]; [|discriminate].
  destruct (get_loc (columns df) "Product Name") as [jn|]; [|discriminate].
  injection H as <-. split; [|apply setitem_columns].
  apply setitem_length. apply length_map.
Qed.

Lemma enrich_shape df st df' st' :
  enrich logger df st = (Returned df', st') ->
  length (rows df') = length (rows df) /\
  exists added,
    columns df' = columns df ++ added /\
    forall c, In c added -> c = "Profit_Margin" \/ c = "Product_Full_Name".
Proof.
  intros H. unfold enrich in H.
  apply bind_returned_inv in H. destruct H as ([] & st1 & _ & H).
  apply bind_returned_inv in H. destruct H as (d1 & st2 & H1 & H).
  assert (Hd1 : length (rows d1) = length (rows df) /\
                exists added, columns d1 = columns df ++ added /\
                  forall c, In c added -> c = "Profit_Margin").
  { destruct (issubset ["Profit"; "Sales"] (columns df)).
    - apply bind_returned_inv in H1. destruct H1 as (d & st3 & Hd & H1).
      apply lift_returned_inv in Hd. destruct Hd as [Hd _].
      apply bind_returned_inv in H1. destruct H1 as ([] & st4 & _ & H1).
      inversion H1. subst d1.
      apply add_profit_margin_shape in Hd. destruct Hd as [Hl Hc].
      split; [exact Hl|]. eexists. split; [exact Hc|].
      intros c Hin. destruct (label_in "Profit_Margin" (columns df)); simpl in Hin;
        [contradiction | destruct Hin as [<- | []]; reflexivity].
    - inversion H1. subst d1. split; [reflexivity|]. exists [].
      rewrite app_nil_r. split; [reflexivity | intros c []]. }
  destruct Hd1 as (Hl1 & a1 & Hc1 & Ha1).
  destruct (issubset ["Product ID"; "Product Name"] (columns d1)).
  - apply bind_returned_inv in H. destruct H as (d & st3 & Hd & H).
    apply lift_returned_inv in Hd. destruct Hd as [Hd _].
    apply bind_returned_inv in H. destruct H as ([] & st4 & _ & H).
    inversion H. subst df'.
    apply add_product_full_name_shape in Hd. destruct Hd as [Hl Hc].
    split; [congruence|].
    exists (a1 ++ (if label_in "Product_Full_Name" (columns d1)
                   then [] else ["Product_Full_Name"])).
    split.
    + rewrite Hc, Hc1, <- app_assoc. reflexivity.
    + intros c Hin. apply in_app_or in Hin. destruct Hin as [Hin | Hin]; [left; auto|].
      destruct (label_in "Product_Full_Name" (columns d1)); simpl in Hin;
        [contradiction | destruct Hin as [<- | []]; right; reflexivity].
  - inversion H. subst df'. split; [exact Hl1|]. exists a1. split; [exact Hc1|].
    intros c Hin. left. auto.
Qed.

End Shapes.

Section Outcome.

Context {P : Platform}.

Lemma stages_raised text st st' :
  (run df <- lift (read_csv text);
   run _ <- assess_quality sample_logger df;
   run _ <- check_inconsistencies sample_logger df;
   run df <- enrich sample_logger df;
   run df <- clean sample_logger df;
   finalize sample_logger df) st = (Raised, st') ->
  log_extended LOG_PATH st st'.
Proof.
  revert st st'.
  apply raised_bind; [apply log_extended_trans | sinks |]. intros df.
  apply raised_bind; [apply log_extended_trans
                     | apply (assess_quality_log_extended sample_logger) |].
  intros _.
  apply raised_bind; [apply log_extended_trans
                     | apply (check_inconsistencies_log_extended sample_logger) |].
  intros _.
  apply raised_bind; [apply log_extended_trans
                     | apply (enrich_log_extended sample_logger) |].
  intros enriched.
  apply raised_bind; [apply log_extended_trans
                     | apply (clean_log_extended sample_logger) |].
  intros cleaned st st' H.
  destruct (finalize_returns cleaned st) as (st2 & Hrun & _). congruence.
Qed.

End Outcome.

(** X8: a run that raises has written nothing but the log: the input file
    was there, and every path other than the log file, the cleaned data set
    and the report among them, holds what it held before the run.  The
    outputs are written at the very end or not at all. *)
Theorem run_pipeline_raised {P : Platform} (st st' : state) :
  run_pipeline st = (Raised, st') ->
  is_Some (fs st !! RAW_DATA_PATH) /\
  touches_only [LOG_PATH] st st' /\
  fs st' !! CLEAN_DATA_PATH = fs st !! CLEAN_DATA_PATH /\
  fs st' !! REPORT_PATH = fs st !! REPORT_PATH.
Proof.
  intros H.
  assert (Hraw : exists text, fs st !! RAW_DATA_PATH = Some text).
  { destruct (fs st !! RAW_DATA_PATH) as [text|] eqn:Hraw; [eauto|].
    rewrite (run_pipeline_absent st Hraw), log_message_returns in H. discriminate. }
  destruct Hraw as (text & Hraw). split; [eauto|].
  rewrite (run_pipeline_present st text Hraw) in H.
  apply stages_raised in H. destruct H as (F & _).
  rewrite new_logger_returns in F. cbn [snd fs] in F.
  assert (Hout : touches_only [LOG_PATH] st st').
  { intros p Hp. rewrite F by (intros ->; apply Hp; left; reflexivity).
    apply lookup_insert_ne. intros <-. apply Hp. left. reflexivity. }
  split; [exact Hout|].
  split; apply Hout; simpl; intros [E | []]; discriminate.
Qed.

(** An input file that the reader refuses. *)
Lemma run_pipeline_raised_witness :
  let st := mkState (<[RAW_DATA_PATH := "a;b"]> ∅) [] 0 [] in
  fs (snd (run_pipeline (P := sample_platform) st)) !! CLEAN_DATA_PATH = None /\
  fs (snd (run_pipeline (P := sample_platform) st)) !! REPORT_PATH = None.
Proof.
  intros st.
  assert (Hrun : run_pipeline (P := sample_platform) st
                 = (Raised, snd (run_pipeline (P := sample_platform) st))).
  { rewrite (run_pipeline_present st "a;b") by reflexivity. reflexivity. }
  destruct (run_pipeline_raised (P := sample_platform) st _ Hrun) as (_ & _ & Hc & Hr).
  split; [rewrite Hc | rewrite Hr]; reflexivity.
Defined.

(** X9: a run on an existing input that returns has exported a frame: the
    cleaned data set holds the CSV text of a frame whose labels are the
    normalised labels of the parsed input followed by those of the derived
    columns that were added, all in snake case, and which has no more rows
    than the input, the difference being the duplicate rows of the enriched
    frame; the report holds the whole document. *)
Theorem run_pipeline_returned {P : Platform} (st st' : state) (text : string) :
  fs st !! RAW_DATA_PATH = Some text ->
  run_pipeline st = (Returned tt, st') ->
  exists df_in df_out added,
    read_csv text = Some df_in /\
    fs st' !! CLEAN_DATA_PATH = Some (to_csv df_out) /\
    fs st' !! REPORT_PATH = Some (docx_bytes (doc st')) /\
    columns df_out = map standardize (columns df_in ++ added) /\
    (forall c, In c added -> c = "Profit_Margin" \/ c = "Product_Full_Name") /\
    Forall snake_case (columns df_out) /\
    (length (rows df_out) <= length (rows df_in))%nat.
Proof.
  intros Hraw H. rewrite (run_pipeline_present st text Hraw) in H.
  apply bind_returned_inv in H. destruct H as (df_in & st1 & Hin & H).
  apply lift_returned_inv in Hin. destruct Hin as [Hin _].
  apply bind_returned_inv in H. destruct H as ([] & st2 & _ & H).
  apply bind_returned_inv in H. destruct H as ([] & st3 & _ & H).
  apply bind_returned_inv in H. destruct H as (enriched & st4 & He & H).
  apply bind_returned_inv in H. destruct H as (df_out & st5 & Hc & H).
  apply enrich_shape in He. destruct He as (Hl & added & Hcols & Hadded).
  apply clean_shape in Hc. destruct Hc as [Hc Hrows].
  destruct (finalize_returns df_out st5) as (st6 & Hrun & Hclean & Hreport & _).
  assert (st6 = st') by congruence. subst st6.
  exists df_in, df_out, added.
  split; [exact Hin|]. split; [exact Hclean|]. split; [exact Hreport|].
  split; [rewrite Hc, Hcols; reflexivity|]. split; [exact Hadded|].
  split; [|lia].
  rewrite Hc. apply List.Forall_forall. intros c Hin'.
  apply in_map_iff in Hin'. destruct Hin' as (c0 & <- & _). apply standardize_shape.
Qed.

Lemma run_pipeline_returned_witness :
  let df := mkDataFrame ["Order ID"; " Sales"]
              [[Int 1; Float (Float64.of_Z 3)]; [Int 1; Float (Float64.of_Z 3)];
               [Int 2; Float Float64.nan]] in
  let st := mkState (<[RAW_DATA_PATH := "a;b"]> ∅) [] 0 [] in
  exists df_out,
    fs (snd (run_pipeline (P := parsing_platform df) st)) !! CLEAN_DATA_PATH
      = Some (to_csv (Platform := parsing_platform df) df_out) /\
    Forall snake_case (columns df_out) /\
    (length (rows df_out) <= 3)%nat.
Proof.
  intros df st.
  assert (Hrun : run_pipeline (P := parsing_platform df) st
                 = (Returned tt, snd (run_pipeline (P := parsing_platform df) st))).
  { vm_compute. reflexivity. }
  destruct (run_pipeline_returned (P := parsing_platform df) st _ "a;b" eq_refl Hrun)
    as (df_in & df_out & added & Hin & Hclean & _ & _ & _ & Hsnake & Hrows).
  exists df_out. split; [exact Hclean|]. split; [exact Hsnake|].
  injection Hin as <-. exact Hrows.
Defined.

(** ** Stages that cannot raise *)

Lemma never_raises_ret {A : Type} (a : A) : never_raises (ret a).
Proof. intros st. exists a, st. reflexivity. Qed.

Lemma never_raises_bind {A B : Type} (m : M A) (k : A -> M B) :
  never_raises m -> (forall a, never_raises (k a)) -> never_raises (bind m k).
Proof.
  intros Hm Hk st. destruct (Hm st) as (a & st1 & H1).
  destruct (Hk a st1) as (b & st2 & H2). exists b, st2.
  rewrite (bind_returned _ _ _ _ _ H1). exact H2.
Qed.

Lemma add_block_never_raises b : never_raises (add_block b).
Proof. intros st. eexists. eexists. reflexivity. Qed.

Ltac returns :=
  cbv zeta;
  repeat lazymatch goal with
    | |- never_raises (add_block _) => apply add_block_never_raises
    | |- never_raises (ret _) => apply never_raises_ret
    | |- never_raises (bind _ _) => apply never_raises_bind; [| intros ?]
    | |- never_raises (if ?b then _ else _) => destruct b
    | |- never_raises (match ?t with Some _ => _ | None => _ end) => destruct t
    | |- never_raises (match ?s with EmptyString => _ | String _ _ => _ end) => destruct s
    end.

Section Returning.

Context {P : Platform}.
Variable logger : AnalysisLogger.

Lemma log_message_never_raises message : never_raises (log_message logger message).
Proof. intros st. rewrite log_message_returns. eauto. Qed.

Lemma log_section_never_raises title level : never_raises (log_section logger title level).
Proof. intros st. eexists. eexists. reflexivity. Qed.

Lemma log_table_never_raises df title max_rows :
  never_raises (log_table logger df title max_rows).
Proof.
  unfold log_table. returns; apply log_message_never_raises.
Qed.

End Returning.

(** ** The duplicate count of the assessment *)

(** C8: the quality assessment returns, and the last thing it logs, on the
    console, in the text log and in the document, is "Fully Duplicated
    Rows: " followed by its count, [df.duplicated().sum()].  That count is
    the number of rows that equal an earlier row: [duplicated] flags
    exactly those rows, the count is the number of flags set, and it is the
    sum, over the distinct rows, of their number of occurrences less one. *)
Theorem full_duplicates_count {P : Platform} (logger : AnalysisLogger)
    (df : DataFrame) (st : state) :
  let full_dups := sum_bool (duplicated df) in
  let message := "Fully Duplicated Rows: " +:+ str_nat full_dups in
  (exists st',
     assess_quality logger df st = (Returned tt, st') /\
     (exists lines, stdout st' = stdout st ++ lines ++ [message]) /\
     (exists blocks, doc st' = doc st ++ blocks ++ [Paragraph message]) /\
     (exists before t,
        fs st' !! txt_path logger =
        Some (before +:+ (now_hms t +:+ " | " +:+ message +:+ nl)))) /\
  length (duplicated df) = length (rows df) /\
  (forall i r, nth_error (rows df) i = Some r ->
     (nth_error (duplicated df) i = Some true <->
      exists j r', (j < i)%nat /\ nth_error (rows df) j = Some r' /\
                   row_eqb r r' = true)) /\
  full_dups =
    list_sum (map (fun y => (occurrences row_eqb y (rows df) - 1)%nat)
                (rows (drop_duplicates df))) /\
  (full_dups + length (rows (drop_duplicates df)) = length (rows df))%nat.
Proof.
  cbv zeta. split; [|apply duplicated_spec].
  unfold assess_quality.
  pose proof (log_section_log_extended logger "1. Data Quality Assessment" 1 st) as E1.
  destruct (log_section_never_raises logger "1. Data Quality Assessment" 1 st)
    as ([] & s1 & H1).
  rewrite H1 in E1. cbn [snd] in E1. rewrite (bind_returned _ _ _ _ _ H1).
  match goal with
  | |- context [bind (log_message logger ?m) _ s1] =>
      pose proof (log_message_log_extended logger m s1) as E2;
      destruct (log_message_never_raises logger m s1) as ([] & s2 & H2)
  end.
  rewrite H2 in E2. cbn [snd] in E2. rewrite (bind_returned _ _ _ _ _ H2).
  match goal with
  | |- context [bind (log_table logger ?d ?c ?n) _ s2] =>
      pose proof (log_table_log_extended logger d c n s2) as E3;
      destruct (log_table_never_raises logger d c n s2) as ([] & s3 & H3)
  end.
  rewrite H3 in E3. cbn [snd] in E3. rewrite (bind_returned _ _ _ _ _ H3).
  pose proof (log_extended_trans _ _ _ _ (log_extended_trans _ _ _ _ E1 E2) E3)
    as (_ & _ & (blocks & Hdoc) & (lines & Hout)).
  rewrite log_message_returns. eexists. split; [reflexivity|].
  cbn [stdout doc fs]. split; [|split].
  - exists lines. rewrite Hout, <- app_assoc. reflexivity.
  - exists blocks. rewrite Hdoc, <- app_assoc. reflexivity.
  - eexists. eexists. rewrite lookup_insert_eq. reflexivity.
Qed.

(** ** Frames that the enrichment accepts *)

Lemma setitem_rectangular df name vals :
  rectangular df -> length vals = length (rows df) -> rectangular (setitem df name vals).
Proof.
  unfold rectangular. rewrite !List.Forall_forall. intros Hrect Hlen r Hr.
  unfold setitem in *. destruct (label_in name (columns df)); simpl in *.
  - apply in_map_iff in Hr. destruct Hr as ([r0 v] & <- & Hin).
    apply in_combine_l in Hin. simpl.
    rewrite length_map, length_combine, (Hrect r0 Hin). lia.
  - apply in_map_iff in Hr. destruct Hr as ([r0 v] & <- & Hin).
    apply in_combine_l in Hin. simpl.
    rewrite !length_app, (Hrect r0 Hin). reflexivity.
Qed.

Lemma issubset_two a b cols :
  issubset [a; b] cols = true -> In a cols /\ In b cols.
Proof.
  unfold issubset. simpl. rewrite !andb_true_iff, !label_in_spec. tauto.
Qed.

Lemma label_in_false name cols : ~ In name cols -> label_in name cols = false.
Proof.
  intros H. destruct (label_in name cols) eqn:E; [|reflexivity].
  apply label_in_spec in E. contradiction.
Qed.

Section EnrichReturns.

Context {P : Platform}.

Lemma add_product_full_name_returns df :
  List.NoDup (columns df) -> rectangular df ->
  issubset ["Product ID"; "Product Name"] (columns df) = true ->
  ~ In "Product_Full_Name" (columns df) ->
  exists d, add_product_full_name df = Some d /\ rectangular d /\
            columns d = columns df ++ ["Product_Full_Name"].
Proof.
  intros Hnd Hrect Hsub Hnew. apply issubset_two in Hsub. destruct Hsub as [Hi Hn].
  destruct (get_loc_NoDup _ _ Hnd Hi) as (ji & Hji).
  destruct (get_loc_NoDup _ _ Hnd Hn) as (jn & Hjn).
  unfold add_product_full_name. rewrite Hji, Hjn.
  eexists. split; [reflexivity|].
  split; [apply setitem_rectangular; [assumption | apply length_map]|].
  rewrite setitem_columns, (label_in_false _ _ Hnew). reflexivity.
Qed.

End EnrichReturns.

Lemma drop_duplicates_rectangular df : rectangular df -> rectangular (drop_duplicates df).
Proof.
  unfold rectangular. rewrite !List.Forall_forall. intros H r Hr.
  rewrite drop_duplicates_rows in Hr.
  apply (first_occurrences_in row_eqb) in Hr. destruct Hr as [Hr _].
  apply H. exact Hr.
Qed.

(** ** Labels that [detect_inconsistencies] refuses *)

Lemma get_loc_absent cols name : ~ In name cols -> get_loc cols name = None.
Proof.
  intros H. unfold get_loc.
  rewrite (proj1 (count_occ_not_In string_dec cols name) H). reflexivity.
Qed.

Lemma get_loc_repeated cols name :
  (2 <= count_occ string_dec cols name)%nat -> get_loc cols name = None.
Proof.
  intros H. unfold get_loc.
  destruct (Nat.eqb_spec (count_occ string_dec cols name) 1); [lia | reflexivity].
Qed.

Lemma traverse_none {A B : Type} (f : A -> option B) l a :
  In a l -> f a = None -> traverse f l = None.
Proof.
  induction l as [|x l IH]; simpl; [tauto|].
  intros [-> | Hin] Ha.
  - rewrite Ha. reflexivity.
  - rewrite (IH Hin Ha). destruct (f x); reflexivity.
Qed.

(** X11: [detect_inconsistencies] raises when the key label or one of the
    dependent labels is not a column of the frame, and when the key is
    listed among the dependents (the projection then has the key column
    twice, which [sort_values] refuses). *)
Theorem detect_inconsistencies_raises (df : DataFrame) col1 col2 :
  ~ In col1 (columns df) \/
  (exists c, In c (as_list col2) /\ ~ In c (columns df)) \/
  In col1 (as_list col2) ->
  detect_inconsistencies df col1 col2 = None.
Proof.
  intros H. unfold detect_inconsistencies, copy, dropna. cbn [columns rows].
  destruct H as [H | [(c & Hc & H) | H]].
  - cbn [traverse]. rewrite (get_loc_absent _ _ H). reflexivity.
  - rewrite (traverse_none _ (col1 :: as_list col2) c);
      [reflexivity | right; exact Hc | apply get_loc_absent; exact H].
  - destruct (traverse _ (col1 :: as_list col2)) as [js|]; [|reflexivity].
    destruct (groupby_filter _ col1 _) as [inconsistent|]; [|reflexivity].
    unfold getitem_cols.
    destruct (traverse _ (col1 :: as_list col2)) as [js'|]; [|reflexivity].
    unfold sort_values, drop_duplicates. cbn [columns].
    rewrite get_loc_repeated; [reflexivity|].
    simpl. destruct (string_dec col1 col1) as [_ | Hne]; [|congruence].
    assert (count_occ string_dec (as_list col2) col1 > 0)%nat;
      [apply count_occ_In; exact H | lia].
Qed.

Lemma detect_inconsistencies_raises_witness :
  detect_inconsistencies
    (mkDataFrame ["Postal Code"; "Town"] [[Int 10001; Str "Los Angeles"]])
    "Postal Code" (OneCol "City") = None.
Proof.
  apply detect_inconsistencies_raises. right. left.
  exists "City". split; [left; reflexivity|].
  simpl. intros [H | [H | []]]; discriminate.
Defined.

(** ** The shape of an inconsistency report *)

Lemma violates_key df k ds key key' :
  cell_eqb key key' = true -> violates df k ds key -> violates df k ds key'.
Proof.
  intros He (d & r1 & r2 & Hd & H1 & H2 & C1 & C2 & K1 & K2 & Hne).
  exists d, r1, r2. repeat split; try assumption.
  - apply (cell_eqb_trans _ key); assumption.
  - apply (cell_eqb_trans _ key); assumption.
Qed.

Lemma traverse_cons_inv {A B : Type} (f : A -> option B) a l js :
  traverse f (a :: l) = Some js ->
  exists j js', f a = Some j /\ traverse f l = Some js' /\ js = j :: js'.
Proof.
  simpl. destruct (f a) as [j|]; [|discriminate].
  destruct (traverse f l) as [js'|]; [|discriminate].
  intros [= <-]. eauto.
Qed.

Lemma detect_inconsistencies_inv (df : DataFrame) col1 col2 res :
  detect_inconsistencies df col1 col2 = Some res ->
  exists k ds, get_loc (columns df) col1 = Some k /\
               traverse (get_loc (columns df)) (as_list col2) = Some ds.
Proof.
  unfold detect_inconsistencies, copy, dropna. cbn [columns rows]. intros H.
  destruct (traverse (get_loc (columns df)) (col1 :: as_list col2)) as [js|] eqn:Hjs;
    [|discriminate].
  apply traverse_cons_inv in Hjs. destruct Hjs as (k & ds & Hk & Hds & _). eauto.
Qed.

Lemma get_loc_first_inv name cols j :
  get_loc (name :: cols) name = Some j -> j = O /\ ~ In name cols.
Proof.
  unfold get_loc. simpl. destruct (string_dec name name) as [_ | Hne]; [|congruence].
  rewrite String.eqb_refl.
  destruct (Nat.eqb_spec (S (count_occ string_dec cols name)) 1) as [H1 | H1];
    [|discriminate].
  intros [= <-]. split; [reflexivity|].
  apply (count_occ_not_In string_dec). lia.
Qed.

(** The rows a report is sorted from: the tuples of complete rows, each met
    once, each with another tuple of the same key that differs from it. *)
Lemma detect_inconsistencies_found (df : DataFrame) col1 col2 res :
  detect_inconsistencies df col1 col2 = Some res ->
  exists k ds found,
    get_loc (columns df) col1 = Some k /\
    traverse (get_loc (columns df)) (as_list col2) = Some ds /\
    ~ In col1 (as_list col2) /\
    comparable (map (cell_at 0) found) = true /\
    res = mkDataFrame (col1 :: as_list col2) (sort_rows 0 found) /\
    List.NoDup (map (map canon) found) /\
    (forall t, In t found ->
       exists r, In r (rows df) /\ complete (k :: ds) r = true /\ t = tuple (k :: ds) r) /\
    (forall t, In t found ->
       exists t', In t' found /\
                  cell_eqb (cell_at 0 t) (cell_at 0 t') = true /\ row_eqb t t' = false).
Proof.
  intros Hres.
  destruct (detect_inconsistencies_inv df col1 col2 res Hres) as (k & ds & Hk & Hds).
  destruct (detect_inconsistencies_stages df col1 col2 k ds Hk Hds)
    as (kept & Hkept & Heq).
  set (found := first_occurrences row_eqb [] (map (tuple (k :: ds)) kept)) in *.
  rewrite Heq in Hres. unfold sort_values in Hres. cbn [columns rows] in Hres.
  destruct (get_loc (col1 :: as_list col2) col1) as [j|] eqn:Hj; [|discriminate].
  apply get_loc_first_inv in Hj. destruct Hj as [-> Hnotin].
  destruct (comparable _) eqn:Hcmp; [|discriminate]. injection Hres as <-.
  assert (Hsrc : forall t, In t found -> exists r, In r kept /\ t = tuple (k :: ds) r).
  { intros t Ht. apply (first_occurrences_in row_eqb) in Ht. destruct Ht as [Ht _].
    apply in_map_iff in Ht. destruct Ht as (r & <- & Hr). eauto. }
  assert (Hcover : forall r, In r kept ->
            exists r', In r' kept /\ In (tuple (k :: ds) r') found /\
                       row_eqb (tuple (k :: ds) r) (tuple (k :: ds) r') = true).
  { intros r Hr.
    destruct (first_occurrences_cover row_eqb (map canon) row_eqb_canon []
                (map (tuple (k :: ds)) kept) (tuple (k :: ds) r))
      as [H | (t & Ht & He)]; [apply in_map; exact Hr | discriminate |].
    destruct (Hsrc t Ht) as (r' & Hr' & ->). eauto. }
  exists k, ds, found.
  split; [exact Hk|]. split; [exact Hds|]. split; [exact Hnotin|].
  split; [exact Hcmp|]. split; [reflexivity|].
  split; [apply first_occurrences_NoDup; apply row_eqb_canon|].
  split.
  { intros t Ht. destruct (Hsrc t Ht) as (r & Hr & ->). apply Hkept in Hr.
    exists r. tauto. }
  intros t Ht. destruct (Hsrc t Ht) as (r & Hr & ->).
  destruct (proj1 (Hkept r) Hr) as (_ & _ & Hv).
  destruct Hv as (d & r1 & r2 & Hd & H1 & H2 & C1 & C2 & K1 & K2 & Hne).
  assert (Hin : forall r', In r' (rows df) -> complete (k :: ds) r' = true ->
            cell_eqb (cell_at k r') (cell_at k r) = true -> In r' kept).
  { intros r' Hr' Hc' Hk'. apply Hkept. repeat split; try assumption.
    apply (violates_key df k ds (cell_at k r)).
    - rewrite cell_eqb_sym. exact Hk'.
    - exists d, r1, r2. repeat split; assumption. }
  destruct (Hcover r1 (Hin r1 H1 C1 K1)) as (s1 & Hs1 & Hf1 & E1).
  destruct (Hcover r2 (Hin r2 H2 C2 K2)) as (s2 & Hs2 & Hf2 & E2).
  assert (Hkey : forall r' s, cell_eqb (cell_at k r') (cell_at k r) = true ->
            row_eqb (tuple (k :: ds) r') (tuple (k :: ds) s) = true ->
            cell_eqb (cell_at 0 (tuple (k :: ds) r)) (cell_at 0 (tuple (k :: ds) s))
            = true).
  { intros r' s Hk' He.
    apply (tuple_eqb_in (k :: ds) r' s k) in He; [|left; reflexivity].
    change (cell_eqb (cell_at k r) (cell_at k s) = true).
    apply (cell_eqb_trans _ (cell_at k r')); [|exact He].
    rewrite cell_eqb_sym. exact Hk'. }
  destruct (row_eqb (tuple (k :: ds) r) (tuple (k :: ds) s1)) eqn:T1.
  - exists (tuple (k :: ds) s2). split; [exact Hf2|].
    split; [apply (Hkey r2); assumption|].
    destruct (row_eqb (tuple (k :: ds) r) (tuple (k :: ds) s2)) eqn:T2; [|reflexivity].
    exfalso.
    assert (E : row_eqb (tuple (k :: ds) r1) (tuple (k :: ds) r2) = true).
    { apply row_eqb_canon. apply row_eqb_canon in E1, E2, T1, T2. congruence. }
    apply (tuple_eqb_in (k :: ds) r1 r2 d) in E; [congruence | right; exact Hd].
  - exists (tuple (k :: ds) s1). split; [exact Hf1|].
    split; [apply (Hkey r1); assumption | exact T1].
Qed.

(** X12: what every report of [detect_inconsistencies] looks like, on a
    frame whose column labels are distinct.  Its labels are the key followed
    by the dependents; every row has one cell per label and no missing
    cell; every row comes with another row of the same key that differs
    from it, so that a report never consists of one row; and the report has
    no more rows than the frame it was computed from. *)
Theorem detect_inconsistencies_report (df : DataFrame) col1 col2 res :
  List.NoDup (columns df) ->
  detect_inconsistencies df col1 col2 = Some res ->
  columns res = col1 :: as_list col2 /\
  (forall t, In t (rows res) ->
     length t = S (length (as_list col2)) /\ forall c, In c t -> isna c = false) /\
  (forall t, In t (rows res) ->
     exists t', In t' (rows res) /\
                cell_eqb (cell_at 0 t) (cell_at 0 t') = true /\ row_eqb t t' = false) /\
  length (rows res) <> 1%nat /\
  (length (rows res) <= length (rows df))%nat.
Proof.
  intros _ Hres.
  destruct (detect_inconsistencies_found df col1 col2 res Hres)
    as (k & ds & found & Hk & Hds & _ & _ & -> & Hnd & Hsrc & Hpair).
  cbn [columns rows].
  assert (Hfound : forall t, In t (sort_rows 0 found) <-> In t found).
  { intros t. split; apply Permutation_in;
      [apply sort_rows_perm | symmetry; apply sort_rows_perm]. }
  assert (Hpartner : forall t, In t (sort_rows 0 found) ->
     exists t', In t' (sort_rows 0 found) /\
                cell_eqb (cell_at 0 t) (cell_at 0 t') = true /\ row_eqb t t' = false).
  { intros t Ht. apply Hfound in Ht. destruct (Hpair t Ht) as (t' & Ht' & H).
    exists t'. split; [apply Hfound; exact Ht' | exact H]. }
  split; [reflexivity|]. split; [|split; [exact Hpartner | split]].
  - intros t Ht. apply Hfound in Ht. destruct (Hsrc t Ht) as (r & Hr & Hc & ->).
    split.
    + unfold tuple. rewrite length_map. simpl.
      rewrite (traverse_length _ _ _ Hds). reflexivity.
    + intros c Hin. unfold tuple in Hin. apply in_map_iff in Hin.
      destruct Hin as (i & <- & Hi).
      apply (complete_in (k :: ds)); assumption.
  - intros Hone. destruct (sort_rows 0 found) as [|t [|t2 l]] eqn:Hs;
      try discriminate.
    destruct (Hpartner t (or_introl eq_refl)) as (t' & [<- | []] & _ & Hne).
    rewrite row_eqb_refl in Hne. discriminate.
  - assert (L1 : length (sort_rows 0 found) = length (map (map canon) found)).
    { rewrite length_map. apply Permutation_length, sort_rows_perm. }
    assert (L2 : length (map (fun r => map canon (tuple (k :: ds) r)) (rows df))
                 = length (rows df)) by apply length_map.
    rewrite L1, <- L2. apply NoDup_incl_length; [exact Hnd|].
    intros x Hx. apply in_map_iff in Hx. destruct Hx as (t & <- & Ht).
    destruct (Hsrc t Ht) as (r & Hr & _ & ->).
    apply in_map_iff. exists r. split; [reflexivity | exact Hr].
Qed.

Lemma detect_inconsistencies_report_witness :
  exists res,
    detect_inconsistencies
      (mkDataFrame ["Postal Code"; "City"]
         [[Int 10001; Str "Los Angeles"]; [Int 10001; Str "San Francisco"];
          [Int 90001; Str "Boston"]])
      "Postal Code" (OneCol "City") = Some res /\
    length (rows res) <> 1%nat.
Proof.
  eexists. split; [vm_compute; reflexivity|].
  apply (detect_inconsistencies_report
           (mkDataFrame ["Postal Code"; "City"]
              [[Int 10001; Str "Los Angeles"]; [Int 10001; Str "San Francisco"];
               [Int 90001; Str "Boston"]])
           "Postal Code" (OneCol "City")).
  - repeat constructor; simpl; intuition discriminate.
  - vm_compute. reflexivity.
Defined.

(** ** A report checked again *)

Lemma detect_inconsistencies_filtered (df : DataFrame) col1 col2 k ds :
  get_loc (columns df) col1 = Some k ->
  traverse (get_loc (columns df)) (as_list col2) = Some ds ->
  detect_inconsistencies df col1 col2 =
  sort_values
    (mkDataFrame (col1 :: as_list col2)
       (first_occurrences row_eqb []
          (map (tuple (k :: ds))
             (List.filter
                (fun r : row =>
                   negb (isna (cell_at k r)) &&
                   existsb (fun d => (1 <? nunique
                     (map (cell_at d)
                        (List.filter (fun r' => cell_eqb (cell_at k r') (cell_at k r))
                           (List.filter (complete (k :: ds)) (rows df)))))%nat) ds)
                (List.filter (complete (k :: ds)) (rows df))))))
    col1.
Proof.
  intros Hk Hds. destruct df as [cols rws]. simpl in *.
  set (rows1 := List.filter (complete (k :: ds)) rws).
  set (q := fun r : row =>
    negb (isna (cell_at k r)) &&
    existsb (fun d => (1 <? nunique
       (map (cell_at d)
          (List.filter (fun r' => cell_eqb (cell_at k r') (cell_at k r)) rows1)))%nat) ds).
  unfold detect_inconsistencies, copy, dropna. simpl.
  rewrite Hk, Hds. fold (complete (k :: ds)). fold rows1.
  unfold groupby_filter. simpl. rewrite Hk.
  rewrite (filter_rows_pure _ q).
  - unfold getitem_cols. simpl. rewrite Hk, Hds.
    f_equal. unfold drop_duplicates. simpl. f_equal.
    unfold duplicated. simpl. apply kept_first_occurrences.
  - intros r Hr. unfold q. destruct (isna (cell_at k r)); [reflexivity|]. simpl.
    apply (more_than_one_value_eval cols); [reflexivity | assumption].
Qed.

Lemma filter_all {A : Type} (f : A -> bool) l :
  (forall x, In x l -> f x = true) -> List.filter f l = l.
Proof.
  induction l as [|a l IH]; simpl; intros H; [reflexivity|].
  rewrite (H a) by auto. rewrite IH by auto. reflexivity.
Qed.

Lemma tuple_suffix (t pre : row) :
  map (fun j => cell_at j (pre ++ t)) (seq (length pre) (length t)) = t.
Proof.
  revert pre. induction t as [|a t IH]; intros pre; [reflexivity|].
  simpl. unfold cell_at at 1. rewrite nth_middle. f_equal.
  specialize (IH (pre ++ [a])). rewrite <- app_assoc, length_app in IH. simpl in IH.
  rewrite Nat.add_1_r in IH. exact IH.
Qed.

Lemma tuple_all (t : row) n : length t = n -> tuple (seq 0 n) t = t.
Proof. intros <-. apply (tuple_suffix t []). Qed.

Lemma get_loc_middle pre a l :
  List.NoDup (pre ++ a :: l) -> get_loc (pre ++ a :: l) a = Some (length pre).
Proof.
  intros Hnd.
  destruct (get_loc_NoDup (pre ++ a :: l) a Hnd) as (j & Hj).
  { apply in_or_app. right. left. reflexivity. }
  rewrite Hj. f_equal. symmetry. apply (get_loc_spec _ _ _ Hj).
  rewrite nth_error_app2, Nat.sub_diag by lia. reflexivity.
Qed.

Lemma traverse_get_loc_suffix l : forall pre,
  List.NoDup (pre ++ l) ->
  traverse (get_loc (pre ++ l)) l = Some (seq (length pre) (length l)).
Proof.
  induction l as [|a l IH]; intros pre Hnd; [reflexivity|].
  simpl. rewrite (get_loc_middle pre a l Hnd).
  specialize (IH (pre ++ [a])). rewrite <- app_assoc, length_app in IH. simpl in IH.
  rewrite Nat.add_1_r in IH. rewrite (IH Hnd). reflexivity.
Qed.

Lemma row_eqb_false_position (a b : row) :
  length a = length b -> row_eqb a b = false ->
  exists d, (d < length a)%nat /\ cell_eqb (cell_at d a) (cell_at d b) = false.
Proof.
  revert b. induction a as [|x a IH]; intros [|y b]; simpl; try discriminate.
  intros [= Hlen] H. apply andb_false_iff in H. destruct H as [H | H].
  - exists O. split; [lia | exact H].
  - destruct (IH b Hlen H) as (d & Hd & He). exists (S d). split; [lia | exact He].
Qed.

(** X13: a report is a fixed point of the check, up to the order of its
    rows.  Running [detect_inconsistencies] with the same key and dependents
    on a report it returned, its rows in any order, returns normally and
    gives a report with the same labels and the same rows: every row of a
    report is complete, is met once and has its key in conflict within the
    report.  (The order among rows of equal key is whatever the sort leaves,
    and is not part of the statement.) *)
Theorem detect_inconsistencies_idempotent (df : DataFrame) col1 col2 (res rep : DataFrame) :
  List.NoDup (as_list col2) ->
  detect_inconsistencies df col1 col2 = Some res ->
  columns rep = columns res -> Permutation (rows rep) (rows res) ->
  exists rep',
    detect_inconsistencies rep col1 col2 = Some rep' /\
    columns rep' = columns res /\
    Permutation (rows rep') (rows res).
Proof.
  intros Hnd2 Hres Hcols Hperm.
  destruct (detect_inconsistencies_found df col1 col2 res Hres)
    as (k & ds & found & Hk & Hds & Hnotin & Hcmp & -> & Hnd & Hsrc & Hpair).
  destruct rep as [cols R]. cbn [columns rows] in *. subst cols.
  set (n := length (as_list col2)).
  assert (HpermF : Permutation R found).
  { rewrite Hperm. apply sort_rows_perm. }
  assert (Hfound : forall t, In t R <-> In t found).
  { intros t. split; apply Permutation_in; [exact HpermF | symmetry; exact HpermF]. }
  assert (Hlen : forall t, In t R -> length t = S n).
  { intros t Ht. apply Hfound in Ht. destruct (Hsrc t Ht) as (r & _ & _ & ->).
    unfold tuple. rewrite length_map. simpl.
    rewrite (traverse_length _ _ _ Hds). reflexivity. }
  assert (Hna : forall t j, In t R -> (j < S n)%nat -> isna (cell_at j t) = false).
  { intros t j Ht Hj. pose proof (Hlen t Ht) as Hl.
    apply Hfound in Ht. destruct (Hsrc t Ht) as (r & _ & Hc & ->).
    unfold cell_at. rewrite <- Hl in Hj.
    pose proof (nth_In (tuple (k :: ds) r) NA Hj) as Hin.
    unfold tuple in Hin at 2. apply in_map_iff in Hin. destruct Hin as (i & Hi & Hin).
    rewrite <- Hi. apply (complete_in (k :: ds)); assumption. }
  assert (Hcomplete : forall t, In t R -> complete (0%nat :: seq 1 n) t = true).
  { intros t Ht. unfold complete. apply forallb_forall. intros j Hj.
    apply negb_true_iff. apply Hna; [exact Ht|].
    destruct Hj as [<- | Hj]; [lia|]. apply in_seq in Hj. lia. }
  assert (Hk' : get_loc (col1 :: as_list col2) col1 = Some O).
  { apply get_loc_head. exact Hnotin. }
  assert (Hds' : traverse (get_loc (col1 :: as_list col2)) (as_list col2)
                 = Some (seq 1 n)).
  { apply (traverse_get_loc_suffix (as_list col2) [col1]).
    simpl. constructor; assumption. }
  rewrite (detect_inconsistencies_filtered
             (mkDataFrame (col1 :: as_list col2) R) col1 col2 0 (seq 1 n) Hk' Hds').
  cbn [rows columns].
  rewrite (filter_all (complete (0%nat :: seq 1 n)) R Hcomplete).
  rewrite filter_all.
  2:{ intros t Ht. apply andb_true_iff. split.
      - apply negb_true_iff. apply Hna; [exact Ht | lia].
      - pose proof (group_flagged (mkDataFrame (col1 :: as_list col2) R) 0 (seq 1 n) t
                      Ht (Hcomplete t Ht)) as Hflag.
        cbn [rows] in Hflag.
        rewrite (filter_all (complete (0%nat :: seq 1 n)) R Hcomplete) in Hflag.
        apply Hflag.
        assert (Ht' := Ht). apply Hfound in Ht'.
        destruct (Hpair t Ht') as (t' & Hin' & Hkey & Hne).
        apply Hfound in Hin'.
        destruct (row_eqb_false_position t t') as (d & Hd & Hdiff);
          [rewrite (Hlen t Ht), (Hlen t' Hin'); reflexivity | exact Hne |].
        exists d, t, t'. cbn [rows].
        split.
        { apply in_seq. rewrite (Hlen t Ht) in Hd.
          destruct d; [congruence | lia]. }
        repeat split; auto using cell_eqb_refl.
        rewrite cell_eqb_sym. exact Hkey. }
  assert (Htuple : map (tuple (0%nat :: seq 1 n)) R = R).
  { rewrite <- (map_id R) at 2. apply map_ext_in. intros t Ht.
    apply (tuple_all t (S n)). apply Hlen. exact Ht. }
  rewrite Htuple.
  rewrite (first_occurrences_fixed row_eqb (map canon) row_eqb_canon).
  2:{ apply (Permutation_NoDup (l := map (map canon) found)); [|exact Hnd].
      apply Permutation_map. symmetry. exact HpermF. }
  2:{ reflexivity. }
  unfold sort_values. cbn [columns rows]. rewrite Hk'.
  assert (Hc : comparable (column_values 0 (mkDataFrame (col1 :: as_list col2) R)) = true).
  { apply comparable_spec. rewrite comparable_spec in Hcmp.
    assert (Hkey : forall x, In x (column_values 0 (mkDataFrame (col1 :: as_list col2) R))
                   -> In x (map (cell_at 0) found)).
    { intros x Hx. unfold column_values in Hx. cbn [rows] in Hx.
      apply in_map_iff in Hx. destruct Hx as (t & <- & Ht).
      apply in_map. apply Hfound. exact Ht. }
    intros x y Hx Hy. apply Hcmp; auto. }
  rewrite Hc. eexists. split; [reflexivity|]. split; [reflexivity|].
  cbn [rows]. rewrite sort_rows_perm. exact Hperm.
Qed.

Lemma detect_inconsistencies_idempotent_witness :
  let report := mkDataFrame ["Postal Code"; "City"]
                  [[Int 10001; Str "Los Angeles"]; [Int 10001; Str "San Francisco"]] in
  exists report',
    detect_inconsistencies report "Postal Code" (OneCol "City") = Some report' /\
    Permutation (rows report') (rows report).
Proof.
  intros report.
  destruct (detect_inconsistencies_idempotent
              (mkDataFrame ["City"; "Postal Code"]
                 [[Str "Los Angeles"; Int 10001]; [Str "Boston"; Int 90001];
                  [Str "San Francisco"; Int 10001]; [Str "Los Angeles"; Int 10001]])
              "Postal Code" (OneCol "City") report report)
    as (report' & Hrun & _ & Hrows).
  - repeat constructor. simpl. tauto.
  - vm_compute. reflexivity.
  - reflexivity.
  - reflexivity.
  - exists report'. split; [exact Hrun | exact Hrows].
Defined.

(** ** What the enrichment leaves alone, and what it adds *)

Lemma setitem_cells df name vals j c :
  rectangular df -> length vals = length (rows df) ->
  nth_error (columns (setitem df name vals)) j = Some c ->
  forall i,
    nth_error (column_values j (setitem df name vals)) i =
    if String.eqb c name then nth_error vals i
    else nth_error (column_values j df) i.
Proof.
  intros Hrect Hlen Hc i. unfold rectangular in Hrect. rewrite List.Forall_forall in Hrect.
  pose proof (setitem_length df name vals Hlen) as Hlen'.
  destruct (nth_error (rows df) i) as [r|] eqn:Hr.
  - assert (Hi : (i < length vals)%nat).
    { rewrite Hlen. apply nth_error_Some. congruence. }
    destruct (nth_error vals i) as [v|] eqn:Hv; [|apply nth_error_None in Hv; lia].
    destruct (setitem_cell df name vals i r v j c) as (r' & Hr' & _ & Hcell);
      try assumption.
    { apply Hrect. eapply nth_error_In. eassumption. }
    rewrite (column_values_nth _ _ _ _ Hr'), Hcell.
    destruct (String.eqb c name); [reflexivity|].
    rewrite (column_values_nth _ _ _ _ Hr). reflexivity.
  - apply nth_error_None in Hr.
    replace (nth_error (column_values j (setitem df name vals)) i) with (@None cell).
    2:{ symmetry. apply nth_error_None. rewrite column_values_length. lia. }
    destruct (String.eqb c name); symmetry; apply nth_error_None;
      [lia | rewrite column_values_length; lia].
Qed.

Lemma setitem_keeps df name vals j c :
  rectangular df -> length vals = length (rows df) ->
  nth_error (columns df) j = Some c -> c <> name ->
  nth_error (columns (setitem df name vals)) j = Some c /\
  column_values j (setitem df name vals) = column_values j df.
Proof.
  intros Hrect Hlen Hc Hne.
  assert (Hc' : nth_error (columns (setitem df name vals)) j = Some c).
  { rewrite setitem_columns, nth_error_app1; [exact Hc|].
    apply nth_error_Some. congruence. }
  split; [exact Hc'|]. apply nth_error_ext. intros i.
  rewrite (setitem_cells df name vals j c Hrect Hlen Hc').
  destruct (String.eqb_spec c name); [contradiction | reflexivity].
Qed.

Lemma setitem_new df name vals :
  rectangular df -> length vals = length (rows df) -> ~ In name (columns df) ->
  columns (setitem df name vals) = columns df ++ [name] /\
  column_values (length (columns df)) (setitem df name vals) = vals.
Proof.
  intros Hrect Hlen Hnew.
  assert (Hcols : columns (setitem df name vals) = columns df ++ [name]).
  { rewrite setitem_columns, (label_in_false _ _ Hnew). reflexivity. }
  split; [exact Hcols|]. apply nth_error_ext. intros i.
  rewrite (setitem_cells df name vals (length (columns df)) name Hrect Hlen).
  - rewrite String.eqb_refl. reflexivity.
  - rewrite Hcols, nth_error_app2, Nat.sub_diag by lia. reflexivity.
Qed.

Section Enrichment.

Context {P : Platform}.

Lemma add_profit_margin_keeps df d j c :
  rectangular df -> add_profit_margin df = Some d ->
  rectangular d /\
  (nth_error (columns df) j = Some c -> c <> "Profit_Margin" ->
   nth_error (columns d) j = Some c /\ column_values j d = column_values j df).
Proof.
  unfold add_profit_margin. intros Hrect H.
  destruct (get_loc (columns df) "Profit") as [jp|]; [|discriminate].
  destruct (get_loc (columns df) "Sales") as [js|]; [|discriminate].
  destruct (traverse _ (rows df)) as [vals|] eqn:Hv; [|discriminate].
  injection H as <-. pose proof (traverse_length _ _ _ Hv) as Hlen.
  split; [apply setitem_rectangular; assumption|].
  intros Hc Hne. apply setitem_keeps; assumption.
Qed.

Lemma add_product_full_name_keeps df d j c :
  rectangular df -> add_product_full_name df = Some d ->
  rectangular d /\
  (nth_error (columns df) j = Some c -> c <> "Product_Full_Name" ->
   nth_error (columns d) j = Some c /\ column_values j d = column_values j df).
Proof.
  unfold add_product_full_name. intros Hrect H.
  destruct (get_loc (columns df) "Product ID") as [ji|]; [|discriminate].
  destruct (get_loc (columns df) "Product Name") as [jn|]; [|discriminate].
  injection H as <-.
  split; [apply setitem_rectangular; [assumption | apply length_map]|].
  intros Hc Hne. apply setitem_keeps; [assumption | apply length_map | assumption..].
Qed.

End Enrichment.

(** X14: the enrichment step adds to the frame and alters nothing of the
    source data: when it returns, the frame has as many rows as before, and
    every column of the input other than one that is itself called
    Profit_Margin or Product_Full_Name is at its place, with its label and
    its values. *)
Theorem enrich_keeps_source {P : Platform} (logger : AnalysisLogger)
    (df df' : DataFrame) (st st' : state) :
  rectangular df ->
  enrich logger df st = (Returned df', st') ->
  length (rows df') = length (rows df) /\
  forall j c, nth_error (columns df) j = Some c ->
    c <> "Profit_Margin" -> c <> "Product_Full_Name" ->
    nth_error (columns df') j = Some c /\ column_values j df' = column_values j df.
Proof.
  intros Hrect H. split; [apply (enrich_shape logger df st df' st' H)|].
  intros j c Hc Hpm Hpfn. unfold enrich in H.
  apply bind_returned_inv in H. destruct H as ([] & st1 & _ & H).
  apply bind_returned_inv in H. destruct H as (d1 & st2 & H1 & H).
  assert (Hd1 : rectangular d1 /\ nth_error (columns d1) j = Some c /\
                column_values j d1 = column_values j df).
  { destruct (issubset ["Profit"; "Sales"] (columns df)).
    - apply bind_returned_inv in H1. destruct H1 as (d & st3 & Hd & H1).
      apply lift_returned_inv in Hd. destruct Hd as [Hd _].
      apply bind_returned_inv in H1. destruct H1 as ([] & st4 & _ & H1).
      inversion H1. subst d1.
      destruct (add_profit_margin_keeps df d j c Hrect Hd) as [Hr Hk].
      split; [exact Hr | apply Hk; assumption].
    - inversion H1. subst d1. auto. }
  destruct Hd1 as (Hr1 & Hc1 & Hv1).
  destruct (issubset ["Product ID"; "Product Name"] (columns d1)).
  - apply bind_returned_inv in H. destruct H as (d & st3 & Hd & H).
    apply lift_returned_inv in Hd. destruct Hd as [Hd _].
    apply bind_returned_inv in H. destruct H as ([] & st4 & _ & H).
    inversion H. subst df'.
    destruct (add_product_full_name_keeps d1 d j c Hr1 Hd) as [_ Hk].
    destruct (Hk Hc1 Hpfn) as [Hc2 Hv2]. split; [exact Hc2 | congruence].
  - inversion H. subst df'. auto.
Qed.

Lemma enrich_keeps_source_witness :
  let df := mkDataFrame ["Product ID"; "Product Name"; "Profit"; "Sales"]
              [[Str "P-1"; Str "Chair"; Int 25; Int 100];
               [Str "P-2"; NA; Int 5; Int 0]] in
  let out := enrich (P := sample_platform) sample_logger df empty_state in
  exists df', fst out = Returned df' /\
    column_values 1 df' = [Str "Chair"; NA] /\ column_values 2 df' = [Int 25; Int 5].
Proof.
  intros df out.
  assert (Hrun : exists df', out = (Returned df', snd out)).
  { eexists. vm_compute. reflexivity. }
  destruct Hrun as (df' & Hrun). exists df'. rewrite Hrun. split; [reflexivity|].
  assert (Hrect : rectangular df) by (repeat constructor).
  destruct (enrich_keeps_source (P := sample_platform) sample_logger df df'
              empty_state (snd out) Hrect Hrun) as [_ Hk].
  split.
  - apply (Hk 1%nat "Product Name"); [reflexivity | discriminate | discriminate].
  - apply (Hk 2%nat "Profit"); [reflexivity | discriminate | discriminate].
Defined.

(** X15: the derived attribute.  On a frame that has the columns Product
    ID and Product Name and no column Product_Full_Name yet, the attribute
    is appended as the last column, one value per row; in a row where
    neither the id nor the name is missing, its value is the text of the
    id, " | " and the text of the name.  (What [astype(str)] makes of a
    missing entry differs between pandas versions, and is not part of the
    statement.) *)
Theorem add_product_full_name_spec {P : Platform} (df : DataFrame) (ji jn : nat) :
  get_loc (columns df) "Product ID" = Some ji ->
  get_loc (columns df) "Product Name" = Some jn ->
  rectangular df ->
  ~ In "Product_Full_Name" (columns df) ->
  exists df',
    add_product_full_name df = Some df' /\
    columns df' = columns df ++ ["Product_Full_Name"] /\
    length (rows df') = length (rows df) /\
    forall i r, nth_error (rows df) i = Some r ->
      isna (cell_at ji r) = false -> isna (cell_at jn r) = false ->
      nth_error (column_values (length (columns df)) df') i =
      Some (Str (astype_str (cell_at ji r) +:+ " | " +:+ astype_str (cell_at jn r))).
Proof.
  intros Hji Hjn Hrect Hnew. unfold add_product_full_name. rewrite Hji, Hjn.
  eexists. split; [reflexivity|].
  match goal with
  | |- context [setitem df ?name ?vals] =>
      destruct (setitem_new df name vals Hrect (length_map _ _) Hnew) as [Hc Hv];
      pose proof (setitem_length df name vals (length_map _ _)) as Hl
  end.
  split; [exact Hc|]. split; [exact Hl|].
  intros i r Hi _ _. rewrite Hv, nth_error_map, Hi. reflexivity.
Qed.

Lemma add_product_full_name_spec_witness :
  let df := mkDataFrame ["Product ID"; "Product Name"]
              [[Str "P-1"; Str "Chair"]; [Str "P-2"; Str "Desk"]] in
  exists df',
    add_product_full_name (P := sample_platform) df = Some df' /\
    nth_error (column_values 2 df') 1 = Some (Str "P-2 | Desk").
Proof.
  intros df.
  destruct (add_product_full_name_spec (P := sample_platform) df 0 1)
    as (df' & Hrun & _ & _ & Hv).
  - reflexivity.
  - reflexivity.
  - repeat constructor.
  - simpl. intros [H | [H | []]]; discriminate.
  - exists df'. split; [exact Hrun|].
    apply (Hv 1%nat [Str "P-2"; Str "Desk"]); reflexivity.
Defined.

(** ** Labels that collide after the normalisation *)

Lemma count_occ_label_in cols name :
  (1 <= count_occ string_dec cols name)%nat -> label_in name cols = true.
Proof.
  intros H. apply label_in_spec. apply (count_occ_In string_dec). lia.
Qed.

Section DateLabels.

Context {P : Platform}.
Variable logger : AnalysisLogger.

Lemma handle_dates_raises c cols : forall df st,
  In c cols -> (2 <= count_occ string_dec (columns df) c)%nat ->
  fst (handle_dates logger cols df st) = Raised.
Proof.
  induction cols as [|col cols IH]; intros df st Hin Hc; [destruct Hin|].
  simpl. destruct (label_in col (columns df)) eqn:Hl.
  - unfold bind at 1. unfold lift.
    destruct (get_loc (columns df) col) as [j|] eqn:Hj.
    + destruct Hin as [-> | Hin].
      { rewrite (get_loc_repeated _ _ Hc) in Hj. discriminate. }
      rewrite (bind_returned _ _ _ tt _ (log_message_returns _ _ _)).
      apply IH; [exact Hin|].
      rewrite setitem_columns, Hl, app_nil_r. exact Hc.
    + reflexivity.
  - destruct Hin as [-> | Hin].
    + rewrite count_occ_label_in in Hl by lia. discriminate.
    + apply IH; assumption.
Qed.

End DateLabels.

(** X16: two columns of the input whose labels normalise to the same date
    label (such as "Order Date" and "order_date ") make the cleaning stage
    raise: the date pass finds more than one column under the label. *)
Theorem clean_raises_on_repeated_date_label {P : Platform} (logger : AnalysisLogger)
    (df : DataFrame) (st : state) (c : string) :
  In c date_labels ->
  (2 <= count_occ string_dec (map standardize (columns df)) c)%nat ->
  fst (clean logger df st) = Raised.
Proof.
  intros Hc Hrep.
  destruct (clean_order logger df st) as (st1 & ->).
  pose proof (handle_dates_raises logger c date_labels
                (drop_duplicates (standardize_columns df)) st1 Hc Hrep) as H.
  destruct (handle_dates logger date_labels (drop_duplicates (standardize_columns df)) st1)
    as [[d|] st2]; [discriminate | reflexivity].
Qed.

Lemma clean_raises_on_repeated_date_label_witness :
  fst (clean (P := sample_platform) sample_logger
         (mkDataFrame ["Order Date"; "order_date "] [[Str "2026-01-01"; Str "2026-01-02"]])
         empty_state) = Raised.
Proof.
  apply (clean_raises_on_repeated_date_label (P := sample_platform) sample_logger _ _
           "order_date").
  - left. reflexivity.
  - vm_compute. lia.
Defined.

(** ** What the imputation leaves alone *)

Lemma cell_at_beyond j r : (length r <= j)%nat -> cell_at j r = NA.
Proof. intros H. unfold cell_at. apply nth_overflow. exact H. Qed.

(** X17: the imputation pass fills missing numbers and does nothing else.
    On a frame with distinct labels and one cell per column in each row it
    returns a frame with the same labels and as many rows, in which every
    column that is not numeric is as it was, missing entries included, and
    every value that was present is still there. *)
Theorem impute_frame {P : Platform} (logger : AnalysisLogger) (df : DataFrame)
    (st : state) :
  List.NoDup (columns df) -> rectangular df ->
  exists df' st',
    impute logger (select_number_columns df) df st = (Returned df', st') /\
    columns df' = columns df /\
    length (rows df') = length (rows df) /\
    (forall j c, nth_error (columns df) j = Some c ->
       is_number_dtype (column_values j df) = false ->
       column_values j df' = column_values j df) /\
    (forall j i x, nth_error (column_values j df) i = Some x -> isna x = false ->
       nth_error (column_values j df') i = Some x).
Proof.
  intros Hnd Hrect.
  destruct (impute_columns logger (select_number_columns df) df st Hnd Hrect)
    as (df' & st' & Hrun & Hc & Hr' & Hl & Hv).
  { apply NoDup_map_fst_filter. assumption. }
  { intros c Hc. apply select_number_columns_in in Hc. destruct Hc as (j' & Hj' & _).
    eapply nth_error_In. eassumption. }
  exists df', st'. split; [exact Hrun|]. split; [exact Hc|]. split; [exact Hl|].
  split.
  - intros j c Hj Hnum. rewrite (Hv j c Hj).
    destruct (label_in c (select_number_columns df)) eqn:Hin; [|reflexivity].
    apply label_in_spec in Hin. apply select_number_columns_in in Hin.
    destruct Hin as (j' & Hj' & Hnum').
    assert (j' = j).
    { rewrite List.NoDup_nth_error in Hnd. apply Hnd; [|congruence].
      apply nth_error_Some. congruence. }
    subst j'. congruence.
  - intros j i x Hx Hna.
    destruct (nth_error (columns df) j) as [c|] eqn:Hj.
    + rewrite (Hv j c Hj).
      destruct (label_in c (select_number_columns df)); [|exact Hx].
      destruct (existsb isna (column_values j df)); [|exact Hx].
      unfold fillna. rewrite nth_error_map, Hx. simpl. rewrite Hna. reflexivity.
    + exfalso. apply nth_error_None in Hj.
      unfold column_values in Hx. rewrite nth_error_map in Hx.
      destruct (nth_error (rows df) i) as [r|] eqn:Hr; [|discriminate].
      injection Hx as <-.
      unfold rectangular in Hrect. rewrite List.Forall_forall in Hrect.
      rewrite cell_at_beyond in Hna; [discriminate|].
      rewrite (Hrect r) by (eapply nth_error_In; eassumption). exact Hj.
Qed.

Lemma impute_frame_witness :
  let df := mkDataFrame ["city"; "sales"]
              [[Str "Boston"; Float (Float64.of_Z 1)]; [NA; Float Float64.nan];
               [Str "Austin"; Float (Float64.of_Z 3)]] in
  exists df' st',
    impute (P := sample_platform) sample_logger (select_number_columns df) df empty_state
    = (Returned df', st') /\
    column_values 0 df' = [Str "Boston"; NA; Str "Austin"].
Proof.
  intros df.
  destruct (impute_frame (P := sample_platform) sample_logger df empty_state)
    as (df' & st' & Hrun & _ & _ & Hkeep & _).
  - repeat constructor; simpl; intuition discriminate.
  - repeat constructor.
  - exists df', st'. split; [exact Hrun|].
    apply (Hkeep 0%nat "city"); reflexivity.
Defined.

(** ** The margin column at the end of the cleaning *)

Lemma cell_eqb_isna a b : cell_eqb a b = true -> isna a = isna b.
Proof.
  destruct a as [|x|x|x|x], b as [|y|y|y|y]; simpl; try discriminate; try reflexivity.
  - intros ->. reflexivity.
  - intros ->. reflexivity.
  - destruct x as [sx|sx| |sx mx ex], y as [sy|sy| |sy my ey]; simpl;
      try reflexivity; discriminate.
Qed.

Lemma row_eqb_cell r r' j :
  row_eqb r r' = true -> cell_eqb (cell_at j r) (cell_at j r') = true.
Proof.
  intros H. apply row_eqb_canon in H. apply cell_eqb_canon.
  unfold cell_at.
  rewrite <- (map_nth canon r NA j), H, (map_nth canon r' NA j). reflexivity.
Qed.

Lemma fillna_complete m vals :
  Float64.is_nan m = false -> existsb isna (fillna m vals) = false.
Proof.
  intros Hm. apply not_true_is_false. intros H. apply existsb_exists in H.
  destruct H as (x & Hx & Hna). unfold fillna in Hx. apply in_map_iff in Hx.
  destruct Hx as (c & <- & _). destruct (isna c) eqn:Hc; simpl in Hna; congruence.
Qed.

Section CleanColumns.

Context {P : Platform}.
Variable logger : AnalysisLogger.

(** The columns of the frame [clean] returns, in terms of the frame left by
    the renaming and the removal of duplicate rows. *)
Lemma clean_columns df st :
  List.NoDup (map standardize (columns df)) -> rectangular df ->
  exists d2 d3 st',
    clean logger df st = (Returned d3, st') /\
    columns d2 = map standardize (columns df) /\
    columns d3 = map standardize (columns df) /\
    forall j c, nth_error (map standardize (columns df)) j = Some c ->
      column_values j d2 =
        (if label_in c date_labels
         then to_datetime (column_values j (drop_duplicates (standardize_columns df)))
         else column_values j (drop_duplicates (standardize_columns df))) /\
      column_values j d3 =
        (if label_in c (select_number_columns d2)
         then if existsb isna (column_values j d2)
              then fillna (median (column_values j d2)) (column_values j d2)
              else column_values j d2
         else column_values j d2).
Proof.
  intros Hnd Hrect. unfold clean.
  destruct (log_section_never_raises logger "4. Data Cleaning & Transformation Log" 1 st)
    as ([] & st1 & H1).
  rewrite (bind_returned _ _ _ _ _ H1).
  rewrite (bind_returned _ _ _ _ _ (log_message_returns _ _ _)).
  unfold remove_duplicates.
  match goal with
  | |- context [bind (bind (log_message ?l ?m) ?k) ?k' ?s] =>
      rewrite (bind_returned (bind (log_message l m) k) k' s
                 (drop_duplicates (standardize_columns df))
                 (snd (log_message l m s)))
        by (unfold bind at 1; rewrite log_message_returns; reflexivity)
  end.
  set (d1 := drop_duplicates (standardize_columns df)).
  assert (Hnd1 : List.NoDup (columns d1)) by exact Hnd.
  assert (Hr1 : rectangular d1).
  { apply drop_duplicates_rectangular. unfold rectangular in *. simpl.
    rewrite length_map. exact Hrect. }
  match goal with
  | |- context [bind (handle_dates logger date_labels d1) _ ?s] =>
      destruct (handle_dates_columns logger date_labels d1 s Hnd1 Hr1)
        as (d2 & st2 & H2 & Hc2 & Hr2 & _ & Hv2)
  end.
  { repeat constructor; simpl; intuition discriminate. }
  rewrite (bind_returned _ _ _ _ _ H2).
  destruct (impute_columns logger (select_number_columns d2) d2 st2)
    as (d3 & st3 & H3 & Hc3 & _ & _ & Hv3).
  - rewrite Hc2. exact Hnd1.
  - exact Hr2.
  - apply NoDup_map_fst_filter. rewrite Hc2. exact Hnd1.
  - intros c Hc. apply select_number_columns_in in Hc. destruct Hc as (j & Hj & _).
    eapply nth_error_In. eassumption.
  - exists d2, d3, st3. split; [exact H3|]. split; [exact Hc2|].
    split; [rewrite Hc3; exact Hc2|].
    intros j c Hj. split.
    + apply Hv2. exact Hj.
    + apply Hv3. rewrite Hc2. exact Hj.
Qed.

Lemma enrich_margin_column df st jp js :
  get_loc (columns df) "Profit" = Some jp ->
  get_loc (columns df) "Sales" = Some js ->
  numeric_at jp df -> numeric_at js df -> rectangular df ->
  List.NoDup (columns df ++ ["Profit_Margin"; "Product_Full_Name"]) ->
  exists e st' vals (b2 : bool),
    enrich logger df st = (Returned e, st') /\ rectangular e /\
    columns e = columns df ++ ["Profit_Margin"]
                           ++ (if b2 then ["Product_Full_Name"] else []) /\
    traverse (fun r => profit_margin (cell_at jp r) (cell_at js r)) (rows df) = Some vals /\
    column_values (length (columns df)) e = vals.
Proof.
  intros Hjp Hjs Np Ns Hrect Hnd.
  assert (Hnd1 : List.NoDup (columns df ++ ["Profit_Margin"])).
  { change ["Profit_Margin"; "Product_Full_Name"]
      with (["Profit_Margin"] ++ ["Product_Full_Name"]) in Hnd.
    rewrite app_assoc in Hnd. apply NoDup_app_remove_r in Hnd. exact Hnd. }
  assert (Hpm : ~ In "Profit_Margin" (columns df)).
  { intros Hin. apply NoDup_remove_2 in Hnd. apply Hnd. apply in_or_app. auto. }
  assert (Hpfn : ~ In "Product_Full_Name" (columns df ++ ["Profit_Margin"])).
  { intros Hin.
    change ["Profit_Margin"; "Product_Full_Name"]
      with (["Profit_Margin"] ++ ["Product_Full_Name"]) in Hnd.
    rewrite app_assoc in Hnd. apply NoDup_remove_2 in Hnd. apply Hnd.
    rewrite app_nil_r. exact Hin. }
  unfold numeric_at in Np, Ns. rewrite List.Forall_forall in Np, Ns.
  destruct (traverse_total (fun r => profit_margin (cell_at jp r) (cell_at js r)) (rows df))
    as (vals & Hvals).
  { intros r Hr. apply profit_margin_total; auto. }
  pose proof (traverse_length _ _ _ Hvals) as Hlen.
  set (d1 := setitem df "Profit_Margin" vals).
  destruct (setitem_new df "Profit_Margin" vals Hrect Hlen Hpm) as [Hc1 Hv1].
  fold d1 in Hc1, Hv1.
  assert (Hr1 : rectangular d1) by (apply setitem_rectangular; assumption).
  assert (Hsub : issubset ["Profit"; "Sales"] (columns df) = true).
  { unfold issubset. simpl.
    rewrite (get_loc_label_in _ _ _ Hjp), (get_loc_label_in _ _ _ Hjs). reflexivity. }
  unfold enrich.
  destruct (log_section_never_raises logger "3. Calculations & KPI Enrichment" 1 st)
    as ([] & st1 & H1).
  rewrite (bind_returned _ _ _ _ _ H1). rewrite Hsub.
  assert (Hfirst :
    (run df' <- lift (add_profit_margin df);
     run _ <- log_message logger "Added KPI: Profit_Margin (Profit / Sales)";
     ret df') st1
    = (Returned d1,
       snd (log_message logger "Added KPI: Profit_Margin (Profit / Sales)" st1))).
  { unfold add_profit_margin. rewrite Hjp, Hjs, Hvals. reflexivity. }
  rewrite (bind_returned _ _ _ _ _ Hfirst).
  destruct (issubset ["Product ID"; "Product Name"] (columns d1)) eqn:Hsub2.
  - destruct (add_product_full_name_returns d1) as (e & He & Hre & Hce).
    + rewrite Hc1. exact Hnd1.
    + exact Hr1.
    + exact Hsub2.
    + rewrite Hc1. exact Hpfn.
    + rewrite He. eexists e, _, vals, true. split; [reflexivity|].
      split; [exact Hre|]. split; [rewrite Hce, Hc1, <- app_assoc; reflexivity|].
      split; [exact Hvals|].
      destruct (add_product_full_name_keeps d1 e (length (columns df)) "Profit_Margin"
                  Hr1 He) as [_ Hk].
      destruct Hk as [_ Hk]; [|discriminate|congruence].
      rewrite Hc1, nth_error_app2, Nat.sub_diag by lia. reflexivity.
  - eexists d1, _, vals, false. split; [reflexivity|]. split; [exact Hr1|].
    split; [rewrite Hc1, app_nil_r; reflexivity|]. split; [exact Hvals | exact Hv1].
Qed.

End CleanColumns.

(** X18: the margin column of the exported frame has no missing value.  On a
    well-formed frame with numeric Profit and Sales in which at least one
    row has a margin that is a number, the KPI step followed by the cleaning
    stage returns a frame whose column "profit_margin" holds no missing
    value: the margins that were NaN (a missing profit or sales, or 0 / 0)
    have been filled by the imputation pass, whose median is a number
    because the KPI step left no infinite margin. *)
Theorem profit_margin_after_cleaning {P : Platform} (logger : AnalysisLogger)
    (df : DataFrame) (st : state) (jp js : nat) :
  get_loc (columns df) "Profit" = Some jp ->
  get_loc (columns df) "Sales" = Some js ->
  numeric_at jp df -> numeric_at js df -> rectangular df ->
  List.NoDup (map standardize (columns df ++ ["Profit_Margin"; "Product_Full_Name"])) ->
  (exists r f, In r (rows df) /\
     profit_margin (cell_at jp r) (cell_at js r) = Some (Float f) /\
     Float64.is_nan f = false) ->
  exists enriched st1 out st2,
    enrich logger df st = (Returned enriched, st1) /\
    clean logger enriched st1 = (Returned out, st2) /\
    nth_error (columns out) (length (columns df)) = Some "profit_margin" /\
    existsb isna (column_values (length (columns df)) out) = false.
Proof.
  intros Hjp Hjs Np Ns Hrect Hnd (r0 & f0 & Hr0 & Hm0 & Hf0).
  set (j := length (columns df)).
  destruct (enrich_margin_column logger df st jp js Hjp Hjs Np Ns Hrect)
    as (e & st1 & vals & b2 & He & Hre & Hce & Hvals & Hcol).
  { eapply NoDup_map_inv. exact Hnd. }
  fold j in Hcol.
  assert (Hnde : List.NoDup (map standardize (columns e))).
  { rewrite Hce. destruct b2.
    - exact Hnd.
    - rewrite app_nil_r.
      change ["Profit_Margin"; "Product_Full_Name"]
        with (["Profit_Margin"] ++ ["Product_Full_Name"]) in Hnd.
      rewrite app_assoc, map_app in Hnd. apply NoDup_app_remove_r in Hnd. exact Hnd. }
  destruct (clean_columns logger e st1 Hnde Hre)
    as (d2 & out & st2 & Hc & Hc2 & Hcout & Hv).
  exists e, st1, out, st2. split; [exact He|]. split; [exact Hc|].
  assert (Hlabel : nth_error (map standardize (columns e)) j = Some "profit_margin").
  { rewrite Hce, map_app, nth_error_app2 by (rewrite length_map; unfold j; lia).
    rewrite length_map. unfold j. rewrite Nat.sub_diag. reflexivity. }
  split; [rewrite Hcout; exact Hlabel|].
  destruct (Hv j "profit_margin" Hlabel) as [Hv2 Hv3].
  change (label_in "profit_margin" date_labels) with false in Hv2. cbv iota in Hv2.
  set (d1 := drop_duplicates (standardize_columns e)) in *.
  (* the margins *)
  assert (Hmargin : forall x, In x vals ->
            exists f, x = Float f /\ Float64.is_inf f = false).
  { intros x Hx. apply In_nth_error in Hx. destruct Hx as (i & Hi).
    pose proof (traverse_Forall2 _ _ _ Hvals) as Hall.
    assert (Hrow : exists r, nth_error (rows df) i = Some r).
    { destruct (nth_error (rows df) i) as [r|] eqn:Hr; [eauto|].
      apply nth_error_None in Hr. rewrite <- (traverse_length _ _ _ Hvals) in Hr.
      apply nth_error_None in Hr. congruence. }
    destruct Hrow as (r & Hr).
    destruct (Forall2_nth_error _ _ _ _ _ Hall Hr) as (v & Hv' & Hpm).
    assert (v = x) by congruence. subst v.
    unfold profit_margin in Hpm.
    destruct (to_float64 (cell_at jp r)) as [p|]; [|discriminate].
    destruct (to_float64 (cell_at js r)) as [s|]; [|discriminate].
    injection Hpm as <-. eexists. split; [reflexivity|].
    apply (replace_inf_div p s). }
  assert (Hsub : forall x, In x (column_values j d1) -> In x vals).
  { intros x Hx. unfold column_values in Hx. apply in_map_iff in Hx.
    destruct Hx as (r & <- & Hr). unfold d1 in Hr. rewrite drop_duplicates_rows in Hr.
    apply (first_occurrences_in row_eqb) in Hr. destruct Hr as [Hr _].
    rewrite <- Hcol. unfold column_values. apply in_map. exact Hr. }
  assert (Hsome : exists x, In x (column_values j d1) /\ isna x = false).
  { assert (Hin0 : In (Float f0) vals).
    { apply In_nth_error in Hr0. destruct Hr0 as (i & Hi).
      destruct (Forall2_nth_error _ _ _ _ _ (traverse_Forall2 _ _ _ Hvals) Hi)
        as (v & Hv' & Hpm).
      rewrite Hm0 in Hpm. injection Hpm as <-. eapply nth_error_In. eassumption. }
    rewrite <- Hcol in Hin0. unfold column_values in Hin0. apply in_map_iff in Hin0.
    destruct Hin0 as (re & Hcell & Hre').
    destruct (first_occurrences_cover row_eqb (map canon) row_eqb_canon [] (rows e) re Hre')
      as [H | (r' & Hr' & Heq)]; [discriminate|].
    exists (cell_at j r'). split.
    - unfold column_values. apply in_map. unfold d1. rewrite drop_duplicates_rows.
      exact Hr'.
    - rewrite <- (cell_eqb_isna _ _ (row_eqb_cell re r' j Heq)), Hcell. exact Hf0. }
  rewrite Hv3, Hv2.
  assert (Hnum : label_in "profit_margin" (select_number_columns d2) = true).
  { apply label_in_spec. apply select_number_columns_in. exists j. split.
    - rewrite Hc2. exact Hlabel.
    - rewrite Hv2. unfold is_number_dtype. apply orb_true_iff. right.
      apply forallb_forall. intros x Hx.
      destruct (Hmargin x (Hsub x Hx)) as (f & -> & _). reflexivity. }
  rewrite Hnum.
  destruct (existsb isna (column_values j d1)) eqn:Hna; [|exact Hna].
  apply fillna_complete. apply median_defined.
  - destruct Hsome as (x & Hx & Hxna).
    destruct (Hmargin x (Hsub x Hx)) as (f & -> & _). simpl in Hxna.
    intros Hempty.
    assert (Hin : In f (float_values (column_values j d1))).
    { unfold float_values. apply in_flat_map. exists (Float f). split; [exact Hx|].
      simpl. rewrite Hxna. left. reflexivity. }
    rewrite Hempty in Hin. destruct Hin.
  - intros f Hf. unfold float_values in Hf. apply in_flat_map in Hf.
    destruct Hf as (x & Hx & Hf).
    destruct (Hmargin x (Hsub x Hx)) as (g & -> & Hg). simpl in Hf.
    destruct (Float64.is_nan g); [destruct Hf|]. destruct Hf as [<- | []]. exact Hg.
Qed.

Lemma profit_margin_after_cleaning_witness :
  let df := mkDataFrame ["Profit"; "Sales"]
              [[Int 25; Int 100]; [Float Float64.nan; Int 0]; [Int 5; Int 0]] in
  exists enriched st1 out st2,
    enrich (P := sample_platform) sample_logger df empty_state = (Returned enriched, st1) /\
    clean (P := sample_platform) sample_logger enriched st1 = (Returned out, st2) /\
    nth_error (columns out) 2 = Some "profit_margin" /\
    existsb isna (column_values 2 out) = false.
Proof.
  intros df.
  apply (profit_margin_after_cleaning (P := sample_platform) sample_logger df
           empty_state 0 1).
  - reflexivity.
  - reflexivity.
  - repeat constructor; discriminate.
  - repeat constructor; discriminate.
  - repeat constructor.
  - vm_compute. repeat constructor; simpl; intuition discriminate.
  - eexists [Int 25; Int 100], _. split; [left; reflexivity|].
    split; [vm_compute; reflexivity | reflexivity].
Defined.
